(** * The UltraHDR encoder fuzz driver (libs/ultrahdr/fuzzer/ultrahdr_enc_fuzzer.cpp)

    A shallow embedding of [JpegHDRFuzzer]: the fuzzed data provider the
    driver draws its parameters from, the two buffer-filling helpers and the
    body of [process], followed by the properties of the driver. *)

From Stdlib Require Import ZArith List Lia Bool.
From Stdlib Require Import Strings.Byte.
From Stdlib Require Import Floats.SpecFloat.
Import ListNotations.
Local Open Scope Z_scope.

(** ** Machine integers

    [int] is 32 bits wide, [size_t] and [uint64_t] are 64 bits wide.  A value
    is a [Z]; every conversion to a narrower or differently signed type is
    written out.  Signed overflow is modelled as wrap-around. *)
Module CInt.

Definition INT_MAX : Z := 2147483647.
Definition INT_MIN : Z := -2147483648.

(** Conversion to an unsigned type of [bits] bits. *)
Definition to_unsigned (bits z : Z) : Z := z mod 2 ^ bits.

(** Conversion to a signed type of [bits] bits. *)
Definition to_signed (bits z : Z) : Z :=
  (z + 2 ^ (bits - 1)) mod 2 ^ bits - 2 ^ (bits - 1).

Definition to_int (z : Z) : Z := to_signed 32 z.
Definition to_size_t (z : Z) : Z := to_unsigned 64 z.
Definition to_uint64 (z : Z) : Z := to_unsigned 64 z.
Definition to_uint16 (z : Z) : Z := to_unsigned 16 z.

(** [static_cast<T>] for an integral [T] of the given width and signedness. *)
Definition cast (signed : bool) (bits z : Z) : Z :=
  if signed then to_signed bits z else to_unsigned bits z.

Definition in_int (z : Z) : Prop := INT_MIN <= z <= INT_MAX.

End CInt.

(** ** FuzzedDataProvider

    The provider of <fuzzer/FuzzedDataProvider.h> the driver includes: a
    window [data_ptr_, data_ptr_ + remaining_bytes_) over the fuzz input.
    Integral draws pull bytes off the END of the window, [ConsumeData]
    copies from its FRONT.  A call with [min > max] aborts: [None]. *)
Module Fdp.

Definition t := list byte.

Definition byte_val (b : byte) : Z := Z.of_N (Byte.to_N b).

Definition remaining_bytes (d : t) : Z := Z.of_nat (length d).

(** [--remaining_bytes_; data_ptr_[remaining_bytes_]] *)
Definition pop_back (d : t) : option (Z * t) :=
  match rev d with
  | [] => None
  | b :: r => Some (byte_val b, rev r)
  end.

(** The [while] loop of [ConsumeIntegralInRange]; [offset] grows by
    [CHAR_BIT] each turn and is bounded by [sizeof(T) * CHAR_BIT <= 64], so
    [n = 8] turns always suffice. *)
Fixpoint consume_bytes (n : nat) (bits range result offset : Z) (d : t)
  : Z * t :=
  match n with
  | O => (result, d)
  | S n' =>
      if (offset <? bits) && (0 <? Z.shiftr range offset) then
        match pop_back d with
        | None => (result, d)
        | Some (b, d') =>
            consume_bytes n' bits range
              (CInt.to_uint64 (Z.lor (Z.shiftl result 8) b))
              (offset + 8) d'
        end
      else (result, d)
  end.

Definition ConsumeIntegralInRange (signed : bool) (bits min max : Z) (d : t)
  : option (Z * t) :=
  if max <? min then None
  else
    let range := CInt.to_uint64 (CInt.to_uint64 max - CInt.to_uint64 min) in
    let '(result, d') := consume_bytes 8 bits range 0 0 d in
    let result :=
      if range =? 2 ^ 64 - 1 then result else result mod (range + 1) in
    Some (CInt.cast signed bits (CInt.to_uint64 (CInt.to_uint64 min + result)),
          d').

(** [ConsumeIntegralInRange<int>] *)
Definition ConsumeIntInRange (min max : Z) : t -> option (Z * t) :=
  ConsumeIntegralInRange true 32 min max.

(** [ConsumeIntegral<uint8_t>] and [ConsumeIntegral<uint32_t>]: the whole
    range of the type. *)
Definition ConsumeUint8 : t -> option (Z * t) :=
  ConsumeIntegralInRange false 8 0 255.

Definition ConsumeUint32 : t -> option (Z * t) :=
  ConsumeIntegralInRange false 32 0 4294967295.

(** [return 1 & ConsumeIntegral<uint8_t>();] *)
Definition ConsumeBool (d : t) : option (bool * t) :=
  match ConsumeUint8 d with
  | None => None
  | Some (v, d') => Some (Z.odd v, d')
  end.

(** [ConsumeData(destination, num_bytes)]: copies
    [min(num_bytes, remaining_bytes_)] bytes from the front and returns
    them; the rest of the destination is left as it was. *)
Definition ConsumeData (num_bytes : Z) (d : t) : list Z * t :=
  let n := Z.to_nat (Z.min num_bytes (remaining_bytes d)) in
  (map byte_val (firstn n d), skipn n d).

End Fdp.

(** ** Memory written by the helpers

    A buffer is addressed by byte offsets from its base pointer.  A [memcpy]
    is recorded with its destination offset, its source bytes and its count
    (a [size_t]); running it overwrites [count] bytes. *)
Module Mem.

Record memcpy_call := {
  mc_dst : Z;          (* byte offset of the destination from the base *)
  mc_src : list Z;     (* bytes readable at the source pointer *)
  mc_n   : Z           (* number of bytes copied *)
}.

Definition memory := Z -> Z.

(** [make_unique<T[]>(n)] value-initialises the array. *)
Definition zeroed : memory := fun _ => 0.

Definition covers (c : memcpy_call) (a : Z) : bool :=
  (mc_dst c <=? a) && (a <? mc_dst c + mc_n c).

Definition memcpy (m : memory) (c : memcpy_call) : memory :=
  fun a =>
    if covers c a then nth (Z.to_nat (a - mc_dst c)) (mc_src c) 0 else m a.

Definition run (m : memory) (ops : list memcpy_call) : memory :=
  fold_left memcpy ops m.

(** The object representation of a [uint16_t] array (little-endian). *)
Fixpoint bytes_of_u16 (l : list Z) : list Z :=
  match l with
  | [] => []
  | v :: r => v mod 256 :: (v / 256) mod 256 :: bytes_of_u16 r
  end.

End Mem.

(** ** The buffer-filling helpers of [JpegHDRFuzzer] *)
Module Fill.
Import Mem.

Section Helpers.

(** [std::shuffle(buffer.begin(), buffer.end(), std::default_random_engine(kSeed))]:
    the engine is rebuilt from the same seed at every call, so the call is
    one fixed rearrangement of the buffer, left abstract. *)
Variable shuffle : forall A : Type, list A -> list A.

(** The [for] loop of [fill420Buffer], from index [i] on.  The copies made
    so far are returned together with the buffer at loop exit ([None] when
    the loop is still running after [fuel] turns). *)
Fixpoint fill420_loop (fuel : nat) (buffer : list Z) (size i : Z)
  {struct fuel} : list memcpy_call * option (list Z) :=
  match fuel with
  | O => ([], if i <? size then None else Some buffer)
  | S f =>
      if i <? size then
        let c := {| mc_dst := i;
                    mc_src := buffer;
                    mc_n := CInt.to_size_t (Z.min 16 (CInt.to_int (size - i))) |} in
        let '(ops, out) :=
          fill420_loop f (shuffle _ buffer) size (CInt.to_int (i + 16)) in
        (c :: ops, out)
      else ([], Some buffer)
  end.

(** [std::vector<uint8_t> buffer(16); mFdp.ConsumeData(buffer.data(), buffer.size());] *)
Definition fill420_seed (d : Fdp.t) : list Z * Fdp.t :=
  let '(bytes, d') := Fdp.ConsumeData 16 d in
  (bytes ++ repeat 0 (16 - length bytes)%nat, d').

Definition fill420Buffer (fuel : nat) (size : Z) (d : Fdp.t)
  : list memcpy_call * option (list Z) * Fdp.t :=
  let '(buffer, d') := fill420_seed d in
  (fill420_loop fuel buffer size 0, d').

(** [buffer[i] = mFdp.ConsumeIntegralInRange<int>(0, (1 << 10) - 1)] for the
    [n] elements of the buffer. *)
Fixpoint draw_samples (n : nat) (d : Fdp.t) : option (list Z * Fdp.t) :=
  match n with
  | O => Some ([], d)
  | S n' =>
      match Fdp.ConsumeIntInRange 0 (Z.shiftl 1 10 - 1) d with
      | None => None
      | Some (v, d1) =>
          match draw_samples n' d1 with
          | None => None
          | Some (l, d2) => Some (CInt.to_uint16 v :: l, d2)
          end
      end
  end.

(** The inner [for] loop of [fillP010Buffer] (one row), from column [i] on.
    [data] is a [uint16_t*], so [data + i] lies [2 * i] bytes after it; the
    count handed to [memcpy] is [min(16, width - i)] BYTES. *)
Fixpoint p010_row (fuel : nat) (buffer : list Z) (width i : Z)
  {struct fuel} : list memcpy_call * option (list Z) :=
  match fuel with
  | O => ([], if i <? width then None else Some buffer)
  | S f =>
      if i <? width then
        let c := {| mc_dst := 2 * i;
                    mc_src := bytes_of_u16 buffer;
                    mc_n := CInt.to_size_t (Z.min 16 (CInt.to_int (width - i))) |} in
        let '(ops, out) :=
          p010_row f (shuffle _ buffer) width (CInt.to_int (i + 16)) in
        (c :: ops, out)
      else ([], Some buffer)
  end.

(** The outer loop over the [rows] remaining rows.  [tmp] is the byte
    offset of the source's [tmp] pointer from [data]: it is advanced by
    [stride] elements per row, and the copies go to [data + i]. *)
Fixpoint p010_rows (rows fuel : nat) (buffer : list Z) (width stride tmp : Z)
  {struct rows} : list memcpy_call * option Z :=
  match rows with
  | O => ([], Some tmp)
  | S r =>
      match p010_row fuel buffer width 0 with
      | (ops, None) => (ops, None)
      | (ops, Some buffer') =>
          let '(ops', out) :=
            p010_rows r fuel buffer' width stride (tmp + 2 * stride) in
          (ops ++ ops', out)
      end
  end.

Definition fillP010Buffer (fuel : nat) (width height stride : Z) (d : Fdp.t)
  : option (list memcpy_call * option Z * Fdp.t) :=
  match draw_samples 16 d with
  | None => None
  | Some (buffer, d') =>
      Some (p010_rows (Z.to_nat height) fuel buffer width stride 0, d')
  end.

End Helpers.
End Fill.

(** ** Single-precision floats

    [float] is IEEE 754 binary32: the parametric specification of the
    Standard Library at precision 24 and maximal exponent 128.  Every
    operation is rounded on its own to binary32, to nearest with ties to
    even. *)
Module F32.

Definition prec : Z := 24.
Definition emax : Z := 128.

Definition t := spec_float.

Definition add : t -> t -> t := SFadd prec emax.
Definition sub : t -> t -> t := SFsub prec emax.
Definition mul : t -> t -> t := SFmul prec emax.
Definition div : t -> t -> t := SFdiv prec emax.

Definition ltb : t -> t -> bool := SFltb.
Definition leb : t -> t -> bool := SFleb.
Definition eqb : t -> t -> bool := SFeqb.

(** [static_cast<float>] of an integer. *)
Definition of_Z (z : Z) : t := binary_normalize prec emax z 0 false.

Definition zero : t := S754_zero false.
Definition one : t := of_Z 1.
Definition two : t := of_Z 2.
Definition FLT_MAX : t := SFmax_float prec emax.

End F32.

(** ** Outcomes and the driver's monad

    A run of driver code over the provider ends normally, in [abort()]
    (a provider call with [min > max]) or is still inside a loop when the
    fuel of the model runs out. *)
Module Run.

Inductive outcome (A : Type) : Type :=
| Ok (a : A)
| Aborted
| Diverged.
Arguments Ok {A} a.
Arguments Aborted {A}.
Arguments Diverged {A}.

Definition M (A : Type) : Type := Fdp.t -> outcome (A * Fdp.t).

Definition ret {A} (a : A) : M A := fun d => Ok (a, d).

Definition bind {A B} (c : M A) (k : A -> M B) : M B :=
  fun d =>
    match c d with
    | Ok (a, d') => k a d'
    | Aborted => Aborted
    | Diverged => Diverged
    end.

Definition lift {A} (c : Fdp.t -> option (A * Fdp.t)) : M A :=
  fun d => match c d with Some r => Ok r | None => Aborted end.

Definition diverge {A} : M A := fun _ => Diverged.

End Run.

Declare Scope run_scope.
Delimit Scope run_scope with run.
Notation "x <- c ;; k" := (Run.bind c (fun x => k))
  (at level 61, c at next level, right associativity) : run_scope.
Notation "' p <- c ;; k" := (Run.bind c (fun x => let 'p := x in k))
  (at level 61, p pattern, c at next level, right associativity) : run_scope.

(** [ConsumeProbability<float>] and [ConsumeFloatingPointInRange<float>] of
    the provider.  The branch of the latter that halves the range (taken
    when [max - min] would overflow) divides by the [double] 2.0 in the
    source; it is written here in binary32, where halving is the same
    unless the quotient is subnormal. *)
Module FdpFloat.
Import Run.
Local Open Scope run_scope.

(** [static_cast<float>(ConsumeIntegral<uint32_t>()) /
     static_cast<float>(std::numeric_limits<uint32_t>::max())] *)
Definition ConsumeProbability : M F32.t :=
  u <- lift Fdp.ConsumeUint32 ;;
  ret (F32.div (F32.of_Z u) (F32.of_Z 4294967295)).

Definition ConsumeFloatingPointInRange (min max : F32.t) : M F32.t :=
  if F32.ltb max min then (fun _ => Aborted)
  else
    if F32.ltb F32.zero max && F32.ltb min F32.zero
       && F32.ltb (F32.add min F32.FLT_MAX) max
    then
      let range := F32.sub (F32.div max F32.two) (F32.div min F32.two) in
      b <- lift Fdp.ConsumeBool ;;
      let result := if b then F32.add min range else min in
      p <- ConsumeProbability ;;
      ret (F32.add result (F32.mul range p))
    else
      let range := F32.sub max min in
      p <- ConsumeProbability ;;
      ret (F32.add min (F32.mul range p)).

End FdpFloat.

(** ** The codec's interface as the driver sees it *)
Module UltraHdr.

(** Modelled from the spec: the three enumerations of ultrahdr/ultrahdr.h,
    which is not among the sources.  The spec lists colour gamut
    {unspecified, BT.709, P3, BT.2100}, transfer function {unspecified,
    linear, HLG, PQ, sRGB} and output format {unspecified, HDR-linear,
    HDR-gamma, SDR}; the enumerators are numbered in that order from
    [UNSPECIFIED = -1], and [MAX] is the last one. *)
Definition ULTRAHDR_COLORGAMUT_UNSPECIFIED : Z := -1.
Definition ULTRAHDR_COLORGAMUT_BT709 : Z := 0.
Definition ULTRAHDR_COLORGAMUT_P3 : Z := 1.
Definition ULTRAHDR_COLORGAMUT_BT2100 : Z := 2.
Definition ULTRAHDR_COLORGAMUT_MAX : Z := ULTRAHDR_COLORGAMUT_BT2100.

Definition ULTRAHDR_TF_UNSPECIFIED : Z := -1.
Definition ULTRAHDR_TF_LINEAR : Z := 0.
Definition ULTRAHDR_TF_HLG : Z := 1.
Definition ULTRAHDR_TF_PQ : Z := 2.
Definition ULTRAHDR_TF_SRGB : Z := 3.
Definition ULTRAHDR_TF_MAX : Z := ULTRAHDR_TF_SRGB.

Definition ULTRAHDR_OUTPUT_UNSPECIFIED : Z := -1.
Definition ULTRAHDR_OUTPUT_HDR_LINEAR : Z := 0.
Definition ULTRAHDR_OUTPUT_HDR_GAMMA : Z := 1.
Definition ULTRAHDR_OUTPUT_SDR : Z := 2.
Definition ULTRAHDR_OUTPUT_MAX : Z := ULTRAHDR_OUTPUT_SDR.

(** The two values of [android::status_t] (utils/Errors.h) the driver
    names. *)
Definition OK : Z := 0.
Definition UNKNOWN_ERROR : Z := CInt.INT_MIN.

(** A pointer handed to the codec: null, or a buffer of [buf_size] elements
    with the bytes it holds at the time of the call. *)
Inductive pointer :=
| nullptr
| buffer (buf_size : Z) (contents : Mem.memory).

(** [jpegr_uncompressed_struct] (ultrahdr/jpegr.h), with the fields the
    driver sets. *)
Record jpegr_uncompressed_struct := {
  u_data : pointer;
  u_width : Z;
  u_height : Z;
  u_colorGamut : Z;
  u_chroma_data : pointer;
  u_luma_stride : Z;
  u_chroma_stride : Z
}.

(** [jpegr_compressed_struct] (ultrahdr/jpegr.h) *)
Record jpegr_compressed_struct := {
  c_data : pointer;
  c_length : Z;
  c_maxLength : Z;
  c_colorGamut : Z
}.

(** The fields of [ultrahdr_metadata_struct] the driver sets. *)
Record ultrahdr_metadata_struct := {
  version : list Byte.byte;
  maxContentBoost : F32.t;
  minContentBoost : F32.t
}.

(** Value-initialised structures ([struct ... x {};]). *)
Definition uncompressed_zero : jpegr_uncompressed_struct :=
  {| u_data := nullptr; u_width := 0; u_height := 0; u_colorGamut := 0;
     u_chroma_data := nullptr; u_luma_stride := 0; u_chroma_stride := 0 |}.

Definition compressed_zero : jpegr_compressed_struct :=
  {| c_data := nullptr; c_length := 0; c_maxLength := 0; c_colorGamut := 0 |}.

Definition set_length (c : jpegr_compressed_struct) (n : Z)
  : jpegr_compressed_struct :=
  {| c_data := c_data c; c_length := n; c_maxLength := c_maxLength c;
     c_colorGamut := c_colorGamut c |}.

(** The five overloads of [JpegR::encodeJPEGR], with the arguments of the
    call. *)
Inductive encode_call :=
| EncodeApi0 (p010 : jpegr_uncompressed_struct) (tf : Z)
             (dest : jpegr_compressed_struct) (quality : Z)
| EncodeApi1 (p010 yuv420 : jpegr_uncompressed_struct) (tf : Z)
             (dest : jpegr_compressed_struct) (quality : Z)
| EncodeApi2 (p010 yuv420 : jpegr_uncompressed_struct)
             (jpeg : jpegr_compressed_struct) (tf : Z)
             (dest : jpegr_compressed_struct)
| EncodeApi3 (p010 : jpegr_uncompressed_struct)
             (jpeg : jpegr_compressed_struct) (tf : Z)
             (dest : jpegr_compressed_struct)
| EncodeApi4 (jpeg gainmap : jpegr_compressed_struct)
             (metadata : ultrahdr_metadata_struct)
             (dest : jpegr_compressed_struct).

(** Every call the driver makes into the codec, in order. *)
Inductive api_call :=
| CallCompress (image : pointer) (width height quality : Z)
               (isSingleChannel : bool)
| CallEncode (c : encode_call)
| CallDecode (src : jpegr_compressed_struct) (dest : pointer)
             (max_display_boost : F32.t) (output_format : Z)
| CallGetInfo (src : jpegr_compressed_struct).

Definition encode_dest (c : encode_call) : jpegr_compressed_struct :=
  match c with
  | EncodeApi0 _ _ dest _ => dest
  | EncodeApi1 _ _ _ dest _ => dest
  | EncodeApi2 _ _ _ _ dest => dest
  | EncodeApi3 _ _ _ dest => dest
  | EncodeApi4 _ _ _ dest => dest
  end.

(** The number of the overload, as the driver's comments count them. *)
Definition encode_api (c : encode_call) : Z :=
  match c with
  | EncodeApi0 _ _ _ _ => 0
  | EncodeApi1 _ _ _ _ _ => 1
  | EncodeApi2 _ _ _ _ _ => 2
  | EncodeApi3 _ _ _ _ => 3
  | EncodeApi4 _ _ _ _ => 4
  end.

End UltraHdr.

(** ** The driver: [JpegHDRFuzzer::process] *)
Module Driver.
Import Run UltraHdr Mem.
Local Open Scope run_scope.

Definition kMinWidth : Z := 8.
Definition kMaxWidth : Z := 7680.
Definition kMinHeight : Z := 8.
Definition kMaxHeight : Z := 4320.
Definition kScaleFactor : Z := 4.
Definition kJpegBlock : Z := 16.
Definition kCgMin : Z := ULTRAHDR_COLORGAMUT_UNSPECIFIED + 1.
Definition kCgMax : Z := ULTRAHDR_COLORGAMUT_MAX.
Definition kTfMin : Z := ULTRAHDR_TF_UNSPECIFIED + 1.
Definition kTfMax : Z := ULTRAHDR_TF_MAX.
Definition kOfMin : Z := ULTRAHDR_OUTPUT_UNSPECIFIED + 1.
Definition kOfMax : Z := ULTRAHDR_OUTPUT_MAX.
Definition kQfMin : Z := 0.
Definition kQfMax : Z := 100.

(** What the driver takes from outside its own file: the rearrangement
    [std::shuffle] makes, the three luminance constants of
    ultrahdr/gainmapmath.h, [JpegEncoderHelper::compressImage] (the
    compressed bytes when it returns true) and [JpegR::encodeJPEGR] (its
    status and the destination structure after the call). *)
Record environment := {
  shuffle : forall A : Type, list A -> list A;
  kSdrWhiteNits : F32.t;
  kHlgMaxNits : F32.t;
  kPqMaxNits : F32.t;
  compressImage : pointer -> Z -> Z -> Z -> bool -> option (list Z);
  encodeJPEGR : encode_call -> Z * jpegr_compressed_struct
}.

(** [(x >> 1) << 1] on [int]. *)
Definition clear_low_bit (x : Z) : Z :=
  CInt.to_int (Z.shiftl (Z.shiftr x 1) 1).

(** The gain-map dimensions of the pure-mux branch:
    [map_width = width / kScaleFactor;
     map_width = static_cast<size_t>(floor((map_width + kJpegBlock - 1) / kJpegBlock)) * kJpegBlock;]
    The quotient is an [int] division, so [floor] receives an integer and
    returns it. *)
Definition map_width_of (width : Z) : Z :=
  let map_width := Z.quot width kScaleFactor in
  let blocks :=
    Z.quot (CInt.to_int (CInt.to_int (map_width + kJpegBlock) - 1)) kJpegBlock in
  CInt.to_int (CInt.to_size_t (CInt.to_size_t blocks * CInt.to_size_t kJpegBlock)).

(** [map_height = height / kScaleFactor;
     map_height = ((map_height + 1) >> 1) << 1;] *)
Definition map_height_of (height : Z) : Z :=
  let map_height := Z.quot height kScaleFactor in
  clear_low_bit (CInt.to_int (map_height + 1)).

(** [int * int] *)
Definition imul (a b : Z) : Z := CInt.to_int (a * b).

Definition shift_call (off : Z) (c : memcpy_call) : memcpy_call :=
  {| mc_dst := off + mc_dst c; mc_src := mc_src c; mc_n := mc_n c |}.

(** Enough turns for a loop that advances by 16 up to [limit]. *)
Definition turns (limit : Z) : nat := Z.to_nat (limit / 16 + 1).

Section WithEnvironment.

Variable env : environment.

Definition draw (min max : Z) : M Z := lift (Fdp.ConsumeIntInRange min max).

(** A call [fillP010Buffer(base + off, width, height, stride)], [off] in
    bytes: the copies it makes, relative to [base]. *)
Definition call_fillP010Buffer (off width height stride : Z)
  : M (list memcpy_call) :=
  fun d =>
    match Fill.fillP010Buffer (shuffle env) (turns width) width height stride d with
    | None => Aborted
    | Some (_, None, _) => Diverged
    | Some (ops, Some _, d') => Ok (map (shift_call off) ops, d')
    end.

Definition call_fill420Buffer (size : Z) : M (list memcpy_call) :=
  fun d =>
    match Fill.fill420Buffer (shuffle env) (turns size) size d with
    | (_, None, _) => Diverged
    | (ops, Some _, d') => Ok (ops, d')
    end.

(** The branch [muxSwitch != 4]: the P010 image. *)
Definition init_p010 (width height p010Cg : Z) : M jpegr_uncompressed_struct :=
  isUVContiguous <- lift Fdp.ConsumeBool ;;
  hasYStride <- lift Fdp.ConsumeBool ;;
  yStride <- (if hasYStride : bool then draw width (CInt.to_int (width + 128))
              else ret width) ;;
  let luma_stride := if hasYStride : bool then yStride else 0 in
  if isUVContiguous : bool then
    let p010Size :=
      CInt.to_size_t (Z.quot (imul (imul yStride height) 3) 2) in
    y <- call_fillP010Buffer 0 width height yStride ;;
    uv <- call_fillP010Buffer (2 * imul yStride height) width
            (Z.quot height 2) yStride ;;
    ret {| u_data := buffer p010Size (run zeroed (y ++ uv));
           u_width := width; u_height := height; u_colorGamut := p010Cg;
           u_chroma_data := nullptr;
           u_luma_stride := luma_stride; u_chroma_stride := 0 |}
  else
    uvStride <- draw width (CInt.to_int (width + 128)) ;;
    let p010YSize := CInt.to_size_t (imul yStride height) in
    y <- call_fillP010Buffer 0 width height yStride ;;
    let p010UVSize := CInt.to_size_t (Z.quot (imul uvStride height) 2) in
    uv <- call_fillP010Buffer 0 width (Z.quot height 2) uvStride ;;
    ret {| u_data := buffer p010YSize (run zeroed y);
           u_width := width; u_height := height; u_colorGamut := p010Cg;
           u_chroma_data := buffer p010UVSize (run zeroed uv);
           u_luma_stride := luma_stride; u_chroma_stride := uvStride |}.

(** The branch [muxSwitch == 4]: the 400 (gray) image. *)
Definition init_gray (width height : Z) : M jpegr_uncompressed_struct :=
  let map_width := map_width_of width in
  let map_height := map_height_of height in
  let graySize := CInt.to_size_t (imul map_width map_height) in
  ops <- call_fill420Buffer (CInt.to_int graySize) ;;
  ret {| u_data := buffer graySize (run zeroed ops);
         u_width := map_width; u_height := map_height;
         u_colorGamut := ULTRAHDR_COLORGAMUT_UNSPECIFIED;
         u_chroma_data := nullptr;
         u_luma_stride := 0; u_chroma_stride := 0 |}.

(** The branch [muxSwitch > 0]: the 420 image. *)
Definition init_420 (width height yuv420Cg : Z) : M jpegr_uncompressed_struct :=
  let yuv420Size := CInt.to_size_t (Z.quot (imul (imul width height) 3) 2) in
  ops <- call_fill420Buffer (CInt.to_int yuv420Size) ;;
  ret {| u_data := buffer yuv420Size (run zeroed ops);
         u_width := width; u_height := height; u_colorGamut := yuv420Cg;
         u_chroma_data := nullptr;
         u_luma_stride := 0; u_chroma_stride := 0 |}.

(** The metadata of api 4. *)
Definition make_metadata (tf : Z) : ultrahdr_metadata_struct :=
  {| version := [x31; x2e; x33; x2e; x31] (* "1.3.1" *);
     maxContentBoost :=
       if tf =? ULTRAHDR_TF_HLG then
         F32.div (kHlgMaxNits env) (kSdrWhiteNits env)
       else if tf =? ULTRAHDR_TF_PQ then
         F32.div (kPqMaxNits env) (kSdrWhiteNits env)
       else F32.of_Z 0;
     minContentBoost := F32.one |}.

(** A compressed image as the driver fills it in after a successful
    [compressImage]; [maxLength] is what the driver stores there. *)
Definition compressed_of (bytes : list Z) (length maxLength colorGamut : Z)
  : jpegr_compressed_struct :=
  {| c_data := buffer (Z.of_nat (List.length bytes))
                 (fun a => nth (Z.to_nat a) bytes 0);
     c_length := length; c_maxLength := maxLength;
     c_colorGamut := colorGamut |}.

(** One call of [encodeJPEGR]: status, destination afterwards, the call. *)
Definition do_encode (c : encode_call)
  : Z * jpegr_compressed_struct * list api_call :=
  let '(status, dest') := encodeJPEGR env c in
  (status, dest', [CallEncode c]).

(** The selection of the encode api, from [android::status_t status =
    android::UNKNOWN_ERROR;] to the end of the [if] cascade. *)
Definition encode_stage (muxSwitch quality tf yuv420Cg : Z)
    (p010Img yuv420Img grayImg : jpegr_uncompressed_struct)
    (jpegImgR : jpegr_compressed_struct)
  : Z * jpegr_compressed_struct * list api_call :=
  if muxSwitch =? 0 then
    do_encode (EncodeApi0 p010Img tf (set_length jpegImgR 0) quality)
  else if muxSwitch =? 1 then
    do_encode (EncodeApi1 p010Img yuv420Img tf (set_length jpegImgR 0) quality)
  else
    let compress1 :=
      CallCompress (u_data yuv420Img) (u_width yuv420Img) (u_height yuv420Img)
        quality false in
    match compressImage env (u_data yuv420Img) (u_width yuv420Img)
            (u_height yuv420Img) quality false with
    | None => (UNKNOWN_ERROR, jpegImgR, [compress1])
    | Some sdr =>
        let length := CInt.to_int (Z.of_nat (List.length sdr)) in
        let jpegImg := compressed_of sdr length length yuv420Cg in
        if muxSwitch =? 2 then
          let '(st, dest', calls) :=
            do_encode (EncodeApi2 p010Img yuv420Img jpegImg tf
                         (set_length jpegImgR 0)) in
          (st, dest', compress1 :: calls)
        else if muxSwitch =? 3 then
          let '(st, dest', calls) :=
            do_encode (EncodeApi3 p010Img jpegImg tf (set_length jpegImgR 0)) in
          (st, dest', compress1 :: calls)
        else if muxSwitch =? 4 then
          let jpegImgR := set_length jpegImgR 0 in
          let compress2 :=
            CallCompress (u_data grayImg) (u_width grayImg) (u_height grayImg)
              quality true in
          match compressImage env (u_data grayImg) (u_width grayImg)
                  (u_height grayImg) quality true with
          | None => (UNKNOWN_ERROR, jpegImgR, [compress1; compress2])
          | Some gm =>
              let jpegGainMap :=
                compressed_of gm (CInt.to_int (Z.of_nat (List.length gm)))
                  (c_length jpegImg) ULTRAHDR_COLORGAMUT_UNSPECIFIED in
              let '(st, dest', calls) :=
                do_encode (EncodeApi4 jpegImg jpegGainMap (make_metadata tf)
                             jpegImgR) in
              (st, dest', compress1 :: compress2 :: calls)
          end
        else (UNKNOWN_ERROR, jpegImgR, [compress1])
    end.

(** The [if (status == android::OK)] block. *)
Definition decode_stage (status width height of_ : Z)
    (jpegImgR : jpegr_compressed_struct) : M (list api_call) :=
  if status =? OK then
    let decodedRaw := buffer (CInt.to_size_t (imul (imul width height) 8)) zeroed in
    boost <- FdpFloat.ConsumeFloatingPointInRange F32.one F32.FLT_MAX ;;
    ret [CallDecode jpegImgR decodedRaw boost of_; CallGetInfo jpegImgR]
  else ret [].

(** The parameters drawn at the top of an iteration. *)
Record parameters := {
  muxSwitch : Z;
  quality : Z;
  tf : Z;
  p010Cg : Z;
  yuv420Cg : Z;
  of_ : Z;
  width : Z;
  height : Z
}.

Definition draw_parameters : M parameters :=
  muxSwitch <- draw 0 4 ;;
  quality <- draw kQfMin kQfMax ;;
  tf <- draw kTfMin kTfMax ;;
  p010Cg <- draw kCgMin kCgMax ;;
  yuv420Cg <- draw kCgMin kCgMax ;;
  of_ <- draw kOfMin kOfMax ;;
  width <- draw kMinWidth kMaxWidth ;;
  let width := clear_low_bit width in
  height <- draw kMinHeight kMaxHeight ;;
  let height := clear_low_bit height in
  ret {| muxSwitch := muxSwitch; quality := quality; tf := tf;
         p010Cg := p010Cg; yuv420Cg := yuv420Cg; of_ := of_;
         width := width; height := height |}.

(** What one iteration builds before it selects the encode api. *)
Record images := {
  p010Img : jpegr_uncompressed_struct;
  yuv420Img : jpegr_uncompressed_struct;
  grayImg : jpegr_uncompressed_struct;
  jpegImgR : jpegr_compressed_struct
}.

Definition build_images (p : parameters) : M images :=
  '(p010, gray) <-
    (if negb (muxSwitch p =? 4) then
       img <- init_p010 (width p) (height p) (p010Cg p) ;;
       ret (img, uncompressed_zero)
     else
       img <- init_gray (width p) (height p) ;;
       ret (uncompressed_zero, img)) ;;
  yuv420 <-
    (if 0 <? muxSwitch p then init_420 (width p) (height p) (yuv420Cg p)
     else ret uncompressed_zero) ;;
  let maxLength :=
    Z.max (imul 8 1024) (imul (imul (imul (width p) (height p)) 3) 2) in
  ret {| p010Img := p010; yuv420Img := yuv420; grayImg := gray;
         jpegImgR := {| c_data := buffer maxLength zeroed; c_length := 0;
                        c_maxLength := maxLength; c_colorGamut := 0 |} |}.

(** The body of the [while] loop: the calls into the codec it makes. *)
Definition process_iteration : M (parameters * list api_call) :=
  p <- draw_parameters ;;
  im <- build_images p ;;
  let '(status, dest, calls) :=
    encode_stage (muxSwitch p) (quality p) (tf p) (yuv420Cg p)
      (p010Img im) (yuv420Img im) (grayImg im) (jpegImgR im) in
  calls' <- decode_stage status (width p) (height p) (of_ p) dest ;;
  ret (p, calls ++ calls').

(** [while (mFdp.remaining_bytes()) { ... }] *)
Fixpoint process_loop (fuel : nat) (d : Fdp.t)
  : outcome (list (parameters * list api_call)) :=
  if Fdp.remaining_bytes d =? 0 then Ok []
  else
    match fuel with
    | O => Diverged
    | S f =>
        match process_iteration d with
        | Ok (it, d') =>
            match process_loop f d' with
            | Ok its => Ok (it :: its)
            | Aborted => Aborted
            | Diverged => Diverged
            end
        | Aborted => Aborted
        | Diverged => Diverged
        end
    end.

(** Every iteration that starts with data left consumes at least one byte,
    so as many turns as there are bytes suffice. *)
Definition process (d : Fdp.t) : outcome (list (parameters * list api_call)) :=
  process_loop (length d) d.

(** [extern "C" int LLVMFuzzerTestOneInput(const uint8_t* data, size_t size)]:
    builds the fuzzer over the input, runs [process] and returns 0. *)
Definition LLVMFuzzerTestOneInput (data : Fdp.t) : outcome Z :=
  match process data with
  | Ok _ => Ok 0
  | Aborted => Aborted
  | Diverged => Diverged
  end.

End WithEnvironment.
End Driver.

(** * The vocabulary of the properties

    Predicates, projections and example environments the statements below
    are written with. *)

(** The downscaled width and height, before rounding. *)
Definition downscaled (x : Z) : Z := Z.quot x Driver.kScaleFactor.

(** The parameters an iteration draws are within their ranges, and both
    dimensions are even. *)
Record parameters_ok (p : Driver.parameters) : Prop := {
  mux_ok : 0 <= Driver.muxSwitch p <= 4;
  quality_ok : Driver.kQfMin <= Driver.quality p <= Driver.kQfMax;
  tf_ok : Driver.kTfMin <= Driver.tf p <= Driver.kTfMax;
  width_even : Z.even (Driver.width p) = true;
  width_ok : Driver.kMinWidth <= Driver.width p <= Driver.kMaxWidth;
  height_even : Z.even (Driver.height p) = true;
  height_ok : Driver.kMinHeight <= Driver.height p <= Driver.kMaxHeight
}.

(** The largest limit a loop that advances an [int] by 16 can run up to
    without the index leaving the range of [int]. *)
Definition loop_limit : Z := CInt.INT_MAX - 15.

(** A copy of [fill420Buffer(data, size)] as the source means it: it starts
    at a multiple of 16 inside the buffer and takes [min(16, size - i)]
    bytes. *)
Definition copy420_ok (size : Z) (c : Mem.memcpy_call) : Prop :=
  0 <= Mem.mc_dst c < size
  /\ Mem.mc_dst c mod 16 = 0
  /\ Mem.mc_n c = Z.min 16 (size - Mem.mc_dst c).

(** A copy of [fillP010Buffer(data, width, height, stride)] as the source
    makes it: to [data + col] for a column [col] that is a multiple of 16,
    [min(16, width - col)] bytes long. *)
Definition copyP010_made (width : Z) (c : Mem.memcpy_call) : Prop :=
  exists col,
    0 <= col < width /\ col mod 16 = 0
    /\ Mem.mc_dst c = 2 * col
    /\ Mem.mc_n c = Z.min 16 (width - col).

(** The copies of a call [fill420Buffer(data, size)] stay inside the
    buffer: each starts at an offset [i >= 0], takes [min(16, size - i)]
    bytes and ends at or before [size]. *)
Definition fill420_in_bounds (size : Z) (ops : list Mem.memcpy_call) : Prop :=
  Forall (fun c =>
            0 <= Mem.mc_dst c
            /\ Mem.mc_n c = Z.min 16 (size - Mem.mc_dst c)
            /\ Mem.mc_dst c + Mem.mc_n c <= size) ops.

(** The dimensions of a raw image are even and within the supported
    bounds. *)
Definition dimensions_supported (img : UltraHdr.jpegr_uncompressed_struct)
  : Prop :=
  Z.even (UltraHdr.u_width img) = true
  /\ Driver.kMinWidth <= UltraHdr.u_width img <= Driver.kMaxWidth
  /\ Z.even (UltraHdr.u_height img) = true
  /\ Driver.kMinHeight <= UltraHdr.u_height img <= Driver.kMaxHeight.

(** The [encodeJPEGR] calls among the calls of an iteration. *)
Fixpoint encode_calls (calls : list UltraHdr.api_call)
  : list UltraHdr.encode_call :=
  match calls with
  | [] => []
  | UltraHdr.CallEncode c :: r => c :: encode_calls r
  | _ :: r => encode_calls r
  end.

(** The compressed images an [encodeJPEGR] call receives as inputs. *)
Definition compressed_inputs (c : UltraHdr.encode_call)
  : list UltraHdr.jpegr_compressed_struct :=
  match c with
  | UltraHdr.EncodeApi0 _ _ _ _ => []
  | UltraHdr.EncodeApi1 _ _ _ _ _ => []
  | UltraHdr.EncodeApi2 _ _ jpeg _ _ => [jpeg]
  | UltraHdr.EncodeApi3 _ jpeg _ _ => [jpeg]
  | UltraHdr.EncodeApi4 jpeg gainmap _ _ => [jpeg; gainmap]
  end.

(** The metadata an [encodeJPEGR] call receives. *)
Definition metadata_input (c : UltraHdr.encode_call)
  : option UltraHdr.ultrahdr_metadata_struct :=
  match c with
  | UltraHdr.EncodeApi4 _ _ metadata _ => Some metadata
  | _ => None
  end.

(** What holds of the one [encodeJPEGR] call the stage can make. *)
Record encode_call_ok (env : Driver.environment) (muxSwitch tf : Z)
    (jpegImgR : UltraHdr.jpegr_compressed_struct)
    (c : UltraHdr.encode_call) : Prop := {
  api_selected : UltraHdr.encode_api c = muxSwitch;
  dest_reset : UltraHdr.encode_dest c = UltraHdr.set_length jpegImgR 0;
  metadata_made :
    forall md, metadata_input c = Some md -> md = Driver.make_metadata env tf;
  sdr_exact :
    forall j, hd_error (compressed_inputs c) = Some j ->
              UltraHdr.c_maxLength j = UltraHdr.c_length j;
  gainmap_capacity :
    forall j g, compressed_inputs c = [j; g] ->
                UltraHdr.c_maxLength g = UltraHdr.c_length j
}.

(** The value [ConsumeFloatingPointInRange<float>(1.0, FLT_MAX)] computes
    from the 32-bit integer [u] it draws. *)
Definition boost_of (u : Z) : F32.t :=
  F32.add F32.one
    (F32.mul (F32.sub F32.FLT_MAX F32.one)
       (F32.div (F32.of_Z u) (F32.of_Z 4294967295))).

(** What holds of the calls the decode stage makes. *)
Definition decode_call_ok (c : UltraHdr.api_call) : Prop :=
  match c with
  | UltraHdr.CallDecode _ _ boost _ =>
      exists u, 0 <= u < 4294967296 /\ boost = boost_of u
  | UltraHdr.CallGetInfo _ => True
  | _ => False
  end.

(** What holds of every iteration of the driver. *)
Record iteration_ok (env : Driver.environment)
    (it : Driver.parameters * list UltraHdr.api_call) : Prop := {
  it_parameters : parameters_ok (fst it);
  it_at_most_one : (length (encode_calls (snd it)) <= 1)%nat;
  it_encode :
    exists jpegImgR,
      UltraHdr.c_length jpegImgR = 0
      /\ Forall (encode_call_ok env (Driver.muxSwitch (fst it))
                   (Driver.tf (fst it)) jpegImgR)
           (encode_calls (snd it));
  it_raw_apis :
    Driver.muxSwitch (fst it) = 0 \/ Driver.muxSwitch (fst it) = 1 ->
    length (encode_calls (snd it)) = 1%nat;
  it_decode :
    forall src dest boost of_,
      In (UltraHdr.CallDecode src dest boost of_) (snd it) ->
      exists u, 0 <= u < 4294967296 /\ boost = boost_of u;
  it_compressed :
    (forall image width height quality isSingleChannel,
        Driver.compressImage env image width height quality isSingleChannel
        <> None) ->
    length (encode_calls (snd it)) = 1%nat
}.

(** An environment with the luminance constants 100, 1000 and 10000 nits,
    a [std::shuffle] that leaves the buffer as it is, a [compressImage]
    that always succeeds and returns [sdr_size] bytes for a three-channel
    image and [gainmap_size] bytes for a single-channel one, and an
    [encodeJPEGR] that reports success with an output of [out_size]
    bytes. *)
Definition example_env (sdr_size gainmap_size : nat) (out_size : Z)
  : Driver.environment :=
  {| Driver.shuffle := fun _ l => l;
     Driver.kSdrWhiteNits := F32.of_Z 100;
     Driver.kHlgMaxNits := F32.of_Z 1000;
     Driver.kPqMaxNits := F32.of_Z 10000;
     Driver.compressImage :=
       fun _ _ _ _ isSingleChannel =>
         Some (repeat 0 (if isSingleChannel then gainmap_size else sdr_size));
     Driver.encodeJPEGR :=
       fun c => (UltraHdr.OK, UltraHdr.set_length (UltraHdr.encode_dest c) out_size) |}.

(** The peak luminance of a transfer function, for those that have one. *)
Definition peak_nits (env : Driver.environment) (tf : Z) : option F32.t :=
  if tf =? UltraHdr.ULTRAHDR_TF_HLG then Some (Driver.kHlgMaxNits env)
  else if tf =? UltraHdr.ULTRAHDR_TF_PQ then Some (Driver.kPqMaxNits env)
  else None.

(** The number of binary digits of a positive integer. *)
Definition digits (m : Z) : Z := Z.log2 m + 1.

(** The float made of a rounded mantissa [q] in [[2^23, 2^24]] at exponent
    [e]. *)
Definition pack (sx : bool) (q e : Z) : spec_float :=
  let '(m, e') := if q <? 16777216 then (q, e) else (8388608, e + 1) in
  if e' <=? 104 then S754_finite sx (Z.to_pos m) e' else S754_infinity sx.

(** ** The vocabulary of the further properties *)

(** A call of [JpegEncoderHelper::compressImage]. *)
Definition is_compress (c : UltraHdr.api_call) : Prop :=
  match c with
  | UltraHdr.CallCompress _ _ _ _ _ => True
  | _ => False
  end.

(** The order of the calls of one iteration: compressions first; then at
    most one [encodeJPEGR]; and, exactly when that call returned
    [android::OK], one [decodeJPEGR] on the structure it left, with the
    drawn output format, followed by [getJPEGRInfo] on the same
    structure. *)
Definition iteration_protocol (env : Driver.environment)
    (p : Driver.parameters) (calls : list UltraHdr.api_call) : Prop :=
  exists pre,
    Forall is_compress pre
    /\ (calls = pre
        \/ (exists c status dest,
              Driver.encodeJPEGR env c = (status, dest)
              /\ status <> UltraHdr.OK
              /\ calls = pre ++ [UltraHdr.CallEncode c])
        \/ (exists c dest raw boost,
              Driver.encodeJPEGR env c = (UltraHdr.OK, dest)
              /\ calls = pre ++ [UltraHdr.CallEncode c;
                                 UltraHdr.CallDecode dest raw boost
                                   (Driver.of_ p);
                                 UltraHdr.CallGetInfo dest])).

(** The buffer of [fill420Buffer] after [k] rounds of [std::shuffle]. *)
Definition shuffled (shuffle : forall A : Type, list A -> list A)
    (k : nat) (buffer : list Z) : list Z :=
  Nat.iter k (shuffle Z) buffer.

(** The byte [fill420Buffer] leaves at offset [a] of a buffer it fills
    from the 16-byte [seed]: the 16-byte block [a / 16] holds the seed
    after [a / 16] shuffles. *)
Definition pattern420 (shuffle : forall A : Type, list A -> list A)
    (seed : list Z) (a : Z) : Z :=
  nth (Z.to_nat (a mod 16)) (shuffled shuffle (Z.to_nat (a / 16)) seed) 0.

(** The bytes a call [fillP010Buffer(data, width, height, stride)]
    overwrites, as offsets from [data]: when there is at least one row, for
    every column [col] that is a multiple of 16 below [width], the
    [min(16, width - col)] bytes from [2 * col] on. *)
Definition p010_written (width height a : Z) : Prop :=
  1 <= height
  /\ exists col,
       0 <= col < width /\ col mod 16 = 0
       /\ 2 * col <= a < 2 * col + Z.min 16 (width - col).

(** A 10-bit sample. *)
Definition ten_bit (v : Z) : Prop := 0 <= v < 1024.

(** The source of a copy is the object representation of samples that
    satisfy [P]. *)
Definition source_of_samples (P : Z -> Prop) (c : Mem.memcpy_call) : Prop :=
  exists l, Forall P l /\ Mem.mc_src c = Mem.bytes_of_u16 l.

(** The raw images and scalar arguments an [encodeJPEGR] call receives. *)
Definition p010_input (c : UltraHdr.encode_call)
  : option UltraHdr.jpegr_uncompressed_struct :=
  match c with
  | UltraHdr.EncodeApi0 p010 _ _ _ => Some p010
  | UltraHdr.EncodeApi1 p010 _ _ _ _ => Some p010
  | UltraHdr.EncodeApi2 p010 _ _ _ _ => Some p010
  | UltraHdr.EncodeApi3 p010 _ _ _ => Some p010
  | UltraHdr.EncodeApi4 _ _ _ _ => None
  end.

Definition yuv420_input (c : UltraHdr.encode_call)
  : option UltraHdr.jpegr_uncompressed_struct :=
  match c with
  | UltraHdr.EncodeApi1 _ yuv420 _ _ _ => Some yuv420
  | UltraHdr.EncodeApi2 _ yuv420 _ _ _ => Some yuv420
  | _ => None
  end.

Definition tf_input (c : UltraHdr.encode_call) : option Z :=
  match c with
  | UltraHdr.EncodeApi0 _ tf _ _ => Some tf
  | UltraHdr.EncodeApi1 _ _ tf _ _ => Some tf
  | UltraHdr.EncodeApi2 _ _ _ tf _ => Some tf
  | UltraHdr.EncodeApi3 _ _ tf _ => Some tf
  | UltraHdr.EncodeApi4 _ _ _ _ => None
  end.

Definition quality_input (c : UltraHdr.encode_call) : option Z :=
  match c with
  | UltraHdr.EncodeApi0 _ _ _ quality => Some quality
  | UltraHdr.EncodeApi1 _ _ _ _ quality => Some quality
  | _ => None
  end.

(** The stride the codec uses for a plane: a stored stride of 0 stands for
    the width. *)
Definition effective_stride (stride width : Z) : Z :=
  if stride =? 0 then width else stride.

(** The P010 descriptor of a [width] x [height] image is consistent with
    the buffers behind it: the luma stride is 0 or in
    [[width, width + 128]]; either the chroma pointer is null, the chroma
    stride 0 and one buffer holds [stride * height * 3 / 2] elements, or
    the luma buffer holds [stride * height] elements and a separate chroma
    buffer holds [chroma_stride * height / 2] elements, with the chroma
    stride in [[width, width + 128]]. *)
Record p010_layout (width height : Z)
    (img : UltraHdr.jpegr_uncompressed_struct) : Prop := {
  p010_width : UltraHdr.u_width img = width;
  p010_height : UltraHdr.u_height img = height;
  p010_luma_stride :
    UltraHdr.u_luma_stride img = 0
    \/ width <= UltraHdr.u_luma_stride img <= width + 128;
  p010_planes :
    let stride := effective_stride (UltraHdr.u_luma_stride img) width in
    (exists m,
        UltraHdr.u_data img = UltraHdr.buffer (stride * height * 3 / 2) m
        /\ UltraHdr.u_chroma_data img = UltraHdr.nullptr
        /\ UltraHdr.u_chroma_stride img = 0)
    \/ (exists m m',
          UltraHdr.u_data img = UltraHdr.buffer (stride * height) m
          /\ width <= UltraHdr.u_chroma_stride img <= width + 128
          /\ UltraHdr.u_chroma_data img
             = UltraHdr.buffer (UltraHdr.u_chroma_stride img * height / 2) m')
}.

(** The bytes of a P010 image are zero except in the first [2 * width]
    bytes of the luma plane and of the chroma plane (which starts
    [2 * stride * height] bytes into the buffer when there is one
    buffer). *)
Definition p010_mostly_zero (width height : Z)
    (img : UltraHdr.jpegr_uncompressed_struct) : Prop :=
  let stride := effective_stride (UltraHdr.u_luma_stride img) width in
  match UltraHdr.u_data img, UltraHdr.u_chroma_data img with
  | UltraHdr.buffer _ m, UltraHdr.nullptr =>
      forall a,
        ~ 0 <= a < 2 * width ->
        ~ 2 * stride * height <= a < 2 * stride * height + 2 * width ->
        m a = 0
  | UltraHdr.buffer _ m, UltraHdr.buffer _ m' =>
      forall a, ~ 0 <= a < 2 * width -> m a = 0 /\ m' a = 0
  | UltraHdr.nullptr, _ => False
  end.

(** An 8-bit image of [size] bytes filled by [fill420Buffer]: no chroma
    pointer, no strides, and a buffer of [size] bytes that holds the
    shuffled 16-byte pattern of some seed of bytes. *)
Record filled_image (shuffle : forall A : Type, list A -> list A)
    (width height size colorGamut : Z)
    (img : UltraHdr.jpegr_uncompressed_struct) : Prop := {
  filled_width : UltraHdr.u_width img = width;
  filled_height : UltraHdr.u_height img = height;
  filled_gamut : UltraHdr.u_colorGamut img = colorGamut;
  filled_chroma : UltraHdr.u_chroma_data img = UltraHdr.nullptr;
  filled_strides :
    UltraHdr.u_luma_stride img = 0 /\ UltraHdr.u_chroma_stride img = 0;
  filled_data :
    exists seed m,
      UltraHdr.u_data img = UltraHdr.buffer size m
      /\ length seed = 16%nat
      /\ Forall (fun b => 0 <= b < 256) seed
      /\ forall a, 0 <= a < size -> m a = pattern420 shuffle seed a
}.

(** The enumerators and the quality an iteration draws are within the
    ranges the driver draws them from. *)
Record enumerators_ok (p : Driver.parameters) : Prop := {
  p010Cg_ok : Driver.kCgMin <= Driver.p010Cg p <= Driver.kCgMax;
  yuv420Cg_ok : Driver.kCgMin <= Driver.yuv420Cg p <= Driver.kCgMax;
  of_ok : Driver.kOfMin <= Driver.of_ p <= Driver.kOfMax
}.

(** The destination structure of an iteration: a zeroed buffer of
    [max(8192, 6 * width * height)] bytes, recorded as [maxLength], and
    [length] 0. *)
Definition destination_of (width height : Z)
  : UltraHdr.jpegr_compressed_struct :=
  {| UltraHdr.c_data :=
       UltraHdr.buffer (Z.max 8192 (6 * width * height)) Mem.zeroed;
     UltraHdr.c_length := 0;
     UltraHdr.c_maxLength := Z.max 8192 (6 * width * height);
     UltraHdr.c_colorGamut := 0 |}.

(** The images an iteration builds for its parameters. *)
Record images_ok (env : Driver.environment) (p : Driver.parameters)
    (im : Driver.images) : Prop := {
  im_p010 :
    Driver.muxSwitch p <> 4 ->
    p010_layout (Driver.width p) (Driver.height p) (Driver.p010Img im)
    /\ p010_mostly_zero (Driver.width p) (Driver.height p) (Driver.p010Img im)
    /\ UltraHdr.u_colorGamut (Driver.p010Img im) = Driver.p010Cg p;
  im_gray :
    Driver.muxSwitch p = 4 ->
    filled_image (Driver.shuffle env)
      (Driver.map_width_of (Driver.width p))
      (Driver.map_height_of (Driver.height p))
      (Driver.map_width_of (Driver.width p)
       * Driver.map_height_of (Driver.height p))
      UltraHdr.ULTRAHDR_COLORGAMUT_UNSPECIFIED (Driver.grayImg im);
  im_yuv420 :
    0 < Driver.muxSwitch p ->
    filled_image (Driver.shuffle env) (Driver.width p) (Driver.height p)
      (Driver.width p * Driver.height p * 3 / 2) (Driver.yuv420Cg p)
      (Driver.yuv420Img im);
  im_dest :
    Driver.jpegImgR im = destination_of (Driver.width p) (Driver.height p)
}.

(** The arguments of an [encodeJPEGR] call are the images and parameters
    of its iteration. *)
Record encode_args_ok (p : Driver.parameters) (im : Driver.images)
    (c : UltraHdr.encode_call) : Prop := {
  arg_api : UltraHdr.encode_api c = Driver.muxSwitch p;
  arg_p010 : forall img, p010_input c = Some img -> img = Driver.p010Img im;
  arg_yuv420 :
    forall img, yuv420_input c = Some img -> img = Driver.yuv420Img im;
  arg_tf : forall t, tf_input c = Some t -> t = Driver.tf p;
  arg_quality : forall q, quality_input c = Some q -> q = Driver.quality p;
  arg_dest : UltraHdr.encode_dest c = UltraHdr.set_length (Driver.jpegImgR im) 0;
  arg_jpeg_gamut :
    forall j, hd_error (compressed_inputs c) = Some j ->
              UltraHdr.c_colorGamut j = Driver.yuv420Cg p;
  arg_gainmap_gamut :
    forall j g, compressed_inputs c = [j; g] ->
                UltraHdr.c_colorGamut g
                = UltraHdr.ULTRAHDR_COLORGAMUT_UNSPECIFIED
}.

(** The arguments of a [compressImage] call: the 4:2:0 image (three
    channels) when [muxSwitch >= 2], the gray image (single channel) only
    when [muxSwitch = 4]. *)
Definition compress_args_ok (p : Driver.parameters) (im : Driver.images)
    (call : UltraHdr.api_call) : Prop :=
  match call with
  | UltraHdr.CallCompress image width height quality isSingleChannel =>
      quality = Driver.quality p
      /\ Driver.muxSwitch p <> 0 /\ Driver.muxSwitch p <> 1
      /\ (if isSingleChannel : bool then
            Driver.muxSwitch p = 4
            /\ image = UltraHdr.u_data (Driver.grayImg im)
            /\ width = UltraHdr.u_width (Driver.grayImg im)
            /\ height = UltraHdr.u_height (Driver.grayImg im)
          else
            image = UltraHdr.u_data (Driver.yuv420Img im)
            /\ width = UltraHdr.u_width (Driver.yuv420Img im)
            /\ height = UltraHdr.u_height (Driver.yuv420Img im))
  | _ => True
  end.

(** What an iteration passes to the codec, in terms of its parameters and
    of the images it built. *)
Record iteration_detail (env : Driver.environment)
    (it : Driver.parameters * list UltraHdr.api_call) : Prop := {
  det_parameters : parameters_ok (fst it);
  det_enumerators : enumerators_ok (fst it);
  det_calls :
    exists im,
      images_ok env (fst it) im
      /\ Forall (compress_args_ok (fst it) im) (snd it)
      /\ Forall (encode_args_ok (fst it) im) (encode_calls (snd it));
  det_decode :
    forall src dest boost of_,
      In (UltraHdr.CallDecode src dest boost of_) (snd it) ->
      of_ = Driver.of_ (fst it)
      /\ dest = UltraHdr.buffer
                  (8 * Driver.width (fst it) * Driver.height (fst it))
                  Mem.zeroed
      /\ exists u, 0 <= u < 4294967296 /\ boost = boost_of u
}.

(** The number of [compressImage] calls among [calls]. *)
Fixpoint compress_count (calls : list UltraHdr.api_call) : nat :=
  match calls with
  | [] => 0
  | UltraHdr.CallCompress _ _ _ _ _ :: r => S (compress_count r)
  | _ :: r => compress_count r
  end.

(** ** Compressions and their outcome *)

(** For a call of [compressImage]: the encoder helper returned true. *)
Definition compress_succeeds (env : Driver.environment)
    (c : UltraHdr.api_call) : Prop :=
  match c with
  | UltraHdr.CallCompress image width height quality isSingleChannel =>
      Driver.compressImage env image width height quality isSingleChannel
      <> None
  | _ => True
  end.

(** The selection of the encode api in one iteration: [muxSwitch] lies in
    [[0, 4]]; at most one [encodeJPEGR] call is made; a call that is made
    is the overload numbered [muxSwitch]; the call is always made for 0
    and 1; for 2, 3 and 4 the iteration starts with a three-channel
    [compressImage] call; and, whatever [muxSwitch] is, the [encodeJPEGR]
    call is made exactly when every [compressImage] call of this iteration
    returned true. *)
Definition api_selection (env : Driver.environment)
    (it : Driver.parameters * list UltraHdr.api_call) : Prop :=
  0 <= Driver.muxSwitch (fst it) <= 4
  /\ (length (encode_calls (snd it)) <= 1)%nat
  /\ Forall (fun c => UltraHdr.encode_api c = Driver.muxSwitch (fst it))
       (encode_calls (snd it))
  /\ (Driver.muxSwitch (fst it) = 0 \/ Driver.muxSwitch (fst it) = 1 ->
      length (encode_calls (snd it)) = 1%nat)
  /\ (2 <= Driver.muxSwitch (fst it) ->
      exists image width height quality,
        hd_error (snd it)
        = Some (UltraHdr.CallCompress image width height quality false))
  /\ (Forall (compress_succeeds env) (snd it)
      <-> length (encode_calls (snd it)) = 1%nat).

(** The destination an [encodeJPEGR] call receives when the stage started
    from the structure [jpegImgR]: [length] is 0 and the other fields are
    those of [jpegImgR]. *)
Definition destination_reset (jpegImgR : UltraHdr.jpegr_compressed_struct)
    (c : UltraHdr.encode_call) : Prop :=
  UltraHdr.c_length (UltraHdr.encode_dest c) = 0
  /\ UltraHdr.c_data (UltraHdr.encode_dest c) = UltraHdr.c_data jpegImgR
  /\ UltraHdr.c_maxLength (UltraHdr.encode_dest c)
     = UltraHdr.c_maxLength jpegImgR
  /\ UltraHdr.c_colorGamut (UltraHdr.encode_dest c)
     = UltraHdr.c_colorGamut jpegImgR.

(** How often [compressImage] is called in one iteration, by [muxSwitch]
    and by the outcome of the first compression. *)
Definition compressions_made (env : Driver.environment)
    (it : Driver.parameters * list UltraHdr.api_call) : Prop :=
  let mux := Driver.muxSwitch (fst it) in
  (mux <= 1 -> compress_count (snd it) = 0%nat)
  /\ (2 <= mux ->
      exists image width height quality,
        hd_error (snd it)
        = Some (UltraHdr.CallCompress image width height quality false)
        /\ (mux = 2 \/ mux = 3 -> compress_count (snd it) = 1%nat)
        /\ (mux = 4 ->
            Driver.compressImage env image width height quality false = None ->
            compress_count (snd it) = 1%nat /\ encode_calls (snd it) = [])
        /\ (mux = 4 ->
            Driver.compressImage env image width height quality false
            <> None ->
            compress_count (snd it) = 2%nat)).

(** ** An input with a noisy gain map and a flat SDR image *)

(** The 16 bytes [fill420Buffer] takes for the gain-map image. *)
Definition noise_bytes : Fdp.t :=
  [x00; xff; x10; xef; x20; xdf; x30; xcf;
   x40; xbf; x50; xaf; x60; x9f; x70; x8f].

(** A fuzz input of 26 bytes.  The provider takes integers from the end:
    [04] is [muxSwitch = 4], [64] quality 100, [01] the HLG transfer
    function, three [00] the colour gamuts and the output format,
    [08 00] (read as 0x0008 = 8, plus [kMinWidth]) width 16 and [f8 0f]
    (read as 0x0ff8 = 4088, plus [kMinHeight]) height 4096.  The 16 bytes
    in front are what is left for [fill420Buffer]. *)
Definition noise_input : Fdp.t :=
  noise_bytes ++ [xf8; x0f; x08; x00; x00; x00; x00; x01; x64; x04].

(** The parameters the driver draws from [noise_input]. *)
Definition noise_parameters : Driver.parameters :=
  {| Driver.muxSwitch := 4; Driver.quality := 100;
     Driver.tf := UltraHdr.ULTRAHDR_TF_HLG;
     Driver.p010Cg := UltraHdr.ULTRAHDR_COLORGAMUT_BT709;
     Driver.yuv420Cg := UltraHdr.ULTRAHDR_COLORGAMUT_BT709;
     Driver.of_ := UltraHdr.ULTRAHDR_OUTPUT_HDR_LINEAR;
     Driver.width := 16; Driver.height := 4096 |}.

(** The buffer of [size] bytes the driver allocates (zeroed) and fills
    with [fill420Buffer] when the provider is in state [d]. *)
Definition filled_buffer (env : Driver.environment) (size : Z) (d : Fdp.t)
  : UltraHdr.pointer :=
  UltraHdr.buffer size
    (Mem.run Mem.zeroed
       (fst (fst (Fill.fill420Buffer (Driver.shuffle env) (Driver.turns size)
                    size d)))).

(** The bytes of a buffer. *)
Definition contents (p : UltraHdr.pointer) : Mem.memory :=
  match p with
  | UltraHdr.buffer _ m => m
  | UltraHdr.nullptr => Mem.zeroed
  end.

(** The seed [fill420Buffer] makes of [noise_bytes]. *)
Definition noise_seed : list Z :=
  [0; 255; 16; 239; 32; 223; 48; 207; 64; 191; 80; 175; 96; 159; 112; 143].

(** What the driver does on [noise_input] when [compressImage] returns the
    stream [sdr] for the 4:2:0 image and the stream [gm] for the gain-map
    image.  The gain-map image of 16x1024 holds the shuffled pattern of
    [noise_seed]; the 4:2:0 image of 16x4096 holds the pattern of a seed of
    zeros (all zeros when [std::shuffle] only rearranges).  [process] goes
    through one iteration, which compresses both and calls api 4 with the
    SDR stream at [length = maxLength = |sdr|] and the gain-map stream at
    [length = |gm|] but [maxLength = |sdr|]. *)
Definition gain_map_over_capacity (env : Driver.environment)
    (sdr gm : list Z) : Prop :=
  (forall a, 0 <= a < 16384 ->
     contents (filled_buffer env 16384 noise_bytes) a
     = pattern420 (Driver.shuffle env) noise_seed a)
  /\ (forall a, 0 <= a < 98304 ->
        contents (filled_buffer env 98304 []) a
        = pattern420 (Driver.shuffle env) (repeat 0 16) a)
  /\ ((forall l, Forall (fun b => b = 0) l ->
                 Forall (fun b => b = 0) (Driver.shuffle env Z l)) ->
      forall a, 0 <= a < 98304 -> contents (filled_buffer env 98304 []) a = 0)
  /\ exists j g dest rest,
       Driver.process env noise_input
       = Run.Ok
           [(noise_parameters,
             UltraHdr.CallCompress (filled_buffer env 98304 []) 16 4096 100
               false
             :: UltraHdr.CallCompress (filled_buffer env 16384 noise_bytes)
                  16 1024 100 true
             :: UltraHdr.CallEncode
                  (UltraHdr.EncodeApi4 j g
                     (Driver.make_metadata env UltraHdr.ULTRAHDR_TF_HLG) dest)
             :: rest)]
       /\ UltraHdr.c_length j = Z.of_nat (length sdr)
       /\ UltraHdr.c_maxLength j = Z.of_nat (length sdr)
       /\ UltraHdr.c_length g = Z.of_nat (length gm)
       /\ UltraHdr.c_maxLength g = Z.of_nat (length sdr)
       /\ UltraHdr.c_maxLength g < UltraHdr.c_length g.

(** * Properties *)

(** ** Integer conversions *)

Lemma to_signed_congr (b a k : Z) :
  a = b + 4294967296 * k -> CInt.in_int b -> CInt.to_signed 32 a = b.
Proof.
  unfold CInt.in_int, CInt.INT_MIN, CInt.INT_MAX, CInt.to_signed.
  intros -> Hb.
  change (2 ^ (32 - 1)) with 2147483648.
  change (2 ^ 32) with 4294967296.
  replace (b + 4294967296 * k + 2147483648)
    with (b + 2147483648 + k * 4294967296) by ring.
  rewrite Z_mod_plus_full, Z.mod_small; lia.
Qed.

Lemma to_int_small (z : Z) : CInt.in_int z -> CInt.to_int z = z.
Proof. intros H. apply (to_signed_congr z z 0); [ring | exact H]. Qed.

Lemma to_size_t_small (z : Z) :
  0 <= z < 18446744073709551616 -> CInt.to_size_t z = z.
Proof.
  intros H. unfold CInt.to_size_t, CInt.to_unsigned.
  change (2 ^ 64) with 18446744073709551616. apply Z.mod_small; exact H.
Qed.

Lemma to_uint64_congr (z : Z) :
  exists k, CInt.to_uint64 z = z + 4294967296 * k.
Proof.
  unfold CInt.to_uint64, CInt.to_unsigned.
  change (2 ^ 64) with 18446744073709551616.
  exists (- 4294967296 * (z / 18446744073709551616)).
  pose proof (Z.div_mod z 18446744073709551616). lia.
Qed.

Lemma in_int_intro (z : Z) : -2147483648 <= z <= 2147483647 -> CInt.in_int z.
Proof. unfold CInt.in_int, CInt.INT_MIN, CInt.INT_MAX. trivial. Qed.

(** ** The provider *)

Lemma pop_back_length (d d' : Fdp.t) (b : Z) :
  Fdp.pop_back d = Some (b, d') -> length d = S (length d').
Proof.
  unfold Fdp.pop_back. intros H.
  destruct (rev d) as [|x r] eqn:E; [discriminate|].
  injection H as _ <-.
  rewrite <- (length_rev d), E, length_rev. reflexivity.
Qed.

Lemma pop_back_some (d : Fdp.t) :
  d <> [] -> exists b d', Fdp.pop_back d = Some (b, d').
Proof.
  intros H. unfold Fdp.pop_back.
  destruct (rev d) as [|x r] eqn:E.
  - exfalso. apply H. rewrite <- (rev_involutive d), E. reflexivity.
  - eauto.
Qed.

Lemma consume_bytes_length (n : nat) :
  forall bits range result offset d r d',
    Fdp.consume_bytes n bits range result offset d = (r, d') ->
    (length d' <= length d)%nat.
Proof.
  induction n as [|n IH]; simpl; intros bits range result offset d r d' H.
  - injection H as _ <-. lia.
  - destruct ((offset <? bits) && (0 <? Z.shiftr range offset)).
    + destruct (Fdp.pop_back d) as [[b d1]|] eqn:E.
      * apply IH in H. apply pop_back_length in E. lia.
      * injection H as _ <-. lia.
    + injection H as _ <-. lia.
Qed.

(** A draw from a range with more than one value takes at least one byte
    when there is one. *)
Lemma consume_bytes_progress (n : nat) (bits range : Z) (d : Fdp.t) r d' :
  0 < bits -> 0 < range -> d <> [] ->
  Fdp.consume_bytes (S n) bits range 0 0 d = (r, d') ->
  (length d' < length d)%nat.
Proof.
  intros Hb Hr Hd. cbn [Fdp.consume_bytes].
  assert (E1 : (0 <? bits) = true) by (apply Z.ltb_lt; lia).
  assert (E2 : (0 <? range) = true) by (apply Z.ltb_lt; lia).
  rewrite Z.shiftr_0_r, E1, E2. cbn [andb].
  destruct (pop_back_some d Hd) as (b & d1 & E). rewrite E.
  intros H. apply consume_bytes_length in H. apply pop_back_length in E. lia.
Qed.

Section IntDraw.

Variables min max : Z.
Hypothesis Hmin : CInt.in_int min.
Hypothesis Hmax : CInt.in_int max.
Hypothesis Hle : min <= max.

Lemma draw_range_eq :
  CInt.to_uint64 (CInt.to_uint64 max - CInt.to_uint64 min) = max - min.
Proof.
  unfold CInt.in_int, CInt.INT_MIN, CInt.INT_MAX in *.
  unfold CInt.to_uint64, CInt.to_unsigned.
  change (2 ^ 64) with 18446744073709551616.
  rewrite <- Zminus_mod. apply Z.mod_small. lia.
Qed.

(** [ConsumeIntegralInRange<int>(min, max)] returns, and what it returns
    lies in [[min, max]]. *)
Lemma ConsumeIntInRange_spec (d : Fdp.t) :
  exists v d',
    Fdp.ConsumeIntInRange min max d = Some (v, d')
    /\ min <= v <= max
    /\ (length d' <= length d)%nat
    /\ (min < max -> d <> [] -> (length d' < length d)%nat).
Proof.
  unfold Fdp.ConsumeIntInRange, Fdp.ConsumeIntegralInRange.
  assert (E : (max <? min) = false) by (apply Z.ltb_ge; lia).
  rewrite E, draw_range_eq.
  destruct (Fdp.consume_bytes 8 32 (max - min) 0 0 d) as [r d'] eqn:Hc.
  assert (Hr : (max - min =? 2 ^ 64 - 1) = false).
  { apply Z.eqb_neq. unfold CInt.in_int, CInt.INT_MIN, CInt.INT_MAX in *.
    change (2 ^ 64 - 1) with 18446744073709551615. lia. }
  rewrite Hr.
  pose proof (Z.mod_pos_bound r (max - min + 1) ltac:(lia)) as Hb.
  set (res := r mod (max - min + 1)) in *.
  exists (CInt.cast true 32 (CInt.to_uint64 (CInt.to_uint64 min + res))), d'.
  split; [reflexivity|].
  assert (Hv : CInt.cast true 32 (CInt.to_uint64 (CInt.to_uint64 min + res))
               = min + res).
  { simpl.
    destruct (to_uint64_congr (CInt.to_uint64 min + res)) as [k1 ->].
    destruct (to_uint64_congr min) as [k2 ->].
    apply (to_signed_congr (min + res) _ (k1 + k2)); [ring|].
    unfold CInt.in_int, CInt.INT_MIN, CInt.INT_MAX in *. lia. }
  rewrite Hv. split; [lia|]. split.
  - eapply consume_bytes_length; exact Hc.
  - intros Hlt Hd. eapply consume_bytes_progress; try exact Hc; try lia.
    exact Hd.
Qed.

End IntDraw.

Lemma ConsumeUint8_spec (d : Fdp.t) :
  exists v d', Fdp.ConsumeUint8 d = Some (v, d') /\ (length d' <= length d)%nat.
Proof.
  unfold Fdp.ConsumeUint8, Fdp.ConsumeIntegralInRange.
  change (255 <? 0) with false. cbv iota.
  destruct (Fdp.consume_bytes 8 8 _ 0 0 d) as [r d'] eqn:Hc.
  eexists _, d'. split; [reflexivity|].
  eapply consume_bytes_length; exact Hc.
Qed.

Lemma ConsumeBool_spec (d : Fdp.t) :
  exists b d', Fdp.ConsumeBool d = Some (b, d') /\ (length d' <= length d)%nat.
Proof.
  unfold Fdp.ConsumeBool.
  destruct (ConsumeUint8_spec d) as (v & d' & -> & H). eauto.
Qed.

Lemma ConsumeUint32_spec (d : Fdp.t) :
  exists v d',
    Fdp.ConsumeUint32 d = Some (v, d') /\ 0 <= v < 4294967296
    /\ (length d' <= length d)%nat.
Proof.
  unfold Fdp.ConsumeUint32, Fdp.ConsumeIntegralInRange.
  change (4294967295 <? 0) with false. cbv iota.
  change (CInt.to_uint64 (CInt.to_uint64 4294967295 - CInt.to_uint64 0))
    with 4294967295.
  destruct (Fdp.consume_bytes 8 32 4294967295 0 0 d) as [r d'] eqn:Hc.
  change (4294967295 =? 2 ^ 64 - 1) with false. cbv iota.
  eexists _, d'. split; [reflexivity|]. split.
  - change (CInt.to_uint64 0) with 0. simpl.
    unfold CInt.to_unsigned, CInt.to_uint64, CInt.to_unsigned.
    change (2 ^ 32) with 4294967296. apply Z.mod_pos_bound. lia.
  - eapply consume_bytes_length; exact Hc.
Qed.

(** ** Dimensions *)

Lemma clear_low_bit_spec (x : Z) :
  0 <= x <= 2147483647 ->
  Driver.clear_low_bit x = 2 * (x / 2).
Proof.
  intros H. unfold Driver.clear_low_bit.
  rewrite Z.shiftr_div_pow2, Z.shiftl_mul_pow2 by lia.
  change (2 ^ 1) with 2.
  pose proof (Z.div_mod x 2 ltac:(lia)).
  pose proof (Z.mod_pos_bound x 2 ltac:(lia)).
  rewrite to_int_small by (apply in_int_intro; lia). ring.
Qed.

Lemma clear_low_bit_even (x : Z) :
  0 <= x <= 2147483647 -> Z.even (Driver.clear_low_bit x) = true.
Proof.
  intros H. rewrite clear_low_bit_spec by exact H.
  rewrite Z.even_mul. reflexivity.
Qed.

Lemma clear_low_bit_bounds (lo hi x : Z) :
  0 <= lo -> Z.even lo = true -> hi <= 2147483647 -> lo <= x <= hi ->
  lo <= Driver.clear_low_bit x <= hi.
Proof.
  intros Hlo He Hhi Hx. rewrite clear_low_bit_spec by lia.
  pose proof (Z.div_mod x 2 ltac:(lia)).
  pose proof (Z.mod_pos_bound x 2 ltac:(lia)).
  pose proof (Z.div_mod lo 2 ltac:(lia)) as Hl.
  rewrite Zmod_even, He in Hl.
  lia.
Qed.

Lemma map_width_of_eq (width : Z) :
  0 <= width <= 7680 ->
  Driver.map_width_of width = 16 * ((downscaled width + 15) / 16).
Proof.
  intros H. unfold Driver.map_width_of, downscaled, Driver.kScaleFactor,
    Driver.kJpegBlock.
  rewrite !(Z.quot_div_nonneg width 4) by lia.
  pose proof (Z.div_mod width 4 ltac:(lia)).
  pose proof (Z.mod_pos_bound width 4 ltac:(lia)).
  set (w := width / 4) in *.
  assert (0 <= w <= 1920) by lia.
  rewrite (to_int_small (w + 16)) by (apply in_int_intro; lia).
  rewrite (to_int_small (w + 16 - 1)) by (apply in_int_intro; lia).
  replace (w + 16 - 1) with (w + 15) by ring.
  rewrite (Z.quot_div_nonneg (w + 15) 16) by lia.
  pose proof (Z.div_mod (w + 15) 16 ltac:(lia)).
  pose proof (Z.mod_pos_bound (w + 15) 16 ltac:(lia)).
  set (b := (w + 15) / 16) in *.
  assert (0 <= b <= 121) by lia.
  rewrite (to_size_t_small b) by lia.
  rewrite (to_size_t_small 16) by lia.
  rewrite to_size_t_small by lia.
  rewrite to_int_small by (apply in_int_intro; lia). ring.
Qed.

Lemma map_height_of_eq (height : Z) :
  0 <= height <= 4320 ->
  Driver.map_height_of height = 2 * ((downscaled height + 1) / 2).
Proof.
  intros H. unfold Driver.map_height_of, downscaled, Driver.kScaleFactor.
  rewrite !(Z.quot_div_nonneg height 4) by lia.
  pose proof (Z.div_mod height 4 ltac:(lia)).
  pose proof (Z.mod_pos_bound height 4 ltac:(lia)).
  set (h := height / 4) in *.
  rewrite to_int_small by (apply in_int_intro; lia).
  apply clear_low_bit_spec. lia.
Qed.

(** C2: for every even width and height within the supported bounds, the
    gain-map width is the downscaled width ([width / kScaleFactor]) rounded
    up to a multiple of [kJpegBlock] = 16 (a multiple of 16, not below the
    downscaled width and less than 16 above it), and the gain-map height is
    an even number at distance at most one from the downscaled height. *)
Theorem C2_gain_map_dimensions (width height : Z) :
  Z.even width = true -> Driver.kMinWidth <= width <= Driver.kMaxWidth ->
  Z.even height = true -> Driver.kMinHeight <= height <= Driver.kMaxHeight ->
  let map_width := Driver.map_width_of width in
  let map_height := Driver.map_height_of height in
  map_width mod Driver.kJpegBlock = 0
  /\ downscaled width <= map_width < downscaled width + Driver.kJpegBlock
  /\ Z.even map_height = true
  /\ Z.abs (map_height - downscaled height) <= 1
  /\ downscaled height <= map_height.
Proof.
  unfold Driver.kMinWidth, Driver.kMaxWidth, Driver.kMinHeight,
    Driver.kMaxHeight, Driver.kJpegBlock.
  intros _ Hw _ Hh. cbv zeta.
  rewrite map_width_of_eq, map_height_of_eq by lia.
  assert (Hdw : 0 <= downscaled width).
  { unfold downscaled, Driver.kScaleFactor. apply Z.quot_pos; lia. }
  assert (Hdh : 0 <= downscaled height).
  { unfold downscaled, Driver.kScaleFactor. apply Z.quot_pos; lia. }
  pose proof (Z.div_mod (downscaled width + 15) 16 ltac:(lia)).
  pose proof (Z.mod_pos_bound (downscaled width + 15) 16 ltac:(lia)).
  pose proof (Z.div_mod (downscaled height + 1) 2 ltac:(lia)).
  pose proof (Z.mod_pos_bound (downscaled height + 1) 2 ltac:(lia)).
  repeat split; try lia.
  - rewrite Z.mul_comm. apply Z_mod_mult.
  - rewrite Z.even_mul. reflexivity.
Qed.

Lemma C2_gain_map_dimensions_witness :
  Driver.map_width_of 1000 = 256 /\ Driver.map_height_of 600 = 150
  /\ Driver.map_width_of 1000 mod Driver.kJpegBlock = 0
  /\ Z.even (Driver.map_height_of 600) = true.
Proof.
  split; [reflexivity|]. split; [reflexivity|].
  pose proof (C2_gain_map_dimensions 1000 600 eq_refl
                ltac:(unfold Driver.kMinWidth, Driver.kMaxWidth; lia) eq_refl
                ltac:(unfold Driver.kMinHeight, Driver.kMaxHeight; lia)) as H.
  cbv zeta in H. destruct H as (H1 & _ & H3 & _). split; assumption.
Defined.

(** ** Reasoning in the driver's monad *)

Lemma bind_Ok {A B} (c : Run.M A) (k : A -> Run.M B) d a d' :
  c d = Run.Ok (a, d') -> Run.bind c k d = k a d'.
Proof. unfold Run.bind. intros ->. reflexivity. Qed.

Lemma draw_spec (min max : Z) (d : Fdp.t) :
  CInt.in_int min -> CInt.in_int max -> min <= max ->
  exists v d',
    Driver.draw min max d = Run.Ok (v, d')
    /\ min <= v <= max
    /\ (length d' <= length d)%nat
    /\ (min < max -> d <> [] -> (length d' < length d)%nat).
Proof.
  intros H1 H2 H3.
  destruct (ConsumeIntInRange_spec min max H1 H2 H3 d) as (v & d' & E & H).
  exists v, d'. unfold Driver.draw, Run.lift. rewrite E. auto.
Qed.

Lemma lift_ConsumeBool_spec (d : Fdp.t) :
  exists b d',
    Run.lift Fdp.ConsumeBool d = Run.Ok (b, d')
    /\ (length d' <= length d)%nat.
Proof.
  destruct (ConsumeBool_spec d) as (b & d' & E & H).
  exists b, d'. unfold Run.lift. rewrite E. auto.
Qed.

Ltac const_int := apply in_int_intro; vm_compute; split; discriminate.

Lemma draw_parameters_spec (d : Fdp.t) :
  exists p d',
    Driver.draw_parameters d = Run.Ok (p, d')
    /\ parameters_ok p
    /\ (length d' <= length d)%nat
    /\ (d <> [] -> (length d' < length d)%nat).
Proof.
  unfold Driver.draw_parameters.
  destruct (draw_spec 0 4 d ltac:(const_int) ltac:(const_int) ltac:(lia))
    as (mux & d1 & E1 & R1 & L1 & P1).
  destruct (draw_spec Driver.kQfMin Driver.kQfMax d1 ltac:(const_int) ltac:(const_int)
              ltac:(vm_compute; discriminate)) as (q & d2 & E2 & R2 & L2 & _).
  destruct (draw_spec Driver.kTfMin Driver.kTfMax d2 ltac:(const_int) ltac:(const_int)
              ltac:(vm_compute; discriminate)) as (t & d3 & E3 & R3 & L3 & _).
  destruct (draw_spec Driver.kCgMin Driver.kCgMax d3 ltac:(const_int) ltac:(const_int)
              ltac:(vm_compute; discriminate)) as (c1 & d4 & E4 & R4 & L4 & _).
  destruct (draw_spec Driver.kCgMin Driver.kCgMax d4 ltac:(const_int) ltac:(const_int)
              ltac:(vm_compute; discriminate)) as (c2 & d5 & E5 & R5 & L5 & _).
  destruct (draw_spec Driver.kOfMin Driver.kOfMax d5 ltac:(const_int) ltac:(const_int)
              ltac:(vm_compute; discriminate)) as (o & d6 & E6 & R6 & L6 & _).
  destruct (draw_spec Driver.kMinWidth Driver.kMaxWidth d6 ltac:(const_int) ltac:(const_int)
              ltac:(vm_compute; discriminate)) as (w & d7 & E7 & R7 & L7 & _).
  destruct (draw_spec Driver.kMinHeight Driver.kMaxHeight d7 ltac:(const_int) ltac:(const_int)
              ltac:(vm_compute; discriminate)) as (h & d8 & E8 & R8 & L8 & _).
  rewrite (bind_Ok _ _ _ _ _ E1), (bind_Ok _ _ _ _ _ E2),
    (bind_Ok _ _ _ _ _ E3), (bind_Ok _ _ _ _ _ E4), (bind_Ok _ _ _ _ _ E5),
    (bind_Ok _ _ _ _ _ E6), (bind_Ok _ _ _ _ _ E7), (bind_Ok _ _ _ _ _ E8).
  eexists _, d8. split; [reflexivity|].
  unfold Driver.kMinWidth, Driver.kMaxWidth, Driver.kMinHeight,
    Driver.kMaxHeight in *.
  split; [| split; [lia | intros Hd; specialize (P1 ltac:(lia) Hd); lia]].
  constructor; cbn [Driver.muxSwitch Driver.quality Driver.tf Driver.width
                      Driver.height]; try assumption;
    unfold Driver.kMinWidth, Driver.kMaxWidth, Driver.kMinHeight,
      Driver.kMaxHeight.
  - apply clear_low_bit_even. lia.
  - apply clear_low_bit_bounds; [lia | reflexivity | lia | assumption].
  - apply clear_low_bit_even. lia.
  - apply clear_low_bit_bounds; [lia | reflexivity | lia | assumption].
Qed.

(** ** The copies of the filling helpers *)

Lemma run_frame (ops : list Mem.memcpy_call) (a : Z) :
  Forall (fun c => Mem.covers c a = false) ops ->
  forall m, Mem.run m ops a = m a.
Proof.
  unfold Mem.run. induction 1 as [|c ops Hc _ IH]; intros m; simpl.
  - reflexivity.
  - rewrite IH. unfold Mem.memcpy. rewrite Hc. reflexivity.
Qed.

Lemma covers_outside (c : Mem.memcpy_call) (lo hi a : Z) :
  lo <= Mem.mc_dst c -> Mem.mc_dst c + Mem.mc_n c <= hi ->
  a < lo \/ hi <= a -> Mem.covers c a = false.
Proof.
  intros H1 H2 Ha. unfold Mem.covers.
  apply andb_false_iff.
  destruct Ha; [left; apply Z.leb_gt | right; apply Z.ltb_ge]; lia.
Qed.

Section FillFacts.

Variable shuffle : forall A : Type, list A -> list A.

Lemma fill420_loop_spec (fuel : nat) :
  forall buffer size i,
    0 <= i -> i mod 16 = 0 -> size <= loop_limit ->
    size - i <= 16 * Z.of_nat fuel ->
    exists ops buffer',
      Fill.fill420_loop shuffle fuel buffer size i = (ops, Some buffer')
      /\ Forall (copy420_ok size) ops
      /\ Forall (fun c => i <= Mem.mc_dst c) ops.
Proof.
  unfold loop_limit, CInt.INT_MAX.
  induction fuel as [|f IH]; intros buffer size i Hi Hm Hs Hf;
    cbn [Fill.fill420_loop].
  - assert (E : (i <? size) = false) by (apply Z.ltb_ge; lia).
    rewrite E. eauto.
  - destruct (i <? size) eqn:E; [|eauto].
    apply Z.ltb_lt in E.
    rewrite (to_int_small (i + 16)) by (apply in_int_intro; lia).
    rewrite (to_int_small (size - i)) by (apply in_int_intro; lia).
    rewrite to_size_t_small by lia.
    destruct (IH (shuffle Z buffer) size (i + 16)) as (ops & b' & -> & Ho & Hl);
      [lia | | lia | lia |].
    { rewrite <- Zplus_mod_idemp_l, Hm. reflexivity. }
    eexists _, b'. split; [reflexivity|]. split.
    + constructor; [|exact Ho]. unfold copy420_ok. cbn. lia.
    + constructor; [cbn; lia|].
      eapply Forall_impl; [|exact Hl]. cbn. intros c Hc. lia.
Qed.

Lemma fill420_seed_length (d : Fdp.t) :
  (length (snd (Fill.fill420_seed d)) <= length d)%nat.
Proof.
  unfold Fill.fill420_seed, Fdp.ConsumeData. cbn.
  rewrite length_skipn. lia.
Qed.

Lemma fill420Buffer_spec (fuel : nat) (size : Z) (d : Fdp.t) :
  size <= loop_limit -> size <= 16 * Z.of_nat fuel ->
  exists ops buffer' d',
    Fill.fill420Buffer shuffle fuel size d = (ops, Some buffer', d')
    /\ Forall (copy420_ok size) ops
    /\ (length d' <= length d)%nat.
Proof.
  intros Hs Hf. unfold Fill.fill420Buffer.
  pose proof (fill420_seed_length d) as Hl.
  destruct (Fill.fill420_seed d) as [buffer d'].
  destruct (fill420_loop_spec fuel buffer size 0) as (ops & b' & E & Ho & _);
    [lia | reflexivity | exact Hs | lia |].
  rewrite E. eauto 6.
Qed.

Lemma draw_samples_spec (n : nat) :
  forall d, exists l d',
    Fill.draw_samples n d = Some (l, d') /\ (length d' <= length d)%nat.
Proof.
  induction n as [|n IH]; intros d; cbn [Fill.draw_samples].
  - eauto.
  - destruct (ConsumeIntInRange_spec 0 (Z.shiftl 1 10 - 1)
                ltac:(const_int) ltac:(const_int)
                ltac:(vm_compute; discriminate) d)
      as (v & d1 & -> & _ & L1 & _).
    destruct (IH d1) as (l & d2 & -> & L2).
    eexists _, d2. split; [reflexivity | lia].
Qed.

Lemma p010_row_spec (fuel : nat) :
  forall buffer width i,
    0 <= i -> i mod 16 = 0 -> width <= loop_limit ->
    width - i <= 16 * Z.of_nat fuel ->
    exists ops buffer',
      Fill.p010_row shuffle fuel buffer width i = (ops, Some buffer')
      /\ Forall (copyP010_made width) ops.
Proof.
  unfold loop_limit, CInt.INT_MAX.
  induction fuel as [|f IH]; intros buffer width i Hi Hm Hs Hf;
    cbn [Fill.p010_row].
  - assert (E : (i <? width) = false) by (apply Z.ltb_ge; lia).
    rewrite E. eauto.
  - destruct (i <? width) eqn:E; [|eauto].
    apply Z.ltb_lt in E.
    rewrite (to_int_small (i + 16)) by (apply in_int_intro; lia).
    rewrite (to_int_small (width - i)) by (apply in_int_intro; lia).
    rewrite to_size_t_small by lia.
    destruct (IH (shuffle Z buffer) width (i + 16)) as (ops & b' & -> & Ho);
      [lia | | lia | lia |].
    { rewrite <- Zplus_mod_idemp_l, Hm. reflexivity. }
    eexists _, b'. split; [reflexivity|].
    constructor; [|exact Ho]. exists i. cbn. lia.
Qed.

Lemma p010_rows_spec (rows fuel : nat) :
  forall buffer width stride tmp,
    width <= loop_limit -> width <= 16 * Z.of_nat fuel ->
    exists ops tmp',
      Fill.p010_rows shuffle rows fuel buffer width stride tmp = (ops, Some tmp')
      /\ Forall (copyP010_made width) ops.
Proof.
  induction rows as [|r IH]; intros buffer width stride tmp Hs Hf;
    cbn [Fill.p010_rows].
  - eauto.
  - destruct (p010_row_spec fuel buffer width 0) as (ops & b' & -> & Ho);
      [lia | reflexivity | exact Hs | lia |].
    destruct (IH b' width stride (tmp + 2 * stride) Hs Hf)
      as (ops' & tmp' & -> & Ho').
    eexists _, tmp'. split; [reflexivity|].
    apply Forall_app. split; assumption.
Qed.

Lemma fillP010Buffer_spec (fuel : nat) (width height stride : Z) (d : Fdp.t) :
  width <= loop_limit -> width <= 16 * Z.of_nat fuel ->
  exists ops tmp' d',
    Fill.fillP010Buffer shuffle fuel width height stride d
    = Some (ops, Some tmp', d')
    /\ Forall (copyP010_made width) ops
    /\ (length d' <= length d)%nat.
Proof.
  intros Hs Hf. unfold Fill.fillP010Buffer.
  destruct (draw_samples_spec 16 d) as (buffer & d' & -> & L).
  destruct (p010_rows_spec (Z.to_nat height) fuel buffer width stride 0 Hs Hf)
    as (ops & tmp' & -> & Ho).
  eauto 7.
Qed.

End FillFacts.

Lemma turns_enough (limit : Z) : limit <= 16 * Z.of_nat (Driver.turns limit).
Proof.
  unfold Driver.turns.
  destruct (Z_lt_le_dec limit 0) as [Hn|Hp].
  - lia.
  - pose proof (Z.div_mod limit 16 ltac:(lia)).
    pose proof (Z.mod_pos_bound limit 16 ltac:(lia)).
    assert (0 <= limit / 16) by (apply Z.div_pos; lia).
    rewrite Z2Nat.id by lia. lia.
Qed.

(** ** [fill420Buffer] stays inside its buffer (C10) *)

(** C10, as amended: for every call of [fill420Buffer] with
    [1 <= size <= INT_MAX - 15] the loop ends, each copy starts at an offset
    [i >= 0], writes exactly [min(16, size - i)] bytes and ends at or before
    [size]; no byte outside [[0, size)] is written. *)
Theorem C10_fill420Buffer_in_bounds
    (shuffle : forall A : Type, list A -> list A)
    (fuel : nat) (size : Z) (d : Fdp.t) :
  1 <= size -> size <= CInt.INT_MAX - 15 -> size <= 16 * Z.of_nat fuel ->
  exists ops buffer' d',
    Fill.fill420Buffer shuffle fuel size d = (ops, Some buffer', d')
    /\ fill420_in_bounds size ops
    /\ forall m a, a < 0 \/ size <= a -> Mem.run m ops a = m a.
Proof.
  intros H1 Hs Hf.
  destruct (fill420Buffer_spec shuffle fuel size d Hs Hf)
    as (ops & b' & d' & E & Ho & _).
  exists ops, b', d'. split; [exact E|].
  assert (Hb : fill420_in_bounds size ops).
  { unfold fill420_in_bounds. eapply Forall_impl; [|exact Ho].
    unfold copy420_ok. intros c (Hd & _ & Hn). lia. }
  split; [exact Hb|].
  intros m a Ha. apply run_frame.
  eapply Forall_impl; [|exact Hb]. cbn. intros c (Hd & _ & He).
  apply (covers_outside c 0 size); assumption.
Qed.

Lemma C10_fill420Buffer_in_bounds_witness :
  exists ops buffer' d',
    Fill.fill420Buffer (fun _ l => rev l) 2 20 [x01; x02; x03]
    = (ops, Some buffer', d')
    /\ fill420_in_bounds 20 ops
    /\ forall m a, a < 0 \/ 20 <= a -> Mem.run m ops a = m a.
Proof.
  apply (C10_fill420Buffer_in_bounds (fun _ l => rev l) 2 20 [x01; x02; x03]).
  - lia.
  - unfold CInt.INT_MAX. lia.
  - simpl. lia.
Defined.

(** While the index stays an [int], [n] turns of the loop make [n] copies
    and leave the loop at index [i + 16 * n]. *)
Lemma fill420_loop_prefix
    (shuffle : forall A : Type, list A -> list A) (size : Z) (n : nat) :
  forall buffer i,
    0 <= i -> i + 16 * Z.of_nat n <= CInt.INT_MAX ->
    i + 16 * Z.of_nat n <= size + 15 ->
    exists ops0 buffer', forall f,
      Fill.fill420_loop shuffle (n + f) buffer size i
      = (ops0 ++ fst (Fill.fill420_loop shuffle f buffer' size
                        (i + 16 * Z.of_nat n)),
         snd (Fill.fill420_loop shuffle f buffer' size (i + 16 * Z.of_nat n))).
Proof.
  unfold CInt.INT_MAX.
  induction n as [|n IH]; intros buffer i Hi Hmax Hsize.
  - exists [], buffer. intros f. cbn [Nat.add app].
    replace (i + 16 * Z.of_nat 0) with i by lia.
    destruct (Fill.fill420_loop shuffle f buffer size i). reflexivity.
  - destruct (IH (shuffle Z buffer) (i + 16)) as (ops0 & b' & E);
      [lia | lia | lia |].
    eexists (_ :: ops0), b'. intros f.
    cbn [Nat.add Fill.fill420_loop].
    assert (Hlt : (i <? size) = true) by (apply Z.ltb_lt; lia).
    rewrite Hlt.
    rewrite (to_int_small (i + 16)) by (apply in_int_intro; lia).
    rewrite E.
    replace (i + 16 + 16 * Z.of_nat n) with (i + 16 * Z.of_nat (S n)) by lia.
    reflexivity.
Qed.

(** C10 as stated fails: with [size = INT_MAX] the index reaches
    [INT_MAX - 15], the increment by [buffer.size()] takes it out of the
    range of [int], and the next copy starts at a negative offset. *)
Lemma C10_counterexample :
  ~ (forall (shuffle : forall A : Type, list A -> list A)
            (fuel : nat) (size : Z) (d : Fdp.t),
        1 <= size <= CInt.INT_MAX ->
        fill420_in_bounds size (fst (fst (Fill.fill420Buffer shuffle fuel size d)))).
Proof.
  intros H.
  assert (Hn : exists n : nat, Z.of_nat n = 134217727).
  { exists (Z.to_nat 134217727). apply Z2Nat.id. lia. }
  destruct Hn as [n Hn].
  specialize (H (fun _ l => l) (n + 2)%nat CInt.INT_MAX []
                ltac:(unfold CInt.INT_MAX; lia)).
  unfold Fill.fill420Buffer in H.
  destruct (Fill.fill420_seed []) as [buffer d'].
  destruct (fill420_loop_prefix (fun _ l => l) CInt.INT_MAX n buffer 0)
    as (ops0 & b' & E); [lia | unfold CInt.INT_MAX; lia
                         | unfold CInt.INT_MAX; lia |].
  rewrite E in H. cbn [fst] in H.
  unfold fill420_in_bounds in H. apply Forall_app in H. destruct H as [_ H].
  replace (0 + 16 * Z.of_nat n) with 2147483632 in H by lia.
  cbn [Fill.fill420_loop] in H.
  change (2147483632 <? CInt.INT_MAX) with true in H. cbv iota in H.
  change (CInt.to_int (2147483632 + 16)) with (-2147483648) in H.
  change (-2147483648 <? CInt.INT_MAX) with true in H. cbv iota in H.
  cbn [fst] in H.
  apply Forall_inv_tail in H. apply Forall_inv in H.
  cbn [Mem.mc_dst] in H. lia.
Qed.

(** ** [fillP010Buffer] leaves most of the plane unwritten (C4) *)

Lemma copyP010_footprint (width : Z) (c : Mem.memcpy_call) :
  copyP010_made width c ->
  0 <= Mem.mc_dst c /\ Mem.mc_dst c + Mem.mc_n c < 2 * width.
Proof. intros (col & H1 & _ & -> & ->). lia. Qed.

(** Whatever the height and the stride, the copies of
    [fillP010Buffer(data, width, height, stride)] all land in the first
    [2 * width] bytes after [data]: the bytes of the first row. *)
Lemma fillP010Buffer_first_row_only
    (shuffle : forall A : Type, list A -> list A)
    (width height stride : Z) (d : Fdp.t) :
  width <= loop_limit ->
  exists ops tmp' d',
    Fill.fillP010Buffer shuffle (Driver.turns width) width height stride d
    = Some (ops, Some tmp', d')
    /\ forall (m : Mem.memory) (a : Z),
         a < 0 \/ 2 * width <= a -> Mem.run m ops a = m a.
Proof.
  intros Hw.
  destruct (fillP010Buffer_spec shuffle (Driver.turns width) width height
              stride d Hw (turns_enough width))
    as (ops & tmp' & d' & E & Ho & _).
  exists ops, tmp', d'. split; [exact E|].
  intros m a Ha. apply run_frame.
  eapply Forall_impl; [|exact Ho].
  intros c Hc. destruct (copyP010_footprint width c Hc) as [H1 H2].
  apply (covers_outside c 0 (2 * width)); lia.
Qed.

(** C4 fails on the code.  In the call [fillP010Buffer(data, 8, 8, 8)]
    (the luma plane of an 8x8 image without stride) the loop ends, and only
    the first 8 bytes of the plane are written: of the 64 samples at index
    [j * stride + i], the 60 with [j >= 1] or [i >= 4] keep the bytes they
    had before the call. *)
Theorem C4_fillP010Buffer_unwritten
    (shuffle : forall A : Type, list A -> list A) (d : Fdp.t) :
  exists ops tmp' d',
    Fill.fillP010Buffer shuffle (Driver.turns 8) 8 8 8 d
    = Some (ops, Some tmp', d')
    /\ forall (m : Mem.memory) (j i : Z),
         0 <= j < 8 -> 0 <= i < 8 -> 1 <= j \/ 4 <= i ->
         Mem.run m ops (2 * (j * 8 + i)) = m (2 * (j * 8 + i))
         /\ Mem.run m ops (2 * (j * 8 + i) + 1) = m (2 * (j * 8 + i) + 1).
Proof.
  destruct (fillP010Buffer_spec shuffle (Driver.turns 8) 8 8 8 d)
    as (ops & tmp' & d' & E & Ho & _).
  { unfold loop_limit, CInt.INT_MAX. lia. }
  { apply turns_enough. }
  exists ops, tmp', d'. split; [exact E|].
  assert (Hc : forall a, 8 <= a -> Forall (fun c => Mem.covers c a = false) ops).
  { intros a Ha. eapply Forall_impl; [|exact Ho].
    intros c (col & H1 & H2 & Hd & Hn).
    assert (col = 0).
    { pose proof (Z.div_mod col 16 ltac:(lia)). lia. }
    subst col. apply (covers_outside c 0 8); lia. }
  intros m j i Hj Hi Hji. split; apply run_frame; apply Hc; lia.
Qed.

(** ** The images of an iteration *)

Section Images.

Variable env : Driver.environment.

Lemma call_fillP010Buffer_spec (off width height stride : Z) (d : Fdp.t) :
  width <= loop_limit ->
  exists ops d',
    Driver.call_fillP010Buffer env off width height stride d = Run.Ok (ops, d')
    /\ (length d' <= length d)%nat.
Proof.
  intros Hw. unfold Driver.call_fillP010Buffer.
  destruct (fillP010Buffer_spec (Driver.shuffle env) (Driver.turns width)
              width height stride d Hw (turns_enough width))
    as (ops & tmp' & d' & -> & _ & L).
  eauto.
Qed.

Lemma call_fill420Buffer_spec (size : Z) (d : Fdp.t) :
  size <= loop_limit ->
  exists ops d',
    Driver.call_fill420Buffer env size d = Run.Ok (ops, d')
    /\ (length d' <= length d)%nat.
Proof.
  intros Hs. unfold Driver.call_fill420Buffer.
  destruct (fill420Buffer_spec (Driver.shuffle env) (Driver.turns size)
              size d Hs (turns_enough size))
    as (ops & b' & d' & -> & _ & L).
  eauto.
Qed.

Lemma init_p010_spec (width height p010Cg : Z) (d : Fdp.t) :
  0 <= width <= 7680 ->
  exists img d',
    Driver.init_p010 env width height p010Cg d = Run.Ok (img, d')
    /\ UltraHdr.u_width img = width /\ UltraHdr.u_height img = height
    /\ (length d' <= length d)%nat.
Proof.
  intros Hw. unfold Driver.init_p010.
  assert (Hl : width <= loop_limit) by (unfold loop_limit, CInt.INT_MAX; lia).
  destruct (lift_ConsumeBool_spec d) as (uvc & d1 & E1 & L1).
  rewrite (bind_Ok _ _ _ _ _ E1).
  destruct (lift_ConsumeBool_spec d1) as (hys & d2 & E2 & L2).
  rewrite (bind_Ok _ _ _ _ _ E2).
  assert (Hy : exists yStride d3,
             (if hys then Driver.draw width (CInt.to_int (width + 128))
              else Run.ret width) d2 = Run.Ok (yStride, d3)
             /\ (length d3 <= length d2)%nat).
  { destruct hys.
    - rewrite to_int_small by (apply in_int_intro; lia).
      destruct (draw_spec width (width + 128) d2) as (v & d3 & E & _ & L & _);
        try (apply in_int_intro; lia); [lia|]. eauto.
    - exists width, d2. split; [reflexivity | lia]. }
  destruct Hy as (yStride & d3 & E3 & L3).
  rewrite (bind_Ok _ _ _ _ _ E3).
  destruct uvc.
  - destruct (call_fillP010Buffer_spec 0 width height yStride d3 Hl)
      as (y & d4 & E4 & L4).
    rewrite (bind_Ok _ _ _ _ _ E4).
    destruct (call_fillP010Buffer_spec
                (2 * Driver.imul yStride height) width (Z.quot height 2)
                yStride d4 Hl) as (uv & d5 & E5 & L5).
    rewrite (bind_Ok _ _ _ _ _ E5).
    eexists _, d5. split; [reflexivity|]. cbn. repeat split; lia.
  - rewrite to_int_small by (apply in_int_intro; lia).
    destruct (draw_spec width (width + 128) d3) as (uvs & d4 & E4 & _ & L4 & _);
      try (apply in_int_intro; lia); [lia|].
    rewrite (bind_Ok _ _ _ _ _ E4).
    destruct (call_fillP010Buffer_spec 0 width height yStride d4 Hl)
      as (y & d5 & E5 & L5).
    rewrite (bind_Ok _ _ _ _ _ E5).
    destruct (call_fillP010Buffer_spec 0 width (Z.quot height 2) uvs d5 Hl)
      as (uv & d6 & E6 & L6).
    rewrite (bind_Ok _ _ _ _ _ E6).
    eexists _, d6. split; [reflexivity|]. cbn. repeat split; lia.
Qed.

Lemma imul_small (a b : Z) :
  -2147483648 <= a * b <= 2147483647 -> Driver.imul a b = a * b.
Proof. intros H. unfold Driver.imul. apply to_int_small, in_int_intro, H. Qed.

Lemma init_420_spec (width height yuv420Cg : Z) (d : Fdp.t) :
  0 <= width <= 7680 -> 0 <= height <= 4320 ->
  exists img d',
    Driver.init_420 env width height yuv420Cg d = Run.Ok (img, d')
    /\ UltraHdr.u_width img = width /\ UltraHdr.u_height img = height
    /\ (length d' <= length d)%nat.
Proof.
  intros Hw Hh. unfold Driver.init_420.
  assert (Hp : 0 <= width * height <= 33177600) by nia.
  rewrite (imul_small width height) by lia.
  rewrite imul_small by lia.
  rewrite Z.quot_div_nonneg by lia.
  pose proof (Z.div_mod (width * height * 3) 2 ltac:(lia)).
  pose proof (Z.mod_pos_bound (width * height * 3) 2 ltac:(lia)).
  rewrite to_size_t_small by lia.
  rewrite to_int_small by (apply in_int_intro; lia).
  destruct (call_fill420Buffer_spec (width * height * 3 / 2) d)
    as (ops & d1 & E1 & L1).
  { unfold loop_limit, CInt.INT_MAX. lia. }
  rewrite (bind_Ok _ _ _ _ _ E1).
  eexists _, d1. split; [reflexivity|]. cbn. repeat split; lia.
Qed.

Lemma init_gray_spec (width height : Z) (d : Fdp.t) :
  0 <= width <= 7680 -> 0 <= height <= 4320 ->
  exists img d',
    Driver.init_gray env width height d = Run.Ok (img, d')
    /\ UltraHdr.u_width img = Driver.map_width_of width
    /\ UltraHdr.u_height img = Driver.map_height_of height
    /\ (length d' <= length d)%nat.
Proof.
  intros Hw Hh. unfold Driver.init_gray.
  assert (Hmw : 0 <= Driver.map_width_of width <= 1936).
  { rewrite map_width_of_eq by lia.
    assert (0 <= downscaled width <= 1920).
    { unfold downscaled, Driver.kScaleFactor.
      rewrite Z.quot_div_nonneg by lia.
      pose proof (Z.div_mod width 4 ltac:(lia)).
      pose proof (Z.mod_pos_bound width 4 ltac:(lia)). lia. }
    pose proof (Z.div_mod (downscaled width + 15) 16 ltac:(lia)).
    pose proof (Z.mod_pos_bound (downscaled width + 15) 16 ltac:(lia)). lia. }
  assert (Hmh : 0 <= Driver.map_height_of height <= 1082).
  { rewrite map_height_of_eq by lia.
    assert (0 <= downscaled height <= 1080).
    { unfold downscaled, Driver.kScaleFactor.
      rewrite Z.quot_div_nonneg by lia.
      pose proof (Z.div_mod height 4 ltac:(lia)).
      pose proof (Z.mod_pos_bound height 4 ltac:(lia)). lia. }
    pose proof (Z.div_mod (downscaled height + 1) 2 ltac:(lia)).
    pose proof (Z.mod_pos_bound (downscaled height + 1) 2 ltac:(lia)). lia. }
  set (mw := Driver.map_width_of width) in *.
  set (mh := Driver.map_height_of height) in *.
  assert (Hp : 0 <= mw * mh <= 2094752) by nia.
  rewrite imul_small by lia.
  rewrite to_size_t_small by lia.
  rewrite to_int_small by (apply in_int_intro; lia).
  destruct (call_fill420Buffer_spec (mw * mh) d) as (ops & d1 & E1 & L1).
  { unfold loop_limit, CInt.INT_MAX. lia. }
  rewrite (bind_Ok _ _ _ _ _ E1).
  eexists _, d1. split; [reflexivity|]. cbn. repeat split; lia.
Qed.

End Images.

Lemma build_images_spec (env : Driver.environment) (p : Driver.parameters)
    (d : Fdp.t) :
  parameters_ok p ->
  exists im d',
    Driver.build_images env p d = Run.Ok (im, d')
    /\ (Driver.muxSwitch p <> 4 ->
        UltraHdr.u_width (Driver.p010Img im) = Driver.width p
        /\ UltraHdr.u_height (Driver.p010Img im) = Driver.height p)
    /\ (Driver.muxSwitch p = 4 ->
        UltraHdr.u_width (Driver.grayImg im)
        = Driver.map_width_of (Driver.width p)
        /\ UltraHdr.u_height (Driver.grayImg im)
           = Driver.map_height_of (Driver.height p))
    /\ (0 < Driver.muxSwitch p ->
        UltraHdr.u_width (Driver.yuv420Img im) = Driver.width p
        /\ UltraHdr.u_height (Driver.yuv420Img im) = Driver.height p)
    /\ UltraHdr.c_length (Driver.jpegImgR im) = 0
    /\ UltraHdr.c_maxLength (Driver.jpegImgR im)
       = Z.max 8192 (Driver.width p * Driver.height p * 6)
    /\ (length d' <= length d)%nat.
Proof.
  intros [_ _ _ _ Hw _ Hh].
  unfold Driver.kMinWidth, Driver.kMaxWidth, Driver.kMinHeight,
    Driver.kMaxHeight in *.
  unfold Driver.build_images.
  set (w := Driver.width p) in *. set (h := Driver.height p) in *.
  assert (Hp : 0 <= w * h <= 33177600) by nia.
  assert (Hmax : Z.max (Driver.imul 8 1024)
                   (Driver.imul (Driver.imul (Driver.imul w h) 3) 2)
                 = Z.max 8192 (w * h * 6)).
  { rewrite (imul_small w h) by lia. rewrite (imul_small (w * h) 3) by lia.
    rewrite (imul_small (w * h * 3) 2) by lia.
    change (Driver.imul 8 1024) with 8192. f_equal. ring. }
  rewrite Hmax. clear Hmax.
  assert (H1 : exists p010 gray d1,
             (if negb (Driver.muxSwitch p =? 4)
              then Run.bind (Driver.init_p010 env w h (Driver.p010Cg p))
                     (fun img => Run.ret (img, UltraHdr.uncompressed_zero))
              else Run.bind (Driver.init_gray env w h)
                     (fun img => Run.ret (UltraHdr.uncompressed_zero, img))) d
             = Run.Ok ((p010, gray), d1)
             /\ (Driver.muxSwitch p <> 4 ->
                 UltraHdr.u_width p010 = w /\ UltraHdr.u_height p010 = h)
             /\ (Driver.muxSwitch p = 4 ->
                 UltraHdr.u_width gray = Driver.map_width_of w
                 /\ UltraHdr.u_height gray = Driver.map_height_of h)
             /\ (length d1 <= length d)%nat).
  { destruct (Driver.muxSwitch p =? 4) eqn:E; cbn [negb].
    - apply Z.eqb_eq in E.
      destruct (init_gray_spec env w h d) as (img & d1 & Ei & Wi & Hi & L);
        [lia | lia |].
      rewrite (bind_Ok _ _ _ _ _ Ei).
      exists UltraHdr.uncompressed_zero, img, d1.
      split; [reflexivity|]. repeat split; try assumption; contradiction.
    - apply Z.eqb_neq in E.
      destruct (init_p010_spec env w h (Driver.p010Cg p) d)
        as (img & d1 & Ei & Wi & Hi & L); [lia|].
      rewrite (bind_Ok _ _ _ _ _ Ei).
      exists img, UltraHdr.uncompressed_zero, d1.
      split; [reflexivity|]. repeat split; try assumption; contradiction. }
  destruct H1 as (p010 & gray & d1 & E1 & P1 & G1 & L1).
  rewrite (bind_Ok _ _ _ _ _ E1). cbv beta iota.
  assert (H2 : exists yuv d2,
             (if 0 <? Driver.muxSwitch p
              then Driver.init_420 env w h (Driver.yuv420Cg p)
              else Run.ret UltraHdr.uncompressed_zero) d1 = Run.Ok (yuv, d2)
             /\ (0 < Driver.muxSwitch p ->
                 UltraHdr.u_width yuv = w /\ UltraHdr.u_height yuv = h)
             /\ (length d2 <= length d1)%nat).
  { destruct (0 <? Driver.muxSwitch p) eqn:E.
    - destruct (init_420_spec env w h (Driver.yuv420Cg p) d1)
        as (img & d2 & Ei & Wi & Hi & L); [lia | lia |].
      exists img, d2. auto.
    - apply Z.ltb_ge in E. exists UltraHdr.uncompressed_zero, d1.
      split; [reflexivity|]. split; [lia | lia]. }
  destruct H2 as (yuv & d2 & E2 & Y2 & L2).
  rewrite (bind_Ok _ _ _ _ _ E2).
  eexists _, d2. split; [reflexivity|]. cbn.
  repeat split; try tauto; try lia.
Qed.

(** ** Width and height of the raw images (C6) *)

(** C6: in every iteration the parameters are drawn and the images are
    built, and the width and height stored in the descriptor of the raw
    HDR image (built when [muxSwitch != 4]) and of the raw SDR image (built
    when [muxSwitch > 0]) are even, with width in [[8, 7680]] and height in
    [[8, 4320]]. *)
Theorem C6_raw_image_dimensions (env : Driver.environment) (d : Fdp.t) :
  exists p d1 im d2,
    Driver.draw_parameters d = Run.Ok (p, d1)
    /\ Driver.build_images env p d1 = Run.Ok (im, d2)
    /\ (Driver.muxSwitch p <> 4 -> dimensions_supported (Driver.p010Img im))
    /\ (0 < Driver.muxSwitch p -> dimensions_supported (Driver.yuv420Img im)).
Proof.
  destruct (draw_parameters_spec d) as (p & d1 & E1 & Hp & _).
  destruct (build_images_spec env p d1 Hp)
    as (im & d2 & E2 & P & _ & Y & _).
  exists p, d1, im, d2. split; [exact E1|]. split; [exact E2|].
  destruct Hp as [_ _ _ We Wb He Hb].
  unfold dimensions_supported.
  split; [intros H; destruct (P H) as [-> ->]
         | intros H; destruct (Y H) as [-> ->]]; auto.
Qed.

(** ** The calls of the encode stage *)

Lemma encode_calls_app (l1 l2 : list UltraHdr.api_call) :
  encode_calls (l1 ++ l2) = encode_calls l1 ++ encode_calls l2.
Proof.
  induction l1 as [|c l1 IH]; [reflexivity|].
  destruct c; cbn [app encode_calls]; rewrite IH; reflexivity.
Qed.

Lemma encode_calls_In (calls : list UltraHdr.api_call) (c : UltraHdr.encode_call) :
  In c (encode_calls calls) <-> In (UltraHdr.CallEncode c) calls.
Proof.
  induction calls as [|x calls IH]; [reflexivity|].
  destruct x; cbn [encode_calls In]; rewrite IH;
    split; intros H; try (right; exact H);
    try (destruct H as [H|H]; [discriminate | exact H]).
  - destruct H as [->|H]; [left; reflexivity | right; exact H].
  - destruct H as [H|H]; [injection H as ->; left; reflexivity | right; exact H].
Qed.

Ltac solve_call_ok :=
  apply Forall_cons; [|apply Forall_nil];
  constructor;
  cbn [UltraHdr.encode_api UltraHdr.encode_dest metadata_input
         compressed_inputs hd_error];
  [ congruence
  | reflexivity
  | intros md Hmd; try discriminate; injection Hmd as <-; reflexivity
  | intros j0 Hj; try discriminate; injection Hj as <-; reflexivity
  | intros j0 g0 Hj; try discriminate; injection Hj as <- <-; reflexivity ].

Lemma encode_stage_spec (env : Driver.environment)
    (muxSwitch quality tf yuv420Cg : Z)
    (p010Img yuv420Img grayImg : UltraHdr.jpegr_uncompressed_struct)
    (jpegImgR : UltraHdr.jpegr_compressed_struct) :
  forall status dest calls,
    Driver.encode_stage env muxSwitch quality tf yuv420Cg p010Img yuv420Img
      grayImg jpegImgR = (status, dest, calls) ->
    (length (encode_calls calls) <= 1)%nat
    /\ Forall (encode_call_ok env muxSwitch tf jpegImgR) (encode_calls calls)
    /\ (muxSwitch = 0 \/ muxSwitch = 1 -> length (encode_calls calls) = 1%nat)
    /\ (encode_calls calls = [] -> status = UltraHdr.UNKNOWN_ERROR).
Proof.
  intros status dest calls. unfold Driver.encode_stage, Driver.do_encode.
  repeat match goal with
         | |- context [?a =? ?b] =>
             destruct (Z.eqb_spec a b)
         | |- context [Driver.compressImage ?e ?a ?b ?c ?d ?f] =>
             destruct (Driver.compressImage e a b c d f)
         | |- context [Driver.encodeJPEGR ?e ?c] =>
             destruct (Driver.encodeJPEGR e c)
         end;
    intros H; injection H as <- <- <-; cbn [encode_calls length];
    (split; [lia|]);
    (split; [|split; [intros; try reflexivity; lia
                     | try discriminate; try reflexivity]]);
    try apply Forall_nil; solve_call_ok.
Qed.
(** When every compression succeeds, each of the five values of
    [muxSwitch] leads to its [encodeJPEGR] call. *)
Lemma encode_stage_one_call (env : Driver.environment)
    (muxSwitch quality tf yuv420Cg : Z)
    (p010Img yuv420Img grayImg : UltraHdr.jpegr_uncompressed_struct)
    (jpegImgR : UltraHdr.jpegr_compressed_struct) :
  (forall image width height quality isSingleChannel,
      Driver.compressImage env image width height quality isSingleChannel
      <> None) ->
  0 <= muxSwitch <= 4 ->
  length (encode_calls
            (snd (Driver.encode_stage env muxSwitch quality tf yuv420Cg
                    p010Img yuv420Img grayImg jpegImgR))) = 1%nat.
Proof.
  intros Hc Hm. unfold Driver.encode_stage, Driver.do_encode.
  repeat match goal with
         | |- context [?a =? ?b] => destruct (Z.eqb_spec a b)
         | |- context [Driver.compressImage ?e ?a ?b ?c ?d ?f] =>
             let E := fresh "E" in
             destruct (Driver.compressImage e a b c d f) eqn:E;
             [|exfalso; exact (Hc _ _ _ _ _ E)]
         | |- context [Driver.encodeJPEGR ?e ?c] =>
             destruct (Driver.encodeJPEGR e c)
         end;
    try reflexivity; lia.
Qed.

(** ** The calls of an iteration *)

Lemma ConsumeProbability_spec (d : Fdp.t) :
  exists u d',
    FdpFloat.ConsumeProbability d
    = Run.Ok (F32.div (F32.of_Z u) (F32.of_Z 4294967295), d')
    /\ 0 <= u < 4294967296
    /\ (length d' <= length d)%nat.
Proof.
  unfold FdpFloat.ConsumeProbability.
  destruct (ConsumeUint32_spec d) as (u & d' & E & Hu & L).
  exists u, d'. split; [|auto].
  unfold Run.bind, Run.lift. rewrite E. reflexivity.
Qed.

Lemma ConsumeFloatingPointInRange_spec (d : Fdp.t) :
  exists u d',
    FdpFloat.ConsumeFloatingPointInRange F32.one F32.FLT_MAX d
    = Run.Ok (boost_of u, d')
    /\ 0 <= u < 4294967296
    /\ (length d' <= length d)%nat.
Proof.
  unfold FdpFloat.ConsumeFloatingPointInRange.
  change (F32.ltb F32.FLT_MAX F32.one) with false.
  change (F32.ltb F32.one F32.zero) with false.
  rewrite andb_false_r. cbn [andb].
  destruct (ConsumeProbability_spec d) as (u & d' & E & Hu & L).
  exists u, d'. rewrite (bind_Ok _ _ _ _ _ E). auto.
Qed.

Lemma decode_stage_spec (status width height of_ : Z)
    (jpegImgR : UltraHdr.jpegr_compressed_struct) (d : Fdp.t) :
  exists calls d',
    Driver.decode_stage status width height of_ jpegImgR d = Run.Ok (calls, d')
    /\ Forall decode_call_ok calls
    /\ encode_calls calls = []
    /\ (length d' <= length d)%nat.
Proof.
  unfold Driver.decode_stage.
  destruct (status =? UltraHdr.OK).
  - destruct (ConsumeFloatingPointInRange_spec d) as (u & d' & E & Hu & L).
    rewrite (bind_Ok _ _ _ _ _ E).
    eexists _, d'. split; [reflexivity|].
    split; [|split; [reflexivity | exact L]].
    repeat constructor. exists u. auto.
  - exists [], d. split; [reflexivity|]. repeat constructor.
Qed.

(** An iteration runs to its end; its calls are those of the encode stage
    followed by those of the decode stage. *)
Lemma process_iteration_spec (env : Driver.environment) (d : Fdp.t) :
  exists p im status dest calls calls' d',
    Driver.process_iteration env d = Run.Ok ((p, calls ++ calls'), d')
    /\ parameters_ok p
    /\ UltraHdr.c_length (Driver.jpegImgR im) = 0
    /\ Driver.encode_stage env (Driver.muxSwitch p) (Driver.quality p)
         (Driver.tf p) (Driver.yuv420Cg p) (Driver.p010Img im)
         (Driver.yuv420Img im) (Driver.grayImg im) (Driver.jpegImgR im)
       = (status, dest, calls)
    /\ Forall decode_call_ok calls'
    /\ encode_calls calls' = []
    /\ (length d' <= length d)%nat
    /\ (d <> [] -> (length d' < length d)%nat).
Proof.
  unfold Driver.process_iteration.
  destruct (draw_parameters_spec d) as (p & d1 & E1 & Hp & L1 & P1).
  rewrite (bind_Ok _ _ _ _ _ E1).
  destruct (build_images_spec env p d1 Hp)
    as (im & d2 & E2 & _ & _ & _ & Hlen & _ & L2).
  rewrite (bind_Ok _ _ _ _ _ E2).
  destruct (Driver.encode_stage env (Driver.muxSwitch p) (Driver.quality p)
              (Driver.tf p) (Driver.yuv420Cg p) (Driver.p010Img im)
              (Driver.yuv420Img im) (Driver.grayImg im) (Driver.jpegImgR im))
    as [[status dest] calls] eqn:E3.
  destruct (decode_stage_spec status (Driver.width p) (Driver.height p)
              (Driver.of_ p) dest d2) as (calls' & d3 & E4 & Hd & He & L3).
  rewrite (bind_Ok _ _ _ _ _ E4).
  exists p, im, status, dest, calls, calls', d3.
  split; [reflexivity|].
  do 5 (split; [assumption|]).
  split; [lia | intros Hne; specialize (P1 Hne); lia].
Qed.

Lemma decode_call_of_encode_stage (env : Driver.environment)
    (muxSwitch quality tf yuv420Cg : Z)
    (p010Img yuv420Img grayImg : UltraHdr.jpegr_uncompressed_struct)
    (jpegImgR : UltraHdr.jpegr_compressed_struct) src dest boost of_ :
  ~ In (UltraHdr.CallDecode src dest boost of_)
      (snd (Driver.encode_stage env muxSwitch quality tf yuv420Cg p010Img
              yuv420Img grayImg jpegImgR)).
Proof.
  unfold Driver.encode_stage, Driver.do_encode.
  repeat match goal with
         | |- context [?a =? ?b] => destruct (a =? b)
         | |- context [Driver.compressImage ?e ?a ?b ?c ?d ?f] =>
             destruct (Driver.compressImage e a b c d f)
         | |- context [Driver.encodeJPEGR ?e ?c] =>
             destruct (Driver.encodeJPEGR e c)
         end;
    cbn [snd In]; intros H;
    repeat (destruct H as [H|H]; [discriminate|]); exact H.
Qed.

Lemma process_iteration_ok (env : Driver.environment) (d : Fdp.t) :
  exists it d',
    Driver.process_iteration env d = Run.Ok (it, d')
    /\ iteration_ok env it
    /\ (d <> [] -> (length d' < length d)%nat).
Proof.
  destruct (process_iteration_spec env d)
    as (p & im & st & dest & calls & calls' & d' & E & Hp & Hlen & Es & Hd
        & He & _ & Hlt).
  exists (p, calls ++ calls'), d'. split; [exact E|]. split; [|exact Hlt].
  destruct (encode_stage_spec env _ _ _ _ _ _ _ _ _ _ _ Es)
    as (H1 & H2 & H3 & _).
  constructor; cbn [fst snd]; rewrite ?encode_calls_app, ?He, ?app_nil_r;
    try assumption.
  - exists (Driver.jpegImgR im). split; assumption.
  - intros src dst boost of_ Hin. apply in_app_or in Hin.
    destruct Hin as [Hin|Hin].
    + exfalso.
      apply (decode_call_of_encode_stage env (Driver.muxSwitch p)
               (Driver.quality p) (Driver.tf p) (Driver.yuv420Cg p)
               (Driver.p010Img im) (Driver.yuv420Img im) (Driver.grayImg im)
               (Driver.jpegImgR im) src dst boost of_).
      rewrite Es. exact Hin.
    + rewrite Forall_forall in Hd. exact (Hd _ Hin).
  - intros Hc.
    pose proof (encode_stage_one_call env (Driver.muxSwitch p)
                  (Driver.quality p) (Driver.tf p) (Driver.yuv420Cg p)
                  (Driver.p010Img im) (Driver.yuv420Img im)
                  (Driver.grayImg im) (Driver.jpegImgR im) Hc
                  (mux_ok p Hp)) as H4.
    rewrite Es in H4. exact H4.
Qed.

(** [process] ends on every input, and every iteration it went through
    satisfies [iteration_ok]. *)
Lemma process_loop_ok (env : Driver.environment) (fuel : nat) :
  forall d, (length d <= fuel)%nat ->
    exists its,
      Driver.process_loop env fuel d = Run.Ok its
      /\ Forall (iteration_ok env) its.
Proof.
  induction fuel as [|f IH]; intros d Hd.
  - destruct d; [|simpl in Hd; lia]. exists []. split; [reflexivity|constructor].
  - cbn [Driver.process_loop].
    destruct (Fdp.remaining_bytes d =? 0) eqn:E.
    { exists []. split; [reflexivity|constructor]. }
    assert (Hne : d <> []) by (intros ->; discriminate).
    destruct (process_iteration_ok env d) as (it & d' & Ei & Hok & Hlt).
    rewrite Ei. specialize (Hlt Hne).
    destruct (IH d' ltac:(lia)) as (its & -> & Hits).
    exists (it :: its). split; [reflexivity | constructor; assumption].
Qed.

Lemma process_ok (env : Driver.environment) (d : Fdp.t) :
  exists its,
    Driver.process env d = Run.Ok its /\ Forall (iteration_ok env) its.
Proof. apply process_loop_ok. lia. Qed.

(** ** Lifting a property of the iterations *)

(** A property of every iteration, from whatever provider state it starts,
    holds of every iteration [process] goes through; [process] ends, after
    at most as many iterations as the input has bytes. *)
Lemma process_loop_forall (env : Driver.environment)
    (P : Driver.parameters * list UltraHdr.api_call -> Prop) :
  (forall d it d', Driver.process_iteration env d = Run.Ok (it, d') -> P it) ->
  forall fuel d, (length d <= fuel)%nat ->
    exists its,
      Driver.process_loop env fuel d = Run.Ok its
      /\ Forall P its
      /\ (length its <= length d)%nat.
Proof.
  intros HP. induction fuel as [|f IH]; intros d Hd.
  - destruct d; [|simpl in Hd; lia]. exists [].
    split; [reflexivity|]. split; [constructor | simpl; lia].
  - cbn [Driver.process_loop].
    destruct (Fdp.remaining_bytes d =? 0) eqn:E.
    { exists []. split; [reflexivity|]. split; [constructor | simpl; lia]. }
    assert (Hne : d <> []) by (intros ->; discriminate).
    destruct (process_iteration_ok env d) as (it & d' & Ei & _ & Hlt).
    rewrite Ei. specialize (Hlt Hne).
    destruct (IH d' ltac:(lia)) as (its & -> & Hits & Hlen).
    exists (it :: its). split; [reflexivity|]. split.
    + constructor; [exact (HP d it d' Ei) | exact Hits].
    + simpl. lia.
Qed.

Lemma process_forall (env : Driver.environment)
    (P : Driver.parameters * list UltraHdr.api_call -> Prop) :
  (forall d it d', Driver.process_iteration env d = Run.Ok (it, d') -> P it) ->
  forall d,
    exists its,
      Driver.process env d = Run.Ok its
      /\ Forall P its
      /\ (length its <= length d)%nat.
Proof.
  intros HP d. unfold Driver.process.
  apply (process_loop_forall env P HP (length d) d). lia.
Qed.

(** ** The encode api of an iteration (C7) *)

Lemma decode_call_succeeds (env : Driver.environment) (c : UltraHdr.api_call) :
  decode_call_ok c -> compress_succeeds env c.
Proof. destruct c; cbn; tauto. Qed.

(** The stage calls [encodeJPEGR] exactly when every compression it made
    returned true. *)
Lemma encode_stage_call_made (env : Driver.environment)
    (muxSwitch quality tf yuv420Cg : Z)
    (p010Img yuv420Img grayImg : UltraHdr.jpegr_uncompressed_struct)
    (jpegImgR : UltraHdr.jpegr_compressed_struct) :
  0 <= muxSwitch <= 4 ->
  Forall (compress_succeeds env)
    (snd (Driver.encode_stage env muxSwitch quality tf yuv420Cg p010Img
            yuv420Img grayImg jpegImgR))
  <-> length (encode_calls
                (snd (Driver.encode_stage env muxSwitch quality tf yuv420Cg
                        p010Img yuv420Img grayImg jpegImgR))) = 1%nat.
Proof.
  intros Hm. unfold Driver.encode_stage, Driver.do_encode.
  repeat match goal with
         | |- context [?a =? ?b] => destruct (Z.eqb_spec a b)
         | |- context [Driver.compressImage ?e ?a ?b ?c ?d ?f] =>
             let E := fresh "E" in
             destruct (Driver.compressImage e a b c d f) eqn:E
         | |- context [Driver.encodeJPEGR ?e ?c] =>
             destruct (Driver.encodeJPEGR e c)
         end;
    cbn [snd encode_calls length];
    try (exfalso; lia);
    rewrite ?Forall_cons_iff, ?Forall_nil_iff; cbn [compress_succeeds];
    intuition congruence.
Qed.

Lemma encode_stage_first_call (env : Driver.environment)
    (muxSwitch quality tf yuv420Cg : Z)
    (p010Img yuv420Img grayImg : UltraHdr.jpegr_uncompressed_struct)
    (jpegImgR : UltraHdr.jpegr_compressed_struct) :
  2 <= muxSwitch ->
  hd_error (snd (Driver.encode_stage env muxSwitch quality tf yuv420Cg
                   p010Img yuv420Img grayImg jpegImgR))
  = Some (UltraHdr.CallCompress (UltraHdr.u_data yuv420Img)
            (UltraHdr.u_width yuv420Img) (UltraHdr.u_height yuv420Img)
            quality false).
Proof.
  intros Hm. unfold Driver.encode_stage, Driver.do_encode.
  repeat match goal with
         | |- context [?a =? ?b] => destruct (Z.eqb_spec a b)
         | |- context [Driver.compressImage ?e ?a ?b ?c ?d ?f] =>
             destruct (Driver.compressImage e a b c d f)
         | |- context [Driver.encodeJPEGR ?e ?c] =>
             destruct (Driver.encodeJPEGR e c)
         end;
    try (exfalso; lia); reflexivity.
Qed.

Lemma hd_error_app {A : Type} (l1 l2 : list A) (x : A) :
  hd_error l1 = Some x -> hd_error (l1 ++ l2) = Some x.
Proof. destruct l1; [discriminate | intros H; exact H]. Qed.

Lemma process_iteration_selection (env : Driver.environment)
    (d d' : Fdp.t) (it : Driver.parameters * list UltraHdr.api_call) :
  Driver.process_iteration env d = Run.Ok (it, d') -> api_selection env it.
Proof.
  intros Hit.
  destruct (process_iteration_spec env d)
    as (p & im & st & dest & calls & calls' & d1 & E & Hp & _ & Es & Hd
        & He & _).
  rewrite E in Hit. injection Hit as <- _.
  destruct (encode_stage_spec env _ _ _ _ _ _ _ _ _ _ _ Es)
    as (H1 & H2 & H3 & _).
  pose proof (encode_stage_call_made env (Driver.muxSwitch p)
                (Driver.quality p) (Driver.tf p) (Driver.yuv420Cg p)
                (Driver.p010Img im) (Driver.yuv420Img im) (Driver.grayImg im)
                (Driver.jpegImgR im) (mux_ok p Hp)) as H4.
  rewrite Es in H4. cbn [snd] in H4.
  unfold api_selection. cbn [fst snd].
  rewrite encode_calls_app, He, app_nil_r.
  split; [exact (mux_ok p Hp)|]. split; [exact H1|].
  split; [eapply Forall_impl; [|exact H2]; intros c Hc; apply Hc|].
  split; [exact H3|].
  split.
  { intros H2'. eexists _, _, _, _. apply hd_error_app.
    pose proof (encode_stage_first_call env (Driver.muxSwitch p)
                  (Driver.quality p) (Driver.tf p) (Driver.yuv420Cg p)
                  (Driver.p010Img im) (Driver.yuv420Img im)
                  (Driver.grayImg im) (Driver.jpegImgR im) H2') as Hf.
    rewrite Es in Hf. exact Hf. }
  rewrite Forall_app. split.
  - intros [Ha _]. apply H4. exact Ha.
  - intros Hl. split; [apply H4; exact Hl|].
    eapply Forall_impl; [|exact Hd]. apply decode_call_succeeds.
Qed.

(** C7: [process] ends on every input, and in every iteration it goes
    through [muxSwitch] lies in [[0, 4]], at most one [encodeJPEGR] call is
    made, a call that is made is the overload numbered [muxSwitch] (0: raw
    HDR; 1: raw HDR and raw SDR; 2: raw HDR, raw SDR and compressed SDR;
    3: raw HDR and compressed SDR; 4: compressed SDR, compressed gain map
    and metadata), for [muxSwitch] 0 and 1 the call is always made, for
    2, 3 and 4 the iteration starts by compressing the SDR image, and for
    every [muxSwitch] the [encodeJPEGR] call is made exactly when each
    [compressImage] call of that same iteration returned true. *)
Theorem C7_one_encode_api_per_iteration
    (env : Driver.environment) (d : Fdp.t) :
  exists its,
    Driver.process env d = Run.Ok its
    /\ Forall (api_selection env) its.
Proof.
  destruct (process_forall env (api_selection env)) with (d := d)
    as (its & E & H & _); [|eauto].
  intros d0 it d' Hit. exact (process_iteration_selection env d0 d' it Hit).
Qed.

(** ** The destination buffer starts every encode call empty (C9) *)

(** C9: whatever the destination structure holds when the encode stage is
    entered -- any [length], stale or not -- every [encodeJPEGR] call the
    stage makes receives it with [length] 0 and its other fields
    untouched; so in every iteration [process] goes through, the
    destination handed to an [encodeJPEGR] call has [length] 0. *)
Theorem C9_destination_length_reset (env : Driver.environment) :
  (forall (muxSwitch quality tf yuv420Cg : Z)
          (p010Img yuv420Img grayImg : UltraHdr.jpegr_uncompressed_struct)
          (jpegImgR : UltraHdr.jpegr_compressed_struct),
      Forall (destination_reset jpegImgR)
        (encode_calls
           (snd (Driver.encode_stage env muxSwitch quality tf yuv420Cg
                   p010Img yuv420Img grayImg jpegImgR))))
  /\ forall d : Fdp.t,
       exists its,
         Driver.process env d = Run.Ok its
         /\ Forall (fun it =>
                      Forall (fun c =>
                                UltraHdr.c_length (UltraHdr.encode_dest c) = 0)
                        (encode_calls (snd it))) its.
Proof.
  split.
  - intros muxSwitch quality tf yuv420Cg p010Img yuv420Img grayImg jpegImgR.
    destruct (Driver.encode_stage env muxSwitch quality tf yuv420Cg p010Img
                yuv420Img grayImg jpegImgR) as [[st dest] calls] eqn:Es.
    destruct (encode_stage_spec env _ _ _ _ _ _ _ _ _ _ _ Es) as (_ & H2 & _).
    cbn [snd]. eapply Forall_impl; [|exact H2].
    intros c [_ Hd _ _ _]. unfold destination_reset. rewrite Hd.
    cbn [UltraHdr.set_length UltraHdr.c_length UltraHdr.c_data
           UltraHdr.c_maxLength UltraHdr.c_colorGamut].
    repeat split.
  - intros d. destruct (process_ok env d) as (its & E & H).
    exists its. split; [exact E|].
    eapply Forall_impl; [|exact H].
    intros it [_ _ (r & _ & H2) _ _ _].
    eapply Forall_impl; [|exact H2].
    intros c [_ Hd _ _ _]. rewrite Hd. reflexivity.
Qed.

(** ** Capacity of the compressed inputs *)

(** The compressed SDR image is passed with [maxLength = length]; the
    compressed gain map is passed with the [length] of the SDR image as its
    [maxLength]. *)
Lemma compressed_input_capacity (env : Driver.environment) (d : Fdp.t) :
  exists its,
    Driver.process env d = Run.Ok its
    /\ Forall (fun it =>
                 Forall (fun c =>
                           (forall j, hd_error (compressed_inputs c) = Some j ->
                                      UltraHdr.c_maxLength j = UltraHdr.c_length j)
                           /\ (forall j g, compressed_inputs c = [j; g] ->
                                           UltraHdr.c_maxLength g
                                           = UltraHdr.c_length j))
                   (encode_calls (snd it))) its.
Proof.
  destruct (process_ok env d) as (its & E & H).
  exists its. split; [exact E|].
  eapply Forall_impl; [|exact H].
  intros it [_ _ (r & _ & H2) _ _ _].
  eapply Forall_impl; [|exact H2].
  intros c [_ _ _ H4 H5]. split; assumption.
Qed.

(** ** The metadata of the pure-mux api (C3, C5) *)

(** The metadata every api-4 call of [process] receives is the one
    [make_metadata] builds from the drawn transfer function, which lies in
    [[kTfMin, kTfMax]]. *)
Lemma metadata_of_process (env : Driver.environment) (d : Fdp.t) :
  exists its,
    Driver.process env d = Run.Ok its
    /\ Forall (fun it =>
                 Driver.kTfMin <= Driver.tf (fst it) <= Driver.kTfMax
                 /\ forall c md,
                      In c (encode_calls (snd it)) ->
                      metadata_input c = Some md ->
                      md = Driver.make_metadata env (Driver.tf (fst it))) its.
Proof.
  destruct (process_ok env d) as (its & E & H).
  exists its. split; [exact E|].
  eapply Forall_impl; [|exact H].
  intros it [Hp _ (r & _ & H2) _ _ _]. split; [apply Hp|].
  intros c md Hin Hmd. rewrite Forall_forall in H2.
  destruct (H2 c Hin) as [_ _ H3 _ _]. exact (H3 md Hmd).
Qed.

Lemma make_metadata_max (env : Driver.environment) (tf : Z) :
  UltraHdr.maxContentBoost (Driver.make_metadata env tf)
  = match peak_nits env tf with
    | Some peak => F32.div peak (Driver.kSdrWhiteNits env)
    | None => F32.zero
    end.
Proof.
  unfold Driver.make_metadata, peak_nits. cbn [UltraHdr.maxContentBoost].
  destruct (tf =? UltraHdr.ULTRAHDR_TF_HLG); [reflexivity|].
  destruct (tf =? UltraHdr.ULTRAHDR_TF_PQ); reflexivity.
Qed.

Lemma peak_nits_cases (env : Driver.environment) (tf : Z) :
  (tf = UltraHdr.ULTRAHDR_TF_HLG
   /\ peak_nits env tf = Some (Driver.kHlgMaxNits env))
  \/ (tf = UltraHdr.ULTRAHDR_TF_PQ
      /\ peak_nits env tf = Some (Driver.kPqMaxNits env))
  \/ (tf <> UltraHdr.ULTRAHDR_TF_HLG /\ tf <> UltraHdr.ULTRAHDR_TF_PQ
      /\ peak_nits env tf = None).
Proof.
  unfold peak_nits.
  destruct (Z.eqb_spec tf UltraHdr.ULTRAHDR_TF_HLG) as [->|H1]; [auto|].
  destruct (Z.eqb_spec tf UltraHdr.ULTRAHDR_TF_PQ) as [->|H2]; auto.
Qed.

(** C5, as amended: in every iteration [process] goes through, the
    metadata handed to the pure-mux api has [maxContentBoost] equal to
    [kHlgMaxNits / kSdrWhiteNits] when the drawn transfer function is HLG,
    to [kPqMaxNits / kSdrWhiteNits] when it is PQ, and to 0 for every other
    transfer function the driver draws. *)
Theorem C5_max_content_boost_value (env : Driver.environment) (d : Fdp.t) :
  exists its,
    Driver.process env d = Run.Ok its
    /\ Forall (fun it =>
                 forall c md,
                   In c (encode_calls (snd it)) ->
                   metadata_input c = Some md ->
                   let tf := Driver.tf (fst it) in
                   (tf = UltraHdr.ULTRAHDR_TF_HLG ->
                    UltraHdr.maxContentBoost md
                    = F32.div (Driver.kHlgMaxNits env) (Driver.kSdrWhiteNits env))
                   /\ (tf = UltraHdr.ULTRAHDR_TF_PQ ->
                       UltraHdr.maxContentBoost md
                       = F32.div (Driver.kPqMaxNits env) (Driver.kSdrWhiteNits env))
                   /\ (tf <> UltraHdr.ULTRAHDR_TF_HLG ->
                       tf <> UltraHdr.ULTRAHDR_TF_PQ ->
                       UltraHdr.maxContentBoost md = F32.zero)) its.
Proof.
  destruct (metadata_of_process env d) as (its & E & H).
  exists its. split; [exact E|].
  eapply Forall_impl; [|exact H].
  intros it [_ Hmd] c md Hin Hc. cbv zeta.
  rewrite (Hmd c md Hin Hc), make_metadata_max.
  destruct (peak_nits_cases env (Driver.tf (fst it)))
    as [(Et & ->) | [(Et & ->) | (N1 & N2 & ->)]].
  - rewrite Et. repeat split; try reflexivity; intros; try discriminate;
      congruence.
  - rewrite Et. repeat split; try reflexivity; intros; try discriminate;
      congruence.
  - repeat split; intros; try reflexivity; contradiction.
Qed.

(** C5 as stated fails: on the input [00 00 04] the driver draws
    [muxSwitch = 4] and the transfer function 0 (linear), which lies in
    [[kTfMin, kTfMax]] and has no peak-nits constant; the metadata of the
    api-4 call carries [maxContentBoost = 0], which is neither
    [kHlgMaxNits / kSdrWhiteNits] nor [kPqMaxNits / kSdrWhiteNits]. *)
Lemma C5_counterexample :
  match Driver.process_iteration (example_env 100 50 50) [x00; x00; x04] with
  | Run.Ok ((p, calls), _) =>
      Driver.muxSwitch p = 4
      /\ Driver.tf p = UltraHdr.ULTRAHDR_TF_LINEAR
      /\ Driver.kTfMin <= Driver.tf p <= Driver.kTfMax
      /\ peak_nits (example_env 100 50 50) (Driver.tf p) = None
      /\ match map metadata_input (encode_calls calls) with
         | [Some md] =>
             UltraHdr.maxContentBoost md = F32.zero
             /\ UltraHdr.maxContentBoost md
                <> F32.div (Driver.kHlgMaxNits (example_env 100 50 50))
                     (Driver.kSdrWhiteNits (example_env 100 50 50))
             /\ UltraHdr.maxContentBoost md
                <> F32.div (Driver.kPqMaxNits (example_env 100 50 50))
                     (Driver.kSdrWhiteNits (example_env 100 50 50))
         | _ => False
         end
  | _ => False
  end.
Proof.
  vm_compute.
  repeat split; try reflexivity; try discriminate.
Qed.

(** C3, as amended: in every iteration [process] goes through, the
    metadata handed to the pure-mux api has [minContentBoost = 1.0], and
    [maxContentBoost >= minContentBoost] holds exactly when the drawn
    transfer function has a peak-nits constant (HLG or PQ) whose quotient
    by [kSdrWhiteNits] is at least 1.0; for every other transfer function
    the driver draws, [maxContentBoost] is below [minContentBoost]. *)
Theorem C3_content_boost_order (env : Driver.environment) (d : Fdp.t) :
  exists its,
    Driver.process env d = Run.Ok its
    /\ Forall (fun it =>
                 forall c md,
                   In c (encode_calls (snd it)) ->
                   metadata_input c = Some md ->
                   UltraHdr.minContentBoost md = F32.one
                   /\ (F32.leb (UltraHdr.minContentBoost md)
                         (UltraHdr.maxContentBoost md) = true
                       <-> exists peak,
                             peak_nits env (Driver.tf (fst it)) = Some peak
                             /\ F32.leb F32.one
                                  (F32.div peak (Driver.kSdrWhiteNits env))
                                = true)
                   /\ (peak_nits env (Driver.tf (fst it)) = None ->
                       F32.ltb (UltraHdr.maxContentBoost md)
                         (UltraHdr.minContentBoost md) = true)) its.
Proof.
  destruct (metadata_of_process env d) as (its & E & H).
  exists its. split; [exact E|].
  eapply Forall_impl; [|exact H].
  intros it [_ Hmd] c md Hin Hc.
  rewrite (Hmd c md Hin Hc), make_metadata_max.
  cbn [UltraHdr.minContentBoost Driver.make_metadata].
  split; [reflexivity|].
  destruct (peak_nits env (Driver.tf (fst it))) as [peak|].
  - split.
    + split.
      * intros Hle. exists peak. split; [reflexivity | exact Hle].
      * intros (peak' & Hp & Hle). injection Hp as <-. exact Hle.
    + discriminate.
  - split.
    + split.
      * intros Hle. vm_compute in Hle. discriminate.
      * intros (peak' & Hp & _). discriminate.
    + intros _. reflexivity.
Qed.

(** C3 as stated fails: on the input [00 00 04] the driver draws
    [muxSwitch = 4] and the transfer function 0 (linear), and the metadata
    of the api-4 call has [maxContentBoost = 0] and [minContentBoost = 1]:
    the comparison [minContentBoost <= maxContentBoost] is false. *)
Lemma C3_counterexample :
  match Driver.process_iteration (example_env 100 50 50) [x00; x00; x04] with
  | Run.Ok ((p, calls), _) =>
      Driver.kTfMin <= Driver.tf p <= Driver.kTfMax
      /\ match map metadata_input (encode_calls calls) with
         | [Some md] =>
             F32.leb (UltraHdr.minContentBoost md) (UltraHdr.maxContentBoost md)
             = false
         | _ => False
         end
  | _ => False
  end.
Proof.
  vm_compute. split; [split; discriminate | reflexivity].
Qed.

(** With the constants 100, 1000 and 10000 nits both quotients are at least
    1.0 (they are 10.0 and 100.0). *)
Lemma example_env_ratios :
  let env := example_env 100 50 50 in
  F32.div (Driver.kHlgMaxNits env) (Driver.kSdrWhiteNits env) = F32.of_Z 10
  /\ F32.div (Driver.kPqMaxNits env) (Driver.kSdrWhiteNits env) = F32.of_Z 100
  /\ F32.leb F32.one (F32.of_Z 10) = true
  /\ F32.leb F32.one (F32.of_Z 100) = true.
Proof. vm_compute. repeat split; reflexivity. Qed.

(** ** Rounding in binary32

    The facts about the Standard Library's [binary_round_aux] needed to
    follow [ConsumeFloatingPointInRange<float>(1.0, FLT_MAX)]: the shape of
    the result of rounding a mantissa of at least 24 digits, and when the
    rounding is exact or downwards. *)

Lemma digits2_pos_size (p : positive) : digits2_pos p = Pos.size p.
Proof. induction p as [p IH|p IH|]; simpl; congruence. Qed.

Lemma Zdigits2_digits (m : Z) : 0 < m -> Zdigits2 m = digits m.
Proof.
  unfold digits. destruct m as [|p|p]; try lia. intros _.
  unfold Zdigits2. rewrite digits2_pos_size.
  destruct p as [p|p|]; cbn [Pos.size Z.log2]; lia.
Qed.

Lemma digits_bounds (m : Z) :
  0 < m -> 2 ^ (digits m - 1) <= m < 2 ^ digits m.
Proof.
  intros H. unfold digits.
  replace (Z.log2 m + 1 - 1) with (Z.log2 m) by ring.
  exact (Z.log2_spec m H).
Qed.

Lemma digits_unique (m k : Z) :
  0 < k -> 2 ^ (k - 1) <= m < 2 ^ k -> digits m = k.
Proof.
  intros Hk H. unfold digits.
  rewrite (Z.log2_unique m (k - 1)); [ring | lia |].
  replace (Z.succ (k - 1)) with k by lia. exact H.
Qed.

Lemma digits_pos (m : Z) : 0 < m -> 0 < digits m.
Proof. intros H. unfold digits. pose proof (Z.log2_nonneg m). lia. Qed.

Lemma shr_1_m (r : shr_record) :
  0 <= shr_m r -> shr_m (shr_1 r) = shr_m r / 2 /\ 0 <= shr_m (shr_1 r).
Proof.
  destruct r as [m r s]. cbn [shr_m]. intros H.
  destruct m as [|p|p]; [split; reflexivity| |lia].
  rewrite <- Z.div2_div.
  destruct p as [p|p|]; cbn; split; (reflexivity || lia).
Qed.

Lemma iter_pos_shr_1_m (p : positive) :
  forall r, 0 <= shr_m r ->
    shr_m (iter_pos shr_1 p r) = shr_m r / 2 ^ Zpos p
    /\ 0 <= shr_m (iter_pos shr_1 p r).
Proof.
  induction p as [p IH|p IH|]; intros r Hr; cbn [iter_pos].
  - destruct (shr_1_m r Hr) as [E1 P1].
    destruct (IH _ P1) as [E2 P2]. destruct (IH _ P2) as [E3 P3].
    split; [|exact P3]. rewrite E3, E2, E1.
    rewrite !Z.div_div by (try apply Z.pow_pos_nonneg; lia).
    f_equal. rewrite (Pos2Z.inj_xI p), Z.pow_add_r, Z.pow_twice_r by lia.
    ring.
  - destruct (IH _ Hr) as [E2 P2]. destruct (IH _ P2) as [E3 P3].
    split; [|exact P3]. rewrite E3, E2.
    rewrite !Z.div_div by (try apply Z.pow_pos_nonneg; lia).
    f_equal. rewrite (Pos2Z.inj_xO p), Z.pow_twice_r. ring.
  - exact (shr_1_m r Hr).
Qed.

Lemma shr_record_of_loc_m (m : Z) (l : location) :
  shr_m (shr_record_of_loc m l) = m.
Proof. destruct l as [|[]]; reflexivity. Qed.

Lemma round_nearest_even_bounds (q : Z) (l : location) :
  q <= round_nearest_even q l <= q + 1.
Proof.
  destruct l as [|[]]; cbn [round_nearest_even]; try lia.
  destruct (Z.even q); lia.
Qed.

Lemma shr_1_r (r : shr_record) :
  0 <= shr_m r -> shr_r (shr_1 r) = Z.odd (shr_m r).
Proof.
  destruct r as [m r s]. cbn [shr_m]. intros H.
  destruct m as [|p|p]; [reflexivity| |lia].
  destruct p as [p|p|]; reflexivity.
Qed.

Lemma iter_pos_shr_1_r (p : positive) :
  forall r, 0 <= shr_m r ->
    shr_r (iter_pos shr_1 p r) = Z.testbit (shr_m r) (Zpos p - 1).
Proof.
  induction p as [p IH|p IH|]; intros r Hr; cbn [iter_pos].
  - destruct (shr_1_m r Hr) as [E1 P1].
    destruct (iter_pos_shr_1_m p _ P1) as [E2 P2].
    rewrite (IH _ P2), E2, E1.
    rewrite Z.div_div by (try apply Z.pow_pos_nonneg; lia).
    replace (2 * 2 ^ Z.pos p) with (2 ^ (Z.pos p + 1))
      by (rewrite Z.pow_add_r by lia; ring).
    rewrite Z.div_pow2_bits by lia. f_equal. lia.
  - destruct (iter_pos_shr_1_m p _ Hr) as [E2 P2].
    rewrite (IH _ P2), E2.
    rewrite Z.div_pow2_bits by lia. f_equal. lia.
  - rewrite shr_1_r by exact Hr. symmetry. apply Z.bit0_odd.
Qed.

Lemma testbit_below_half (m n : Z) :
  0 < n -> 2 * (m mod 2 ^ n) < 2 ^ n -> Z.testbit m (n - 1) = false.
Proof.
  intros Hn H.
  assert (Hp : 0 < 2 ^ (n - 1)) by (apply Z.pow_pos_nonneg; lia).
  assert (E2 : 2 ^ n = 2 * 2 ^ (n - 1)).
  { replace n with (1 + (n - 1)) at 1 by ring.
    rewrite Z.pow_add_r by lia. reflexivity. }
  rewrite E2 in H.
  pose proof (Z.div_mod m (2 * 2 ^ (n - 1)) ltac:(lia)) as Hm.
  pose proof (Z.mod_pos_bound m (2 * 2 ^ (n - 1)) ltac:(lia)) as Hb.
  set (k := m / (2 * 2 ^ (n - 1))) in *.
  set (r := m mod (2 * 2 ^ (n - 1))) in *.
  apply not_true_is_false. intros Ht.
  apply Z.testbit_true in Ht; [|lia].
  assert (Hd : m / 2 ^ (n - 1) = 2 * k).
  { symmetry. apply (Z.div_unique m (2 ^ (n - 1)) (2 * k) r); [lia|]. lia. }
  rewrite Hd, Z.mul_comm, Z_mod_mult in Ht. discriminate.
Qed.

Lemma rne_down (q : Z) (r : shr_record) :
  shr_r r = false -> round_nearest_even q (loc_of_shr_record r) = q.
Proof. destruct r as [m [] []]; cbn; intros H; (discriminate || reflexivity). Qed.

(** [shr_fexp] on a mantissa of at least 24 digits: the exponent becomes
    [digits m + e - 24], the mantissa loses its [digits m - 24] low bits, and
    the round bit is clear when those bits are below one half. *)
Lemma shr_fexp_long (m e : Z) (l : location) :
  0 < m -> 24 <= digits m -> -149 <= digits m + e - 24 ->
  exists r,
    shr_fexp 24 128 m e l = (r, digits m + e - 24)
    /\ shr_m r = m / 2 ^ (digits m - 24)
    /\ (l = loc_Exact ->
        2 * (m mod 2 ^ (digits m - 24)) < 2 ^ (digits m - 24) ->
        shr_r r = false).
Proof.
  intros Hm Hd He. unfold shr_fexp.
  rewrite (Zdigits2_digits m Hm).
  assert (Hf : fexp 24 128 (digits m + e) = digits m + e - 24).
  { unfold fexp, emin. lia. }
  rewrite Hf.
  replace (digits m + e - 24 - e) with (digits m - 24) by ring.
  unfold shr.
  destruct (digits m - 24) as [|p|p] eqn:En; try lia.
  - eexists. split; [f_equal; lia|]. split.
    + rewrite shr_record_of_loc_m, Z.div_1_r. reflexivity.
    + intros -> _. reflexivity.
  - eexists. split; [f_equal; lia|].
    assert (H0 : 0 <= shr_m (shr_record_of_loc m l))
      by (rewrite shr_record_of_loc_m; lia).
    destruct (iter_pos_shr_1_m p _ H0) as [E _]. split.
    + rewrite E, shr_record_of_loc_m. reflexivity.
    + intros _ Hlow. rewrite (iter_pos_shr_1_r p _ H0), shr_record_of_loc_m.
      apply testbit_below_half; [lia | exact Hlow].
Qed.

Lemma top24 (m : Z) :
  0 < m -> 24 <= digits m ->
  8388608 <= m / 2 ^ (digits m - 24) < 16777216.
Proof.
  intros Hm Hd. pose proof (digits_bounds m Hm) as [Hlo Hhi].
  set (n := digits m - 24) in *.
  assert (Hn : 0 <= n) by lia.
  assert (Hp : 0 < 2 ^ n) by (apply Z.pow_pos_nonneg; lia).
  replace (digits m - 1) with (23 + n) in Hlo by lia.
  replace (digits m) with (24 + n) in Hhi by lia.
  rewrite Z.pow_add_r in Hlo, Hhi by lia.
  change (2 ^ 23) with 8388608 in Hlo. change (2 ^ 24) with 16777216 in Hhi.
  split.
  - apply Z.div_le_lower_bound; lia.
  - apply Z.div_lt_upper_bound; lia.
Qed.

Lemma bra_pack (sx : bool) (mx ex : Z) (lx : location) :
  0 < mx -> 24 <= digits mx -> -149 <= digits mx + ex - 24 ->
  let n := digits mx - 24 in
  exists q,
    mx / 2 ^ n <= q <= mx / 2 ^ n + 1
    /\ (lx = loc_Exact -> 2 * (mx mod 2 ^ n) < 2 ^ n -> q = mx / 2 ^ n)
    /\ binary_round_aux 24 128 sx mx ex lx = pack sx q (digits mx + ex - 24).
Proof.
  intros Hm Hd He n. unfold binary_round_aux.
  destruct (shr_fexp_long mx ex lx Hm Hd He) as (r1 & -> & E1 & R1).
  pose proof (top24 mx Hm Hd) as Hq. fold n in Hq, E1, R1.
  pose proof (round_nearest_even_bounds (shr_m r1) (loc_of_shr_record r1)) as Hr.
  set (q := round_nearest_even (shr_m r1) (loc_of_shr_record r1)) in *.
  set (E := digits mx + ex - 24) in *.
  exists q. split; [rewrite <- E1; exact Hr|]. split.
  { intros Hl Hlow. unfold q. rewrite rne_down by auto. exact E1. }
  rewrite E1 in Hr.
  assert (Hq0 : 0 < q) by lia.
  unfold pack.
  destruct (Z.ltb_spec q 16777216) as [Hlt|Hge].
  - assert (Dq : digits q = 24).
    { apply digits_unique; [lia|]. change (2 ^ (24 - 1)) with 8388608.
      change (2 ^ 24) with 16777216. lia. }
    destruct (shr_fexp_long q E loc_Exact Hq0 ltac:(lia) ltac:(lia))
      as (r2 & -> & E2 & _).
    rewrite Dq in *. change (2 ^ (24 - 24)) with 1 in E2.
    rewrite Z.div_1_r in E2. rewrite E2.
    replace (24 + E - 24) with E by ring.
    destruct q as [|pq|pq]; try lia. reflexivity.
  - assert (Hq1 : q = 16777216) by lia.
    assert (Dq : digits q = 25) by (rewrite Hq1; reflexivity).
    destruct (shr_fexp_long q E loc_Exact Hq0 ltac:(lia) ltac:(lia))
      as (r2 & -> & E2 & _).
    rewrite Dq in *. rewrite Hq1 in E2.
    change (16777216 / 2 ^ (25 - 24)) with 8388608 in E2.
    rewrite E2. replace (25 + E - 24) with (E + 1) by ring. reflexivity.
Qed.

Lemma digits_shift (m k : Z) : 0 < m -> 0 <= k -> digits (m * 2 ^ k) = digits m + k.
Proof.
  intros Hm Hk. unfold digits. rewrite Z.log2_mul_pow2 by lia. ring.
Qed.

Lemma pos_iter_xO (m d : positive) :
  Zpos (Pos.iter xO m d) = Zpos m * 2 ^ Zpos d.
Proof.
  induction d as [|d IH] using Pos.peano_ind.
  - cbn [Pos.iter]. rewrite Pos2Z.inj_xO. change (2 ^ 1) with 2. ring.
  - rewrite Pos.iter_succ, Pos2Z.inj_xO, IH, Pos2Z.inj_succ, Z.pow_succ_r by lia.
    ring.
Qed.

Lemma shl_align_spec (mx : positive) (ex ex' : Z) :
  exists mz,
    shl_align mx ex ex' = (mz, Z.min ex ex')
    /\ Zpos mz = Zpos mx * 2 ^ (ex - Z.min ex ex').
Proof.
  unfold shl_align.
  destruct (ex' - ex) as [|p|p] eqn:E.
  - exists mx. rewrite Z.min_l by lia. rewrite Z.sub_diag. split; [reflexivity | simpl; lia].
  - exists mx. rewrite Z.min_l by lia. rewrite Z.sub_diag. split; [reflexivity | simpl; lia].
  - exists (Pos.iter xO mx p). rewrite Z.min_r by lia. split; [reflexivity|].
    rewrite pos_iter_xO. f_equal. f_equal. lia.
Qed.

Lemma pack_finite (sx : bool) (q e : Z) :
  8388608 <= q <= 16777216 -> e + 1 <= 104 ->
  exists m e',
    pack sx q e = S754_finite sx m e'
    /\ 8388608 <= Zpos m < 16777216
    /\ ((e' = e /\ Zpos m = q) \/ (e' = e + 1 /\ m = 8388608%positive /\ q = 16777216)).
Proof.
  intros Hq He. unfold pack.
  destruct (Z.ltb_spec q 16777216) as [Hlt|Hge].
  - assert (El : (e <=? 104) = true) by (apply Z.leb_le; lia). rewrite El.
    exists (Z.to_pos q), e. split; [reflexivity|].
    rewrite Z2Pos.id by lia. split; [lia|]. left. split; reflexivity.
  - assert (El : (e + 1 <=? 104) = true) by (apply Z.leb_le; lia). rewrite El.
    exists 8388608%positive, (e + 1). split; [reflexivity|]. split; [lia|].
    right. repeat split. lia.
Qed.

Lemma pack_exact (sx : bool) (m : positive) (e : Z) :
  Zpos m < 16777216 -> e <= 104 -> pack sx (Zpos m) e = S754_finite sx m e.
Proof.
  intros Hm He. unfold pack.
  assert (E1 : (Zpos m <? 16777216) = true) by (apply Z.ltb_lt; lia).
  assert (E2 : (e <=? 104) = true) by (apply Z.leb_le; lia).
  rewrite E1, E2. reflexivity.
Qed.

(** [static_cast<float>] of a positive 32-bit integer *)
Lemma of_Z_shape (u : Z) :
  0 < u < 4294967296 ->
  exists m e,
    F32.of_Z u = S754_finite false m e
    /\ 8388608 <= Zpos m < 16777216
    /\ -23 <= e <= 9
    /\ (e = 9 -> m = 8388608%positive).
Proof.
  intros Hu. unfold F32.of_Z, F32.prec, F32.emax, binary_normalize.
  destruct u as [|p|p]; try lia.
  unfold binary_round.
  assert (Hd : 1 <= digits (Zpos p) <= 32).
  { pose proof (digits_pos (Zpos p) ltac:(lia)).
    pose proof (digits_bounds (Zpos p) ltac:(lia)) as [Hlo _].
    split; [lia|].
    destruct (Z_le_gt_dec (digits (Zpos p)) 32) as [|Hgt]; [assumption|].
    assert (2 ^ 32 <= 2 ^ (digits (Zpos p) - 1)) by (apply Z.pow_le_mono_r; lia).
    change (2 ^ 32) with 4294967296 in *. lia. }
  change (Zpos (digits2_pos p)) with (Zdigits2 (Zpos p)).
  rewrite Zdigits2_digits by lia.
  set (d := digits (Zpos p)) in *.
  assert (Hf : fexp 24 128 (d + 0) = d - 24).
  { unfold fexp, emin. lia. }
  rewrite Hf.
  destruct (shl_align_spec p 0 (d - 24)) as (mz & -> & Emz).
  set (ez := Z.min 0 (d - 24)) in *.
  assert (Dz : digits (Zpos mz) = d - ez).
  { rewrite Emz, digits_shift by lia. fold d. ring. }
  destruct (bra_pack false (Zpos mz) ez loc_Exact) as (q & Hq & _ & ->);
    [lia | lia | lia |].
  pose proof (top24 (Zpos mz) ltac:(lia) ltac:(lia)) as Ht.
  rewrite Dz in *.
  destruct (pack_finite false q (d - ez + ez - 24)) as (m & e & -> & Hm & Hc);
    [lia | lia |].
  exists m, e. split; [reflexivity|]. split; [exact Hm|].
  destruct Hc as [(-> & _) | (-> & -> & _)]; split; lia.
Qed.

Lemma div_eucl_eq (a b : Z) : Z.div_eucl a b = (a / b, a mod b).
Proof. unfold Z.div, Z.modulo. destruct (Z.div_eucl a b). reflexivity. Qed.

(** Division by 2^32, the float of [UINT32_MAX], is exact. *)
Lemma div_by_2_32 (m : positive) (e : Z) :
  8388608 <= Zpos m < 16777216 -> -100 <= e <= 100 ->
  F32.div (S754_finite false m e) (S754_finite false 8388608 9)
  = S754_finite false m (e - 32).
Proof.
  intros Hm He. unfold F32.div, F32.prec, F32.emax, SFdiv, SFdiv_core_binary.
  assert (Dm : digits (Zpos m) = 24).
  { apply digits_unique; [lia|]. change (2 ^ (24 - 1)) with 8388608.
    change (2 ^ 24) with 16777216. exact Hm. }
  rewrite (Zdigits2_digits (Zpos m)) by lia. rewrite Dm.
  change (Zdigits2 8388608) with 24.
  assert (Ee : Z.min (fexp 24 128 (24 + e - (24 + 9))) (e - 9) = e - 33).
  { unfold fexp, emin. lia. }
  rewrite Ee.
  replace (e - 9 - (e - 33)) with 24 by ring.
  rewrite Z.shiftl_mul_pow2 by lia.
  rewrite div_eucl_eq.
  replace (Zpos m * 2 ^ 24) with (2 * Zpos m * 8388608)
    by (change (2 ^ 24) with 16777216; ring).
  rewrite Z.div_mul, Z.mod_mul by lia.
  change (new_location 8388608 0) with loc_Exact. cbv beta iota zeta.
  change (xorb false false) with false.
  assert (D2 : digits (2 * Zpos m) = 25).
  { apply digits_unique; [lia|]. change (2 ^ (25 - 1)) with 16777216.
    change (2 ^ 25) with 33554432. lia. }
  destruct (bra_pack false (2 * Zpos m) (e - 33) loc_Exact)
    as (q & _ & Hq & ->); [lia | lia | lia |].
  rewrite D2 in *. change (2 ^ (25 - 24)) with 2 in Hq.
  rewrite Hq;
    [| reflexivity | rewrite (Z.mul_comm 2 (Zpos m)), Z_mod_mult; lia].
  rewrite (Z.mul_comm 2 (Zpos m)), Z.div_mul by lia.
  replace (25 + (e - 33) - 24) with (e - 32) by ring.
  apply pack_exact; lia.
Qed.

(** [FLT_MAX * p] for a probability [p < 1] is finite and at least 2^95. *)
Lemma mul_FLT_MAX (m : positive) (e : Z) :
  8388608 <= Zpos m < 16777216 -> -55 <= e <= -24 ->
  exists mx ex,
    F32.mul (S754_finite false 16777215 104) (S754_finite false m e)
    = S754_finite false mx ex
    /\ 8388608 <= Zpos mx < 16777216
    /\ 72 <= ex <= 104.
Proof.
  intros Hm He. unfold F32.mul, F32.prec, F32.emax, SFmul.
  change (xorb false false) with false.
  rewrite Pos2Z.inj_mul.
  set (P := 16777215 * Zpos m).
  assert (HP : 2 ^ 46 <= P < 2 ^ 48).
  { change (2 ^ 46) with 70368744177664.
    change (2 ^ 48) with 281474976710656. unfold P. lia. }
  assert (HP0 : 0 < P) by (unfold P; lia).
  assert (Hd : 47 <= digits P <= 48).
  { pose proof (digits_bounds P HP0) as [Hlo Hhi]. split.
    - destruct (Z_le_gt_dec 47 (digits P)) as [|Hlt]; [assumption|].
      assert (2 ^ digits P <= 2 ^ 46) by (apply Z.pow_le_mono_r; lia). lia.
    - destruct (Z_le_gt_dec (digits P) 48) as [|Hgt]; [assumption|].
      assert (2 ^ 48 <= 2 ^ (digits P - 1)) by (apply Z.pow_le_mono_r; lia).
      lia. }
  destruct (bra_pack false P (104 + e) loc_Exact HP0 ltac:(lia) ltac:(lia))
    as (q & Hq & _ & ->).
  pose proof (top24 P HP0 ltac:(lia)) as Ht.
  assert (Hq' : 8388608 <= q <= 16777216
                /\ (digits P = 48 -> q < 16777216)).
  { split; [lia|]. intros D48. rewrite D48 in Hq.
    change (2 ^ (48 - 24)) with 16777216 in Hq.
    assert (P / 16777216 < Zpos m).
    { apply Z.div_lt_upper_bound; [lia|]. unfold P. lia. }
    lia. }
  destruct Hq' as [Hq1 Hq2].
  destruct (Z.eq_dec (digits P) 48) as [D48|D47].
  - specialize (Hq2 D48). rewrite D48.
    destruct q as [|pq|pq]; try lia.
    rewrite pack_exact by lia.
    exists pq, (48 + (104 + e) - 24). split; [reflexivity|]. lia.
  - assert (D47' : digits P = 47) by lia. rewrite D47'.
    destruct (pack_finite false q (47 + (104 + e) - 24) Hq1 ltac:(lia))
      as (mx & ex & -> & Hmx & Hc).
    exists mx, ex. split; [reflexivity|]. split; [exact Hmx|].
    destruct Hc as [(-> & _) | (-> & _)]; lia.
Qed.

(** Adding 1.0 to a float of at least 2^95 leaves it unchanged. *)
Lemma add_one_absorbed (mx : positive) (ex : Z) :
  8388608 <= Zpos mx < 16777216 -> 72 <= ex <= 104 ->
  F32.add (S754_finite false 8388608 (-23)) (S754_finite false mx ex)
  = S754_finite false mx ex.
Proof.
  intros Hm He. unfold F32.add, F32.prec, F32.emax, SFadd.
  rewrite Z.min_l by lia.
  change (shl_align 8388608 (-23) (-23)) with (8388608%positive, -23).
  destruct (shl_align_spec mx ex (-23)) as (mz & Ez & Emz).
  rewrite Z.min_r in Ez, Emz by lia.
  rewrite Ez. cbn [fst cond_Zopp].
  set (n := ex + 23).
  replace (ex - -23) with n in Emz by (unfold n; ring).
  assert (Hn : 95 <= n <= 127) by (unfold n; lia).
  assert (Hp : 2 ^ 25 <= 2 ^ n) by (apply Z.pow_le_mono_r; lia).
  change (2 ^ 25) with 33554432 in Hp.
  set (S := Zpos 8388608 + Zpos mz).
  assert (HS : S = Zpos mx * 2 ^ n + 8388608) by (unfold S; lia).
  assert (HS0 : 0 < S) by (unfold S; lia).
  assert (HSq : S / 2 ^ n = Zpos mx /\ S mod 2 ^ n = 8388608).
  { symmetry in HS. rewrite Z.mul_comm in HS.
    pose proof (Z.div_mod_unique (2 ^ n) (S / 2 ^ n) (Zpos mx)
                  (S mod 2 ^ n) 8388608) as U.
    pose proof (Z.mod_pos_bound S (2 ^ n) ltac:(lia)).
    pose proof (Z.div_mod S (2 ^ n) ltac:(lia)).
    destruct U as [U1 U2]; [left; lia | left; lia | lia |]. split; assumption. }
  destruct HSq as [Sq Sm].
  assert (DS : digits S = n + 24).
  { apply digits_unique; [lia|].
    replace (n + 24 - 1) with (23 + n) by ring.
    replace (n + 24) with (24 + n) by ring.
    rewrite !Z.pow_add_r by lia.
    change (2 ^ 23) with 8388608. change (2 ^ 24) with 16777216. nia. }
  unfold binary_normalize.
  destruct S as [|pS|pS] eqn:ES; try lia.
  unfold binary_round.
  change (Zpos (digits2_pos pS)) with (Zdigits2 (Zpos pS)).
  rewrite Zdigits2_digits by lia. rewrite DS.
  assert (Hf : fexp 24 128 (n + 24 + -23) = ex).
  { unfold fexp, emin, n. lia. }
  rewrite Hf.
  destruct (shl_align_spec pS (-23) ex) as (mz' & Ez' & Emz').
  rewrite Z.min_l in Ez', Emz' by lia.
  rewrite Z.sub_diag, Z.mul_1_r in Emz'. injection Emz' as ->.
  rewrite Ez'.
  destruct (bra_pack false (Zpos pS) (-23) loc_Exact)
    as (q & _ & Hq & ->); [lia | lia | lia |].
  rewrite DS in *.
  replace (n + 24 - 24) with n in Hq by ring.
  rewrite Hq; [| reflexivity | rewrite Sm; lia].
  rewrite Sq.
  replace (n + 24 + -23 - 24) with ex by (unfold n; ring).
  apply pack_exact; lia.
Qed.

Lemma leb_one_big (mx : positive) (ex : Z) :
  72 <= ex ->
  F32.leb (S754_finite false 8388608 (-23)) (S754_finite false mx ex) = true.
Proof.
  intros He. unfold F32.leb, SFleb, SFcompare.
  destruct (Z.compare_spec (-23) ex); [lia | reflexivity | lia].
Qed.

Lemma leb_FLT_MAX (mx : positive) (ex : Z) :
  Zpos mx < 16777216 -> ex <= 104 ->
  F32.leb (S754_finite false mx ex) (S754_finite false 16777215 104) = true.
Proof.
  intros Hm He. unfold F32.leb, SFleb, SFcompare.
  destruct (Z.compare_spec ex 104); [| reflexivity | lia].
  change (Pos.compare_cont Eq mx 16777215) with (Pos.compare mx 16777215).
  destruct (Pos.compare_spec mx 16777215); [reflexivity | reflexivity | lia].
Qed.

Lemma boost_of_bounds (u : Z) :
  0 <= u < 4294967296 ->
  F32.leb F32.one (boost_of u) = true
  /\ F32.leb (boost_of u) F32.FLT_MAX = true.
Proof.
  intros Hu. unfold boost_of.
  change (F32.sub F32.FLT_MAX F32.one) with (S754_finite false 16777215 104).
  change (F32.of_Z 4294967295) with (S754_finite false 8388608 9).
  change F32.one with (S754_finite false 8388608 (-23)).
  change F32.FLT_MAX with (S754_finite false 16777215 104).
  destruct (Z.eq_dec u 0) as [->|Hnz].
  { vm_compute. split; reflexivity. }
  destruct (of_Z_shape u ltac:(lia)) as (m & e & -> & Hm & He & H9).
  destruct (Z.eq_dec e 9) as [E9|N9].
  { rewrite (H9 E9), E9. vm_compute. split; reflexivity. }
  rewrite div_by_2_32 by lia.
  destruct (mul_FLT_MAX m (e - 32) Hm ltac:(lia)) as (mx & ex & -> & Hmx & Hex).
  rewrite add_one_absorbed by lia.
  split; [apply leb_one_big | apply leb_FLT_MAX]; lia.
Qed.

(** ** The display boost of the decode call (C8) *)

(** C8: [process] ends on every input, and in every iteration it goes
    through, the maximum display boost handed to [decodeJPEGR] is at least
    1.0 and at most [FLT_MAX] (so it is neither a NaN nor an infinity). *)
Theorem C8_decode_boost_in_range (env : Driver.environment) (d : Fdp.t) :
  exists its,
    Driver.process env d = Run.Ok its
    /\ Forall (fun it =>
                 forall src dest boost of_,
                   In (UltraHdr.CallDecode src dest boost of_) (snd it) ->
                   F32.leb F32.one boost = true
                   /\ F32.leb boost F32.FLT_MAX = true) its.
Proof.
  destruct (process_ok env d) as (its & E & H).
  exists its. split; [exact E|].
  eapply Forall_impl; [|exact H].
  intros it [_ _ _ _ Hd _] src dest boost of_ Hin.
  destruct (Hd src dest boost of_ Hin) as (u & Hu & ->).
  apply boost_of_bounds. exact Hu.
Qed.

(** * Further properties of the driver *)

(** ** Iterations, unfolded *)

(** The four stages of an iteration and what passes between them. *)
Lemma process_iteration_unfold (env : Driver.environment) (d : Fdp.t) :
  exists p d1 im d2 status dest calls calls' d3,
    Driver.draw_parameters d = Run.Ok (p, d1)
    /\ parameters_ok p
    /\ Driver.build_images env p d1 = Run.Ok (im, d2)
    /\ Driver.encode_stage env (Driver.muxSwitch p) (Driver.quality p)
         (Driver.tf p) (Driver.yuv420Cg p) (Driver.p010Img im)
         (Driver.yuv420Img im) (Driver.grayImg im) (Driver.jpegImgR im)
       = (status, dest, calls)
    /\ Driver.decode_stage status (Driver.width p) (Driver.height p)
         (Driver.of_ p) dest d2 = Run.Ok (calls', d3)
    /\ Driver.process_iteration env d = Run.Ok ((p, calls ++ calls'), d3).
Proof.
  unfold Driver.process_iteration.
  destruct (draw_parameters_spec d) as (p & d1 & E1 & Hp & _).
  rewrite (bind_Ok _ _ _ _ _ E1).
  destruct (build_images_spec env p d1 Hp) as (im & d2 & E2 & _).
  rewrite (bind_Ok _ _ _ _ _ E2).
  destruct (Driver.encode_stage env (Driver.muxSwitch p) (Driver.quality p)
              (Driver.tf p) (Driver.yuv420Cg p) (Driver.p010Img im)
              (Driver.yuv420Img im) (Driver.grayImg im) (Driver.jpegImgR im))
    as [[status dest] calls] eqn:E3.
  destruct (decode_stage_spec status (Driver.width p) (Driver.height p)
              (Driver.of_ p) dest d2) as (calls' & d3 & E4 & _).
  rewrite (bind_Ok _ _ _ _ _ E4).
  exists p, d1, im, d2, status, dest, calls, calls', d3.
  split; [exact E1|]. split; [exact Hp|]. split; [exact E2|].
  split; [exact E3|]. split; [exact E4 | reflexivity].
Qed.

(** ** The entry point *)

(** X1: [LLVMFuzzerTestOneInput] returns 0 on every input: no provider call
    aborts and every loop ends.  [process] goes through at most as many
    iterations as the input has bytes, and through none (so it makes no
    call into the codec) on the empty input. *)
Theorem X1_entry_point_returns_zero
    (env : Driver.environment) (data : Fdp.t) :
  Driver.LLVMFuzzerTestOneInput env data = Run.Ok 0
  /\ exists its,
       Driver.process env data = Run.Ok its
       /\ (length its <= length data)%nat
       /\ (data = [] -> its = []).
Proof.
  destruct (process_forall env (fun _ => True) (fun _ _ _ _ => I) data)
    as (its & E & _ & Hlen).
  unfold Driver.LLVMFuzzerTestOneInput. rewrite E.
  split; [reflexivity|]. exists its. split; [reflexivity|].
  split; [exact Hlen|]. intros ->. destruct its; [reflexivity|].
  simpl in Hlen. lia.
Qed.

(** ** The order of the calls *)

Ltac pick_compress_prefix :=
  lazymatch goal with
  | |- exists pre, _ /\ (([?a; ?b; UltraHdr.CallEncode ?c] = pre /\ _) \/ _) =>
      exists [a; b]
  | |- exists pre, _ /\ (([?a; UltraHdr.CallEncode ?c] = pre /\ _) \/ _) =>
      exists [a]
  | |- exists pre, _ /\ (([UltraHdr.CallEncode ?c] = pre /\ _) \/ _) =>
      exists []
  | |- exists pre, _ /\ ((?l = pre /\ _) \/ _) => exists l
  end.

(** The calls of the encode stage are compressions followed by at most one
    [encodeJPEGR]; the status and the destination the stage ends with are
    those of that call, or [UNKNOWN_ERROR] and the untouched structure. *)
Lemma encode_stage_trace (env : Driver.environment)
    (muxSwitch quality tf yuv420Cg : Z)
    (p010Img yuv420Img grayImg : UltraHdr.jpegr_uncompressed_struct)
    (jpegImgR : UltraHdr.jpegr_compressed_struct) :
  forall status dest calls,
    Driver.encode_stage env muxSwitch quality tf yuv420Cg p010Img yuv420Img
      grayImg jpegImgR = (status, dest, calls) ->
    exists pre,
      Forall is_compress pre
      /\ ((calls = pre /\ status = UltraHdr.UNKNOWN_ERROR)
          \/ exists c,
               calls = pre ++ [UltraHdr.CallEncode c]
               /\ Driver.encodeJPEGR env c = (status, dest)).
Proof.
  intros status dest calls. unfold Driver.encode_stage, Driver.do_encode.
  repeat match goal with
         | |- context [?a =? ?b] => destruct (a =? b)
         | |- context [Driver.compressImage ?e ?a ?b ?c ?d ?f] =>
             destruct (Driver.compressImage e a b c d f)
         | |- context [Driver.encodeJPEGR ?e ?c] =>
             let E := fresh "E" in
             destruct (Driver.encodeJPEGR e c) eqn:E
         end;
    intros H; injection H as <- <- <-;
    pick_compress_prefix;
    (split; [repeat constructor|]);
    first [ left; split; reflexivity
          | right; eexists; split; [reflexivity | eassumption] ].
Qed.

Lemma decode_stage_calls (status width height of_ : Z)
    (jpegImgR : UltraHdr.jpegr_compressed_struct) (d d' : Fdp.t)
    (calls : list UltraHdr.api_call) :
  Driver.decode_stage status width height of_ jpegImgR d = Run.Ok (calls, d') ->
  (status <> UltraHdr.OK /\ calls = [])
  \/ (status = UltraHdr.OK
      /\ exists u,
           0 <= u < 4294967296
           /\ calls = [UltraHdr.CallDecode jpegImgR
                         (UltraHdr.buffer
                            (CInt.to_size_t
                               (Driver.imul (Driver.imul width height) 8))
                            Mem.zeroed)
                         (boost_of u) of_;
                       UltraHdr.CallGetInfo jpegImgR]).
Proof.
  unfold Driver.decode_stage.
  destruct (Z.eqb_spec status UltraHdr.OK) as [E|N].
  - destruct (ConsumeFloatingPointInRange_spec d) as (u & d1 & Eu & Hu & _).
    rewrite (bind_Ok _ _ _ _ _ Eu). intros H. injection H as <- <-.
    right. split; [exact E|]. exists u. split; [exact Hu | reflexivity].
  - intros H. injection H as <- <-. left. split; [exact N | reflexivity].
Qed.

(** X2: in every iteration [process] goes through, the calls into the
    codec come in this order: [compressImage] calls, then at most one
    [encodeJPEGR] call, then -- exactly when that call returned
    [android::OK] -- [decodeJPEGR] on the structure the encoder left, with
    the drawn output format, and [getJPEGRInfo] on the same structure.
    Without a successful [encodeJPEGR] call nothing is decoded. *)
Theorem X2_calls_follow_protocol (env : Driver.environment) (d : Fdp.t) :
  exists its,
    Driver.process env d = Run.Ok its
    /\ Forall (fun it => iteration_protocol env (fst it) (snd it)) its.
Proof.
  destruct (process_forall env
              (fun it => iteration_protocol env (fst it) (snd it))) with (d := d)
    as (its & E & H & _); [|eauto].
  clear d. intros d it d' Hit.
  destruct (process_iteration_unfold env d)
    as (p & d1 & im & d2 & status & dest & calls & calls' & d3
        & _ & _ & _ & Es & Ed & Ei).
  rewrite Ei in Hit. injection Hit as <- <-. cbn [fst snd].
  destruct (encode_stage_trace env _ _ _ _ _ _ _ _ _ _ _ Es)
    as (pre & Hpre & Hc).
  exists pre. split; [exact Hpre|].
  destruct (decode_stage_calls _ _ _ _ _ _ _ _ Ed)
    as [(Hs & ->) | (Hs & u & _ & ->)]; rewrite ?app_nil_r.
  - destruct Hc as [(-> & _) | (c & -> & Ec)].
    + left. reflexivity.
    + right. left. exists c, status, dest. auto.
  - destruct Hc as [(_ & Hu) | (c & -> & Ec)].
    + rewrite Hs in Hu. discriminate.
    + right. right. rewrite Hs in Ec.
      eexists c, dest, _, _. split; [exact Ec|].
      rewrite <- app_assoc. reflexivity.
Qed.

(** ** What [fill420Buffer] writes *)

Lemma shuffled_succ (shuffle : forall A : Type, list A -> list A)
    (k : nat) (buffer : list Z) :
  shuffled shuffle (S k) buffer = shuffled shuffle k (shuffle Z buffer).
Proof. unfold shuffled. apply Nat.iter_succ_r. Qed.

Lemma run_cons (m : Mem.memory) (c : Mem.memcpy_call)
    (ops : list Mem.memcpy_call) :
  Mem.run m (c :: ops) = Mem.run (Mem.memcpy m c) ops.
Proof. reflexivity. Qed.

Lemma run_app (m : Mem.memory) (ops1 ops2 : list Mem.memcpy_call) :
  Mem.run m (ops1 ++ ops2) = Mem.run (Mem.run m ops1) ops2.
Proof. unfold Mem.run. apply fold_left_app. Qed.

(** From index [i] on, the loop of [fill420Buffer] leaves at every offset
    [a] in [[i, size)] the byte of the buffer as shuffled [(a - i) / 16]
    times. *)
Lemma fill420_loop_content
    (shuffle : forall A : Type, list A -> list A) (fuel : nat) :
  forall buffer size i m,
    0 <= i -> i mod 16 = 0 -> size <= loop_limit ->
    size - i <= 16 * Z.of_nat fuel ->
    forall a, i <= a < size ->
      Mem.run m (fst (Fill.fill420_loop shuffle fuel buffer size i)) a
      = nth (Z.to_nat ((a - i) mod 16))
          (shuffled shuffle (Z.to_nat ((a - i) / 16)) buffer) 0.
Proof.
  induction fuel as [|f IH]; intros buffer size i m Hi Hm Hs Hf a Ha.
  - lia.
  - pose proof Hs as Hs'. unfold loop_limit, CInt.INT_MAX in Hs'.
    cbn [Fill.fill420_loop].
    assert (E : (i <? size) = true) by (apply Z.ltb_lt; lia).
    rewrite E.
    rewrite (to_int_small (i + 16)) by (apply in_int_intro; lia).
    rewrite (to_int_small (size - i)) by (apply in_int_intro; lia).
    rewrite to_size_t_small by lia.
    assert (Hm' : (i + 16) mod 16 = 0).
    { rewrite <- Zplus_mod_idemp_l, Hm. reflexivity. }
    destruct (fill420_loop_spec shuffle f (shuffle Z buffer) size (i + 16))
      as (ops & b' & Eo & _ & Hl); [lia | exact Hm' | exact Hs | lia |].
    specialize (IH (shuffle Z buffer) size (i + 16)).
    rewrite Eo in IH |- *. cbn [fst] in IH |- *.
    rewrite run_cons.
    destruct (Z_lt_le_dec a (i + 16)) as [Hlt|Hge].
    + rewrite run_frame.
      * unfold Mem.memcpy, Mem.covers. cbn [Mem.mc_dst Mem.mc_n Mem.mc_src].
        assert (E1 : (i <=? a) = true) by (apply Z.leb_le; lia).
        assert (E2 : (a <? i + Z.min 16 (size - i)) = true)
          by (apply Z.ltb_lt; lia).
        rewrite E1, E2. cbn [andb].
        rewrite Z.mod_small, Z.div_small by lia. reflexivity.
      * eapply Forall_impl; [|exact Hl]. intros c Hc. cbv beta in Hc.
        apply (covers_outside c (i + 16) (Mem.mc_dst c + Mem.mc_n c)); lia.
    + rewrite (IH _ ltac:(lia) Hm' Hs ltac:(lia) a ltac:(lia)).
      replace (a - i) with ((a - (i + 16)) + 1 * 16) by ring.
      rewrite Z_mod_plus_full, Z_div_plus_full by lia.
      assert (0 <= (a - (i + 16)) / 16) by (apply Z.div_pos; lia).
      rewrite Z2Nat.inj_add by lia.
      change (Z.to_nat 1) with 1%nat. rewrite Nat.add_1_r, shuffled_succ.
      reflexivity.
Qed.

(** X3: for [size <= INT_MAX - 15] a call [fill420Buffer(data, size)]
    ends and overwrites every byte of [[0, size)], whatever the buffer held:
    the byte at offset [a] is the byte [a mod 16] of the 16-byte seed after
    [a / 16] rounds of [std::shuffle]. *)
Theorem X3_fill420Buffer_fills_the_buffer
    (shuffle : forall A : Type, list A -> list A)
    (fuel : nat) (size : Z) (d : Fdp.t) :
  size <= CInt.INT_MAX - 15 -> size <= 16 * Z.of_nat fuel ->
  exists ops buffer' d',
    Fill.fill420Buffer shuffle fuel size d = (ops, Some buffer', d')
    /\ forall (m : Mem.memory) (a : Z),
         0 <= a < size ->
         Mem.run m ops a = pattern420 shuffle (fst (Fill.fill420_seed d)) a.
Proof.
  intros Hs Hf.
  destruct (fill420Buffer_spec shuffle fuel size d Hs Hf)
    as (ops & b' & d' & E & _ & _).
  exists ops, b', d'. split; [exact E|].
  intros m a Ha. unfold Fill.fill420Buffer in E.
  destruct (Fill.fill420_seed d) as [seed d1]. cbn [fst].
  pose proof (fill420_loop_content shuffle fuel seed size 0 m
                ltac:(lia) eq_refl Hs ltac:(lia) a ltac:(lia)) as H.
  injection E as E1 _. rewrite E1 in H. cbn [fst] in H.
  rewrite Z.sub_0_r in H. exact H.
Qed.

Lemma X3_fill420Buffer_fills_the_buffer_witness :
  exists ops buffer' d',
    Fill.fill420Buffer (fun _ l => rev l) 3 40 [x0a; x0b; x0c]
    = (ops, Some buffer', d')
    /\ forall (m : Mem.memory) (a : Z),
         0 <= a < 40 ->
         Mem.run m ops a
         = pattern420 (fun _ l => rev l)
             (fst (Fill.fill420_seed [x0a; x0b; x0c])) a.
Proof.
  apply (X3_fill420Buffer_fills_the_buffer (fun _ l => rev l) 3 40
           [x0a; x0b; x0c]).
  - unfold CInt.INT_MAX. lia.
  - simpl. lia.
Defined.

(** ** What [fill420Buffer] takes from the provider *)

Lemma byte_val_range (b : byte) : 0 <= Fdp.byte_val b < 256.
Proof.
  unfold Fdp.byte_val. pose proof (Byte.to_N_bounded b). lia.
Qed.

Lemma ConsumeData_16 (d : Fdp.t) :
  Fdp.ConsumeData 16 d = (map Fdp.byte_val (firstn 16 d), skipn 16 d).
Proof.
  unfold Fdp.ConsumeData, Fdp.remaining_bytes.
  destruct (Nat.le_gt_cases 16 (length d)) as [Hge|Hlt].
  - replace (Z.to_nat (Z.min 16 (Z.of_nat (length d)))) with 16%nat by lia.
    reflexivity.
  - replace (Z.to_nat (Z.min 16 (Z.of_nat (length d)))) with (length d) by lia.
    rewrite firstn_all, skipn_all.
    rewrite (firstn_all2 d) by lia. rewrite (skipn_all2 d) by lia.
    reflexivity.
Qed.

(** X4: whatever [size] is, [fill420Buffer] takes the first
    [min(16, remaining)] bytes of the provider's window; its 16-byte seed
    is made of those bytes in order, padded with zeros; and when
    [size <= 0] it makes no copy at all, the bytes being consumed all the
    same. *)
Theorem X4_fill420Buffer_consumes_sixteen_bytes
    (shuffle : forall A : Type, list A -> list A)
    (fuel : nat) (size : Z) (d : Fdp.t) :
  let seed := fst (Fill.fill420_seed d) in
  snd (Fill.fill420Buffer shuffle fuel size d) = skipn 16 d
  /\ seed = map Fdp.byte_val (firstn 16 d)
            ++ repeat 0 (16 - Nat.min 16 (length d))
  /\ length seed = 16%nat
  /\ Forall (fun b => 0 <= b < 256) seed
  /\ (size <= 0 ->
      fst (Fill.fill420Buffer shuffle fuel size d) = ([], Some seed)).
Proof.
  cbv zeta. unfold Fill.fill420Buffer, Fill.fill420_seed.
  rewrite ConsumeData_16. cbn [fst snd].
  rewrite length_map, length_firstn.
  split; [reflexivity|]. split; [reflexivity|]. split.
  { rewrite length_app, length_map, length_firstn, repeat_length. lia. }
  split.
  { apply Forall_app. split.
    - apply Forall_forall. intros b Hb. apply in_map_iff in Hb.
      destruct Hb as (x & <- & _). apply byte_val_range.
    - apply Forall_forall. intros b Hb. apply repeat_spec in Hb. lia. }
  intros Hs.
  assert (E : (0 <? size) = false) by (apply Z.ltb_ge; lia).
  destruct fuel; cbn [Fill.fill420_loop]; rewrite E; reflexivity.
Qed.

(** ** What [fillP010Buffer] writes *)

Lemma p010_row_exists
    (shuffle : forall A : Type, list A -> list A) (fuel : nat) :
  forall buffer width i,
    0 <= i -> i mod 16 = 0 -> width <= loop_limit ->
    width - i <= 16 * Z.of_nat fuel ->
    forall col, i <= col < width -> col mod 16 = 0 ->
      Exists (fun c => Mem.mc_dst c = 2 * col
                       /\ Mem.mc_n c = Z.min 16 (width - col))
        (fst (Fill.p010_row shuffle fuel buffer width i)).
Proof.
  induction fuel as [|f IH]; intros buffer width i Hi Hm Hs Hf col Hc Hcm.
  - lia.
  - pose proof Hs as Hs'. unfold loop_limit, CInt.INT_MAX in Hs'.
    cbn [Fill.p010_row].
    assert (E : (i <? width) = true) by (apply Z.ltb_lt; lia).
    rewrite E.
    rewrite (to_int_small (i + 16)) by (apply in_int_intro; lia).
    rewrite (to_int_small (width - i)) by (apply in_int_intro; lia).
    rewrite to_size_t_small by lia.
    assert (Hm' : (i + 16) mod 16 = 0).
    { rewrite <- Zplus_mod_idemp_l, Hm. reflexivity. }
    specialize (IH (shuffle Z buffer) width (i + 16)).
    destruct (Fill.p010_row shuffle f (shuffle Z buffer) width (i + 16))
      as [ops out].
    cbn [fst] in IH |- *.
    destruct (Z.eq_dec col i) as [->|Hne].
    + apply Exists_cons_hd. cbn. split; reflexivity.
    + apply Exists_cons_tl.
      apply IH; try assumption; try lia.
      pose proof (Z.div_mod col 16 ltac:(lia)).
      pose proof (Z.div_mod i 16 ltac:(lia)). lia.
Qed.

Lemma p010_rows_footprint
    (shuffle : forall A : Type, list A -> list A) (rows fuel : nat) :
  forall buffer width stride tmp,
    width <= loop_limit -> width <= 16 * Z.of_nat fuel ->
    exists ops,
      Fill.p010_rows shuffle rows fuel buffer width stride tmp
      = (ops, Some (tmp + 2 * stride * Z.of_nat rows))
      /\ Forall (copyP010_made width) ops
      /\ (rows = 0%nat -> ops = [])
      /\ (rows <> 0%nat ->
          forall col, 0 <= col < width -> col mod 16 = 0 ->
            Exists (fun c => Mem.mc_dst c = 2 * col
                             /\ Mem.mc_n c = Z.min 16 (width - col)) ops).
Proof.
  induction rows as [|r IH]; intros buffer width stride tmp Hs Hf;
    cbn [Fill.p010_rows].
  - exists []. split; [f_equal; f_equal; simpl; lia|].
    split; [constructor|]. split; [reflexivity | intros H; contradiction].
  - pose proof (p010_row_exists shuffle fuel buffer width 0
                  ltac:(lia) eq_refl Hs ltac:(lia)) as Hex.
    destruct (p010_row_spec shuffle fuel buffer width 0)
      as (ops & b' & E & Ho); [lia | reflexivity | exact Hs | lia |].
    rewrite E in Hex |- *. cbn [fst] in Hex.
    destruct (IH b' width stride (tmp + 2 * stride) Hs Hf)
      as (ops' & -> & Ho' & _ & _).
    exists (ops ++ ops'). split; [f_equal; f_equal; lia|].
    split; [apply Forall_app; split; assumption|].
    split; [discriminate|].
    intros _ col Hc Hcm. apply Exists_app. left. apply Hex; assumption.
Qed.

Lemma copyP010_covers (width : Z) (c : Mem.memcpy_call) (a : Z) :
  copyP010_made width c -> Mem.covers c a = true ->
  exists col,
    0 <= col < width /\ col mod 16 = 0
    /\ 2 * col <= a < 2 * col + Z.min 16 (width - col).
Proof.
  intros (col & H1 & H2 & Hd & Hn) Hc. exists col.
  unfold Mem.covers in Hc. rewrite Hd, Hn in Hc.
  apply andb_prop in Hc. destruct Hc as [Hc1 Hc2].
  apply Z.leb_le in Hc1. apply Z.ltb_lt in Hc2. auto.
Qed.

(** X5: for [width <= INT_MAX - 15] a call
    [fillP010Buffer(data, width, height, stride)] ends with [tmp] advanced
    by [stride] elements per row, but the bytes it overwrites are exactly
    those of [p010_written]: with at least one row, the first
    [min(16, width - col)] bytes after [data + col] for each column [col]
    that is a multiple of 16 -- all in the first row, and independent of
    [height] and [stride].  Every other byte keeps its value; with
    [height <= 0] nothing is written. *)
Theorem X5_fillP010Buffer_footprint
    (shuffle : forall A : Type, list A -> list A)
    (fuel : nat) (width height stride : Z) (d : Fdp.t) :
  width <= CInt.INT_MAX - 15 -> width <= 16 * Z.of_nat fuel ->
  exists ops d',
    Fill.fillP010Buffer shuffle fuel width height stride d
    = Some (ops, Some (2 * stride * Z.max 0 height), d')
    /\ (forall a,
          Exists (fun c => Mem.covers c a = true) ops
          <-> p010_written width height a)
    /\ (forall (m : Mem.memory) (a : Z),
          ~ p010_written width height a -> Mem.run m ops a = m a).
Proof.
  intros Hs Hf. unfold Fill.fillP010Buffer.
  destruct (draw_samples_spec 16 d) as (buffer & d' & -> & _).
  destruct (p010_rows_footprint shuffle (Z.to_nat height) fuel buffer width
              stride 0 Hs Hf) as (ops & E & Ho & H0 & Hex).
  rewrite E. exists ops, d'.
  split; [f_equal; f_equal; f_equal; f_equal; lia|].
  assert (Hiff : forall a,
             Exists (fun c => Mem.covers c a = true) ops
             <-> p010_written width height a).
  { intros a. split.
    - intros Hx. apply Exists_exists in Hx. destruct Hx as (c & Hin & Hc).
      rewrite Forall_forall in Ho.
      split.
      + destruct (Z_lt_le_dec height 1) as [Hlt|]; [|assumption].
        rewrite H0 in Hin by lia. contradiction.
      + exact (copyP010_covers width c a (Ho c Hin) Hc).
    - intros (Hh & col & Hc & Hcm & Ha).
      specialize (Hex ltac:(lia) col Hc Hcm).
      eapply Exists_impl; [|exact Hex].
      intros c (Hd & Hn). unfold Mem.covers. rewrite Hd, Hn.
      apply andb_true_intro. split; [apply Z.leb_le | apply Z.ltb_lt]; lia. }
  split; [exact Hiff|].
  intros m a Hn. apply run_frame. apply Forall_forall. intros c Hin.
  destruct (Mem.covers c a) eqn:Hc; [|reflexivity].
  exfalso. apply Hn, Hiff, Exists_exists. eauto.
Qed.

Lemma X5_fillP010Buffer_footprint_witness :
  exists ops d',
    Fill.fillP010Buffer (fun _ l => rev l) 2 24 3 30 [x01; x02]
    = Some (ops, Some (2 * 30 * Z.max 0 3), d')
    /\ (forall a,
          Exists (fun c => Mem.covers c a = true) ops
          <-> p010_written 24 3 a)
    /\ (forall (m : Mem.memory) (a : Z),
          ~ p010_written 24 3 a -> Mem.run m ops a = m a).
Proof.
  apply (X5_fillP010Buffer_footprint (fun _ l => rev l) 2 24 3 30 [x01; x02]).
  - unfold CInt.INT_MAX. lia.
  - simpl. lia.
Defined.

(** ** The samples of [fillP010Buffer] *)

(** A draw from a range that fits [k] bytes takes at most [k] bytes. *)
Lemma consume_bytes_at_most (n : nat) :
  forall bits range result offset d r d' (k : nat),
    Z.shiftr range (offset + 8 * Z.of_nat k) = 0 ->
    Fdp.consume_bytes n bits range result offset d = (r, d') ->
    (length d <= length d' + k)%nat.
Proof.
  induction n as [|n IH]; intros bits range result offset d r d' k Hk H;
    cbn [Fdp.consume_bytes] in H.
  - injection H as _ <-. lia.
  - destruct ((offset <? bits) && (0 <? Z.shiftr range offset)) eqn:C.
    + destruct k as [|k].
      { replace (offset + 8 * Z.of_nat 0) with offset in Hk by lia.
        rewrite Hk in C. rewrite andb_false_r in C. discriminate. }
      destruct (Fdp.pop_back d) as [[b d1]|] eqn:E.
      * apply pop_back_length in E.
        apply (IH _ _ _ _ _ _ _ k) in H; [lia|].
        replace (offset + 8 + 8 * Z.of_nat k)
          with (offset + 8 * Z.of_nat (S k)) by lia.
        exact Hk.
      * injection H as _ <-. lia.
    + injection H as _ <-. lia.
Qed.

Lemma draw_sample_spec (d : Fdp.t) :
  exists v d',
    Fdp.ConsumeIntInRange 0 (Z.shiftl 1 10 - 1) d = Some (v, d')
    /\ ten_bit (CInt.to_uint16 v)
    /\ (length d' <= length d <= length d' + 2)%nat.
Proof.
  destruct (ConsumeIntInRange_spec 0 (Z.shiftl 1 10 - 1)
              ltac:(const_int) ltac:(const_int)
              ltac:(vm_compute; discriminate) d)
    as (v & d' & E & Hv & L & _).
  exists v, d'. split; [exact E|]. split.
  - change (Z.shiftl 1 10 - 1) with 1023 in Hv.
    unfold ten_bit, CInt.to_uint16, CInt.to_unsigned.
    change (2 ^ 16) with 65536. rewrite Z.mod_small; lia.
  - split; [exact L|].
    unfold Fdp.ConsumeIntInRange, Fdp.ConsumeIntegralInRange in E.
    change (Z.shiftl 1 10 - 1 <? 0) with false in E. cbv iota in E.
    change (CInt.to_uint64
              (CInt.to_uint64 (Z.shiftl 1 10 - 1) - CInt.to_uint64 0))
      with 1023 in E.
    destruct (Fdp.consume_bytes 8 32 1023 0 0 d) as [r d1] eqn:Hc.
    injection E as _ <-.
    exact (consume_bytes_at_most 8 32 1023 0 0 d r d1 2 eq_refl Hc).
Qed.

Lemma draw_samples_ten_bit (n : nat) :
  forall d, exists l d',
    Fill.draw_samples n d = Some (l, d')
    /\ Forall ten_bit l /\ length l = n
    /\ (length d' <= length d <= length d' + 2 * n)%nat.
Proof.
  induction n as [|n IH]; intros d; cbn [Fill.draw_samples].
  - exists [], d. split; [reflexivity|]. split; [constructor|].
    split; [reflexivity | lia].
  - destruct (draw_sample_spec d) as (v & d1 & -> & Hv & L1).
    destruct (IH d1) as (l & d2 & -> & Hl & Hn & L2).
    eexists _, d2. split; [reflexivity|]. split; [constructor; assumption|].
    split; [simpl; lia | lia].
Qed.

Section P010Sources.

Variable shuffle : forall A : Type, list A -> list A.
Variable P : Z -> Prop.
Hypothesis shuffle_keeps : forall l, Forall P l -> Forall P (shuffle Z l).

Lemma p010_row_sources (fuel : nat) :
  forall buffer width i,
    Forall P buffer ->
    Forall (source_of_samples P) (fst (Fill.p010_row shuffle fuel buffer width i))
    /\ forall b',
         snd (Fill.p010_row shuffle fuel buffer width i) = Some b' ->
         Forall P b'.
Proof.
  induction fuel as [|f IH]; intros buffer width i Hb; cbn [Fill.p010_row].
  - split; [constructor|]. destruct (i <? width); cbn [snd]; intros b' H;
      [discriminate | injection H as <-; exact Hb].
  - destruct (i <? width).
    + specialize (IH (shuffle Z buffer) width (CInt.to_int (i + 16))
                    (shuffle_keeps buffer Hb)).
      destruct (Fill.p010_row shuffle f (shuffle Z buffer) width
                  (CInt.to_int (i + 16))) as [ops out].
      cbn [fst snd] in IH |- *. destruct IH as [IH1 IH2].
      split; [|exact IH2].
      constructor; [|exact IH1]. exists buffer. split; [exact Hb | reflexivity].
    + cbn [fst snd]. split; [constructor|].
      intros b' H. injection H as <-. exact Hb.
Qed.

Lemma p010_rows_sources (rows fuel : nat) :
  forall buffer width stride tmp,
    Forall P buffer ->
    Forall (source_of_samples P)
      (fst (Fill.p010_rows shuffle rows fuel buffer width stride tmp)).
Proof.
  induction rows as [|r IH]; intros buffer width stride tmp Hb;
    cbn [Fill.p010_rows].
  - constructor.
  - destruct (p010_row_sources fuel buffer width 0 Hb) as [H1 H2].
    destruct (Fill.p010_row shuffle fuel buffer width 0) as [ops [b'|]].
    + cbn [fst snd] in H1, H2.
      specialize (IH b' width stride (tmp + 2 * stride) (H2 b' eq_refl)).
      destruct (Fill.p010_rows shuffle r fuel b' width stride
                  (tmp + 2 * stride)) as [ops' out].
      cbn [fst] in IH |- *. apply Forall_app. split; assumption.
    + exact H1.
Qed.

End P010Sources.

(** X6: the 16 samples [fillP010Buffer] draws are 10-bit values and cost
    the provider at most 32 bytes, whatever the dimensions are; and when
    [std::shuffle] only rearranges the buffer, the source of every copy is
    the object representation of 10-bit samples. *)
Theorem X6_fillP010Buffer_samples
    (shuffle : forall A : Type, list A -> list A)
    (fuel : nat) (width height stride : Z) (d : Fdp.t) :
  (forall l, Forall ten_bit l -> Forall ten_bit (shuffle Z l)) ->
  exists ops out d',
    Fill.fillP010Buffer shuffle fuel width height stride d
    = Some (ops, out, d')
    /\ Forall (source_of_samples ten_bit) ops
    /\ (length d' <= length d <= length d' + 32)%nat.
Proof.
  intros Hsh. unfold Fill.fillP010Buffer.
  destruct (draw_samples_ten_bit 16 d) as (buffer & d' & -> & Hb & _ & L).
  pose proof (p010_rows_sources shuffle ten_bit Hsh (Z.to_nat height) fuel
                buffer width stride 0 Hb) as Hs.
  destruct (Fill.p010_rows shuffle (Z.to_nat height) fuel buffer width
              stride 0) as [ops out].
  exists ops, out, d'. split; [reflexivity|]. split; [exact Hs | lia].
Qed.

Lemma X6_fillP010Buffer_samples_witness :
  exists ops out d',
    Fill.fillP010Buffer (fun _ l => rev l) 2 24 3 30 [x01; x02]
    = Some (ops, out, d')
    /\ Forall (source_of_samples ten_bit) ops
    /\ (length d' <= length [x01; x02] <= length d' + 32)%nat.
Proof.
  apply (X6_fillP010Buffer_samples (fun _ l => rev l) 2 24 3 30 [x01; x02]).
  intros l Hl. apply Forall_rev. exact Hl.
Defined.

(** ** The images of an iteration, in detail *)

Lemma fill420_seed_shape (d : Fdp.t) :
  length (fst (Fill.fill420_seed d)) = 16%nat
  /\ Forall (fun b => 0 <= b < 256) (fst (Fill.fill420_seed d)).
Proof.
  unfold Fill.fill420_seed. rewrite ConsumeData_16. cbn [fst].
  rewrite length_map, length_firstn. split.
  - rewrite length_app, length_map, length_firstn, repeat_length. lia.
  - apply Forall_app. split.
    + apply Forall_forall. intros b Hb. apply in_map_iff in Hb.
      destruct Hb as (x & <- & _). apply byte_val_range.
    + apply Forall_forall. intros b Hb. apply repeat_spec in Hb. lia.
Qed.

Section ImagesDetail.

Variable env : Driver.environment.

Lemma call_fill420Buffer_content (size : Z) (d : Fdp.t) :
  size <= loop_limit ->
  exists ops d' seed,
    Driver.call_fill420Buffer env size d = Run.Ok (ops, d')
    /\ length seed = 16%nat
    /\ Forall (fun b => 0 <= b < 256) seed
    /\ forall (m : Mem.memory) (a : Z),
         0 <= a < size ->
         Mem.run m ops a = pattern420 (Driver.shuffle env) seed a.
Proof.
  intros Hs. unfold Driver.call_fill420Buffer.
  pose proof (turns_enough size) as Hf.
  destruct (fill420Buffer_spec (Driver.shuffle env) (Driver.turns size)
              size d Hs Hf) as (ops & b' & d' & E & _ & _).
  rewrite E. exists ops, d', (fst (Fill.fill420_seed d)).
  split; [reflexivity|].
  destruct (fill420_seed_shape d) as [H1 H2].
  split; [exact H1|]. split; [exact H2|].
  intros m a Ha. unfold Fill.fill420Buffer in E.
  destruct (Fill.fill420_seed d) as [seed d1]. cbn [fst].
  pose proof (fill420_loop_content (Driver.shuffle env) (Driver.turns size)
                seed size 0 m ltac:(lia) eq_refl Hs ltac:(lia) a ltac:(lia))
    as H.
  injection E as E1 _. rewrite E1 in H. cbn [fst] in H.
  rewrite Z.sub_0_r in H. exact H.
Qed.

Lemma call_fillP010Buffer_footprint (off width height stride : Z)
    (d : Fdp.t) :
  width <= loop_limit ->
  exists ops d',
    Driver.call_fillP010Buffer env off width height stride d
    = Run.Ok (ops, d')
    /\ Forall (fun c => off <= Mem.mc_dst c
                        /\ Mem.mc_dst c + Mem.mc_n c < off + 2 * width) ops.
Proof.
  intros Hw. unfold Driver.call_fillP010Buffer.
  destruct (fillP010Buffer_spec (Driver.shuffle env) (Driver.turns width)
              width height stride d Hw (turns_enough width))
    as (ops & tmp' & d' & -> & Ho & _).
  eexists _, d'. split; [reflexivity|].
  apply Forall_map. eapply Forall_impl; [|exact Ho].
  intros c Hc. destruct (copyP010_footprint width c Hc) as [H1 H2].
  cbn [Driver.shift_call Mem.mc_dst Mem.mc_n]. lia.
Qed.

Lemma run_zeroed_outside (ops : list Mem.memcpy_call) (a : Z) :
  Forall (fun c => Mem.covers c a = false) ops ->
  Mem.run Mem.zeroed ops a = 0.
Proof. intros H. rewrite run_frame by exact H. reflexivity. Qed.

Lemma footprint_misses (ops : list Mem.memcpy_call) (lo hi a : Z) :
  Forall (fun c => lo <= Mem.mc_dst c /\ Mem.mc_dst c + Mem.mc_n c < hi) ops ->
  ~ lo <= a < hi ->
  Forall (fun c => Mem.covers c a = false) ops.
Proof.
  intros H Ha. eapply Forall_impl; [|exact H].
  intros c [H1 H2]. apply (covers_outside c lo hi); lia.
Qed.

Lemma init_p010_detail (width height p010Cg : Z) (d : Fdp.t) :
  8 <= width <= 7680 -> 8 <= height <= 4320 ->
  exists img d',
    Driver.init_p010 env width height p010Cg d = Run.Ok (img, d')
    /\ p010_layout width height img
    /\ p010_mostly_zero width height img
    /\ UltraHdr.u_colorGamut img = p010Cg.
Proof.
  intros Hw Hh. unfold Driver.init_p010.
  assert (Hl : width <= loop_limit) by (unfold loop_limit, CInt.INT_MAX; lia).
  destruct (lift_ConsumeBool_spec d) as (uvc & d1 & E1 & _).
  rewrite (bind_Ok _ _ _ _ _ E1).
  destruct (lift_ConsumeBool_spec d1) as (hys & d2 & E2 & _).
  rewrite (bind_Ok _ _ _ _ _ E2).
  assert (Hy : exists yStride d3,
             (if hys then Driver.draw width (CInt.to_int (width + 128))
              else Run.ret width) d2 = Run.Ok (yStride, d3)
             /\ width <= yStride <= width + 128
             /\ (hys = false -> yStride = width)).
  { destruct hys.
    - rewrite to_int_small by (apply in_int_intro; lia).
      destruct (draw_spec width (width + 128) d2) as (v & d3 & E & R & _);
        try (apply in_int_intro; lia); [lia|].
      exists v, d3. split; [exact E|]. split; [exact R | discriminate].
    - exists width, d2. split; [reflexivity|]. split; [lia | reflexivity]. }
  destruct Hy as (yStride & d3 & E3 & Ry & Hyw).
  rewrite (bind_Ok _ _ _ _ _ E3).
  set (luma := if hys then yStride else 0).
  assert (He : effective_stride luma width = yStride).
  { unfold effective_stride, luma. destruct hys.
    - assert (E : (yStride =? 0) = false) by (apply Z.eqb_neq; lia).
      rewrite E. reflexivity.
    - rewrite (Hyw eq_refl). reflexivity. }
  assert (Hls : luma = 0 \/ width <= luma <= width + 128).
  { unfold luma. destruct hys; [right; exact Ry | left; reflexivity]. }
  assert (Hyh : 0 <= yStride * height <= 33730560) by nia.
  destruct uvc.
  - destruct (call_fillP010Buffer_footprint 0 width height yStride d3 Hl)
      as (y & d4 & E4 & Fy).
    rewrite (bind_Ok _ _ _ _ _ E4).
    destruct (call_fillP010Buffer_footprint
                (2 * Driver.imul yStride height) width (Z.quot height 2)
                yStride d4 Hl) as (uv & d5 & E5 & Fuv).
    rewrite (bind_Ok _ _ _ _ _ E5).
    rewrite (imul_small yStride height) in * by lia.
    rewrite (imul_small (yStride * height) 3) by lia.
    rewrite Z.quot_div_nonneg by lia.
    pose proof (Z.div_mod (yStride * height * 3) 2 ltac:(lia)).
    pose proof (Z.mod_pos_bound (yStride * height * 3) 2 ltac:(lia)).
    rewrite to_size_t_small by lia.
    eexists _, d5. split; [reflexivity|]. split; [|split; [|reflexivity]].
    + constructor; cbn [UltraHdr.u_width UltraHdr.u_height
                          UltraHdr.u_luma_stride UltraHdr.u_data
                          UltraHdr.u_chroma_data UltraHdr.u_chroma_stride];
        try reflexivity; [exact Hls|].
      cbv zeta. rewrite He. left. eexists. repeat split.
    + unfold p010_mostly_zero.
      cbn [UltraHdr.u_luma_stride UltraHdr.u_data UltraHdr.u_chroma_data].
      cbv zeta. rewrite He. intros a Ha1 Ha2.
      apply run_zeroed_outside, Forall_app. split.
      * apply (footprint_misses y 0 (0 + 2 * width)); [exact Fy | lia].
      * apply (footprint_misses uv (2 * (yStride * height))
                 (2 * (yStride * height) + 2 * width)); [exact Fuv | lia].
  - rewrite to_int_small by (apply in_int_intro; lia).
    destruct (draw_spec width (width + 128) d3) as (uvs & d4 & E4 & Ru & _);
      try (apply in_int_intro; lia); [lia|].
    rewrite (bind_Ok _ _ _ _ _ E4).
    destruct (call_fillP010Buffer_footprint 0 width height yStride d4 Hl)
      as (y & d5 & E5 & Fy).
    rewrite (bind_Ok _ _ _ _ _ E5).
    destruct (call_fillP010Buffer_footprint 0 width (Z.quot height 2) uvs d5 Hl)
      as (uv & d6 & E6 & Fuv).
    rewrite (bind_Ok _ _ _ _ _ E6).
    assert (Huh : 0 <= uvs * height <= 33730560) by nia.
    rewrite (imul_small yStride height) by lia.
    rewrite (imul_small uvs height) by lia.
    rewrite Z.quot_div_nonneg by lia.
    pose proof (Z.div_mod (uvs * height) 2 ltac:(lia)).
    pose proof (Z.mod_pos_bound (uvs * height) 2 ltac:(lia)).
    rewrite !to_size_t_small by lia.
    eexists _, d6. split; [reflexivity|]. split; [|split; [|reflexivity]].
    + constructor; cbn [UltraHdr.u_width UltraHdr.u_height
                          UltraHdr.u_luma_stride UltraHdr.u_data
                          UltraHdr.u_chroma_data UltraHdr.u_chroma_stride];
        try reflexivity; [exact Hls|].
      cbv zeta. rewrite He. right. eexists _, _.
      split; [reflexivity|]. split; [exact Ru | reflexivity].
    + unfold p010_mostly_zero.
      cbn [UltraHdr.u_luma_stride UltraHdr.u_data UltraHdr.u_chroma_data].
      intros a Ha. split; apply run_zeroed_outside.
      * apply (footprint_misses y 0 (0 + 2 * width)); [exact Fy | lia].
      * apply (footprint_misses uv 0 (0 + 2 * width)); [exact Fuv | lia].
Qed.

End ImagesDetail.

Lemma map_width_of_bounds (width : Z) :
  8 <= width <= 7680 ->
  16 <= Driver.map_width_of width <= 1920
  /\ Driver.map_width_of width mod 16 = 0.
Proof.
  intros Hw. rewrite map_width_of_eq by lia.
  assert (2 <= downscaled width <= 1920).
  { unfold downscaled, Driver.kScaleFactor.
    rewrite Z.quot_div_nonneg by lia.
    pose proof (Z.div_mod width 4 ltac:(lia)).
    pose proof (Z.mod_pos_bound width 4 ltac:(lia)). lia. }
  pose proof (Z.div_mod (downscaled width + 15) 16 ltac:(lia)).
  pose proof (Z.mod_pos_bound (downscaled width + 15) 16 ltac:(lia)).
  split; [lia|]. rewrite Z.mul_comm. apply Z_mod_mult.
Qed.

Lemma map_height_of_bounds (height : Z) :
  8 <= height <= 4320 ->
  2 <= Driver.map_height_of height <= 1080
  /\ Z.even (Driver.map_height_of height) = true.
Proof.
  intros Hh. rewrite map_height_of_eq by lia.
  assert (2 <= downscaled height <= 1080).
  { unfold downscaled, Driver.kScaleFactor.
    rewrite Z.quot_div_nonneg by lia.
    pose proof (Z.div_mod height 4 ltac:(lia)).
    pose proof (Z.mod_pos_bound height 4 ltac:(lia)). lia. }
  pose proof (Z.div_mod (downscaled height + 1) 2 ltac:(lia)).
  pose proof (Z.mod_pos_bound (downscaled height + 1) 2 ltac:(lia)).
  split; [lia|]. rewrite Z.even_mul. reflexivity.
Qed.

Section ImagesDetail2.

Variable env : Driver.environment.

Lemma init_420_detail (width height yuv420Cg : Z) (d : Fdp.t) :
  8 <= width <= 7680 -> 8 <= height <= 4320 ->
  exists img d',
    Driver.init_420 env width height yuv420Cg d = Run.Ok (img, d')
    /\ filled_image (Driver.shuffle env) width height
         (width * height * 3 / 2) yuv420Cg img.
Proof.
  intros Hw Hh. unfold Driver.init_420.
  assert (Hp : 0 <= width * height <= 33177600) by nia.
  rewrite (imul_small width height) by lia.
  rewrite imul_small by lia.
  rewrite Z.quot_div_nonneg by lia.
  pose proof (Z.div_mod (width * height * 3) 2 ltac:(lia)).
  pose proof (Z.mod_pos_bound (width * height * 3) 2 ltac:(lia)).
  rewrite to_size_t_small by lia.
  rewrite to_int_small by (apply in_int_intro; lia).
  destruct (call_fill420Buffer_content env (width * height * 3 / 2) d)
    as (ops & d1 & seed & E1 & Hs1 & Hs2 & Hc).
  { unfold loop_limit, CInt.INT_MAX. lia. }
  rewrite (bind_Ok _ _ _ _ _ E1).
  eexists _, d1. split; [reflexivity|].
  constructor; cbn; try reflexivity; [split; reflexivity|].
  exists seed, (Mem.run Mem.zeroed ops). split; [reflexivity|].
  split; [exact Hs1|]. split; [exact Hs2|]. intros a Ha. apply Hc. exact Ha.
Qed.

Lemma init_gray_detail (width height : Z) (d : Fdp.t) :
  8 <= width <= 7680 -> 8 <= height <= 4320 ->
  exists img d',
    Driver.init_gray env width height d = Run.Ok (img, d')
    /\ filled_image (Driver.shuffle env) (Driver.map_width_of width)
         (Driver.map_height_of height)
         (Driver.map_width_of width * Driver.map_height_of height)
         UltraHdr.ULTRAHDR_COLORGAMUT_UNSPECIFIED img.
Proof.
  intros Hw Hh. unfold Driver.init_gray.
  destruct (map_width_of_bounds width Hw) as [Hmw _].
  destruct (map_height_of_bounds height Hh) as [Hmh _].
  set (mw := Driver.map_width_of width) in *.
  set (mh := Driver.map_height_of height) in *.
  assert (Hp : 0 <= mw * mh <= 2073600) by nia.
  rewrite imul_small by lia.
  rewrite to_size_t_small by lia.
  rewrite to_int_small by (apply in_int_intro; lia).
  destruct (call_fill420Buffer_content env (mw * mh) d)
    as (ops & d1 & seed & E1 & Hs1 & Hs2 & Hc).
  { unfold loop_limit, CInt.INT_MAX. lia. }
  rewrite (bind_Ok _ _ _ _ _ E1).
  eexists _, d1. split; [reflexivity|].
  constructor; cbn; try reflexivity; [split; reflexivity|].
  exists seed, (Mem.run Mem.zeroed ops). split; [reflexivity|].
  split; [exact Hs1|]. split; [exact Hs2|]. intros a Ha. apply Hc. exact Ha.
Qed.

Lemma build_images_detail (p : Driver.parameters) (d : Fdp.t) :
  parameters_ok p ->
  exists im d',
    Driver.build_images env p d = Run.Ok (im, d') /\ images_ok env p im.
Proof.
  intros [_ _ _ _ Hw _ Hh].
  unfold Driver.kMinWidth, Driver.kMaxWidth, Driver.kMinHeight,
    Driver.kMaxHeight in *.
  unfold Driver.build_images.
  set (w := Driver.width p) in *. set (h := Driver.height p) in *.
  assert (Hp : 0 <= w * h <= 33177600) by nia.
  assert (Hmax : Z.max (Driver.imul 8 1024)
                   (Driver.imul (Driver.imul (Driver.imul w h) 3) 2)
                 = Z.max 8192 (6 * w * h)).
  { rewrite (imul_small w h) by lia. rewrite (imul_small (w * h) 3) by lia.
    rewrite (imul_small (w * h * 3) 2) by lia.
    change (Driver.imul 8 1024) with 8192. f_equal. ring. }
  rewrite Hmax. clear Hmax.
  assert (H1 : exists p010 gray d1,
             (if negb (Driver.muxSwitch p =? 4)
              then Run.bind (Driver.init_p010 env w h (Driver.p010Cg p))
                     (fun img => Run.ret (img, UltraHdr.uncompressed_zero))
              else Run.bind (Driver.init_gray env w h)
                     (fun img => Run.ret (UltraHdr.uncompressed_zero, img))) d
             = Run.Ok ((p010, gray), d1)
             /\ (Driver.muxSwitch p <> 4 ->
                 p010_layout w h p010 /\ p010_mostly_zero w h p010
                 /\ UltraHdr.u_colorGamut p010 = Driver.p010Cg p)
             /\ (Driver.muxSwitch p = 4 ->
                 filled_image (Driver.shuffle env) (Driver.map_width_of w)
                   (Driver.map_height_of h)
                   (Driver.map_width_of w * Driver.map_height_of h)
                   UltraHdr.ULTRAHDR_COLORGAMUT_UNSPECIFIED gray)).
  { destruct (Z.eqb_spec (Driver.muxSwitch p) 4) as [E|E]; cbn [negb].
    - destruct (init_gray_detail w h d Hw Hh) as (img & d1 & Ei & Hi).
      rewrite (bind_Ok _ _ _ _ _ Ei).
      exists UltraHdr.uncompressed_zero, img, d1.
      split; [reflexivity|]. split; [contradiction | intros _; exact Hi].
    - destruct (init_p010_detail env w h (Driver.p010Cg p) d Hw Hh)
        as (img & d1 & Ei & Hi).
      rewrite (bind_Ok _ _ _ _ _ Ei).
      exists img, UltraHdr.uncompressed_zero, d1.
      split; [reflexivity|]. split; [intros _; exact Hi | contradiction]. }
  destruct H1 as (p010 & gray & d1 & E1 & P1 & G1).
  rewrite (bind_Ok _ _ _ _ _ E1). cbv beta iota.
  assert (H2 : exists yuv d2,
             (if 0 <? Driver.muxSwitch p
              then Driver.init_420 env w h (Driver.yuv420Cg p)
              else Run.ret UltraHdr.uncompressed_zero) d1 = Run.Ok (yuv, d2)
             /\ (0 < Driver.muxSwitch p ->
                 filled_image (Driver.shuffle env) w h (w * h * 3 / 2)
                   (Driver.yuv420Cg p) yuv)).
  { destruct (Z.ltb_spec 0 (Driver.muxSwitch p)) as [E|E].
    - destruct (init_420_detail w h (Driver.yuv420Cg p) d1 Hw Hh)
        as (img & d2 & Ei & Hi).
      exists img, d2. split; [exact Ei | intros _; exact Hi].
    - exists UltraHdr.uncompressed_zero, d1. split; [reflexivity | lia]. }
  destruct H2 as (yuv & d2 & E2 & Y2).
  rewrite (bind_Ok _ _ _ _ _ E2).
  eexists _, d2. split; [reflexivity|].
  constructor; cbn [Driver.p010Img Driver.grayImg Driver.yuv420Img
                      Driver.jpegImgR]; try assumption.
  reflexivity.
Qed.

End ImagesDetail2.

(** The enumerators drawn at the top of an iteration. *)
Lemma draw_parameters_enumerators (d d' : Fdp.t) (p : Driver.parameters) :
  Driver.draw_parameters d = Run.Ok (p, d') -> enumerators_ok p.
Proof.
  unfold Driver.draw_parameters.
  destruct (draw_spec 0 4 d ltac:(const_int) ltac:(const_int) ltac:(lia))
    as (mux & d1 & E1 & _).
  destruct (draw_spec Driver.kQfMin Driver.kQfMax d1 ltac:(const_int)
              ltac:(const_int) ltac:(vm_compute; discriminate))
    as (q & d2 & E2 & _).
  destruct (draw_spec Driver.kTfMin Driver.kTfMax d2 ltac:(const_int)
              ltac:(const_int) ltac:(vm_compute; discriminate))
    as (t & d3 & E3 & _).
  destruct (draw_spec Driver.kCgMin Driver.kCgMax d3 ltac:(const_int)
              ltac:(const_int) ltac:(vm_compute; discriminate))
    as (c1 & d4 & E4 & R4 & _).
  destruct (draw_spec Driver.kCgMin Driver.kCgMax d4 ltac:(const_int)
              ltac:(const_int) ltac:(vm_compute; discriminate))
    as (c2 & d5 & E5 & R5 & _).
  destruct (draw_spec Driver.kOfMin Driver.kOfMax d5 ltac:(const_int)
              ltac:(const_int) ltac:(vm_compute; discriminate))
    as (o & d6 & E6 & R6 & _).
  destruct (draw_spec Driver.kMinWidth Driver.kMaxWidth d6 ltac:(const_int)
              ltac:(const_int) ltac:(vm_compute; discriminate))
    as (w & d7 & E7 & _).
  destruct (draw_spec Driver.kMinHeight Driver.kMaxHeight d7 ltac:(const_int)
              ltac:(const_int) ltac:(vm_compute; discriminate))
    as (h & d8 & E8 & _).
  rewrite (bind_Ok _ _ _ _ _ E1), (bind_Ok _ _ _ _ _ E2),
    (bind_Ok _ _ _ _ _ E3), (bind_Ok _ _ _ _ _ E4), (bind_Ok _ _ _ _ _ E5),
    (bind_Ok _ _ _ _ _ E6), (bind_Ok _ _ _ _ _ E7), (bind_Ok _ _ _ _ _ E8).
  intros H. injection H as <- _. constructor; assumption.
Qed.

(** ** The arguments of the calls *)

Ltac solve_encode_args :=
  apply Forall_cons; [|apply Forall_nil];
  constructor;
  cbn [UltraHdr.encode_api UltraHdr.encode_dest p010_input yuv420_input
         tf_input quality_input compressed_inputs hd_error];
  [ congruence
  | intros img Hi; try discriminate; injection Hi as <-; reflexivity
  | intros img Hi; try discriminate; injection Hi as <-; reflexivity
  | intros t Hi; try discriminate; injection Hi as <-; reflexivity
  | intros q Hi; try discriminate; injection Hi as <-; reflexivity
  | reflexivity
  | intros j0 Hj; try discriminate; injection Hj as <-; reflexivity
  | intros j0 g0 Hj; try discriminate; injection Hj as <- <-; reflexivity ].

Lemma encode_stage_arguments (env : Driver.environment)
    (p : Driver.parameters) (im : Driver.images) :
  forall status dest calls,
    Driver.encode_stage env (Driver.muxSwitch p) (Driver.quality p)
      (Driver.tf p) (Driver.yuv420Cg p) (Driver.p010Img im)
      (Driver.yuv420Img im) (Driver.grayImg im) (Driver.jpegImgR im)
    = (status, dest, calls) ->
    Forall (compress_args_ok p im) calls
    /\ Forall (encode_args_ok p im) (encode_calls calls).
Proof.
  intros status dest calls. unfold Driver.encode_stage, Driver.do_encode.
  repeat match goal with
         | |- context [?a =? ?b] => destruct (Z.eqb_spec a b)
         | |- context [Driver.compressImage ?e ?a ?b ?c ?d ?f] =>
             destruct (Driver.compressImage e a b c d f)
         | |- context [Driver.encodeJPEGR ?e ?c] =>
             destruct (Driver.encodeJPEGR e c)
         end;
    intros H; injection H as <- <- <-; cbn [encode_calls];
    (split;
     [ repeat (apply Forall_cons; [cbn; auto 10|]); apply Forall_nil
     | try apply Forall_nil; solve_encode_args ]).
Qed.

Lemma decode_calls_only (status width height of_ : Z)
    (jpegImgR : UltraHdr.jpegr_compressed_struct) (d d' : Fdp.t)
    (calls : list UltraHdr.api_call) :
  Driver.decode_stage status width height of_ jpegImgR d = Run.Ok (calls, d') ->
  8 <= width <= 7680 -> 8 <= height <= 4320 ->
  encode_calls calls = []
  /\ Forall (fun c => ~ is_compress c) calls
  /\ forall src dest boost of',
       In (UltraHdr.CallDecode src dest boost of') calls ->
       of' = of_
       /\ dest = UltraHdr.buffer (8 * width * height) Mem.zeroed
       /\ exists u, 0 <= u < 4294967296 /\ boost = boost_of u.
Proof.
  intros H Hw Hh.
  assert (Hp : 0 <= width * height <= 33177600) by nia.
  destruct (decode_stage_calls _ _ _ _ _ _ _ _ H)
    as [(_ & ->) | (_ & u & Hu & ->)].
  - split; [reflexivity|]. split; [constructor|]. intros ? ? ? ? [].
  - split; [reflexivity|]. split; [repeat constructor; intros []|].
    intros src dest boost of' [Hin | [Hin | []]]; [|discriminate].
    injection Hin as _ <- <- <-.
    split; [reflexivity|]. split; [|exists u; auto].
    rewrite (imul_small width height) by lia.
    rewrite imul_small by lia. rewrite to_size_t_small by lia.
    f_equal. ring.
Qed.

Lemma compress_args_ok_other (p : Driver.parameters) (im : Driver.images)
    (c : UltraHdr.api_call) :
  ~ is_compress c -> compress_args_ok p im c.
Proof. destruct c; cbn; tauto. Qed.

Lemma process_iteration_detail (env : Driver.environment)
    (d d' : Fdp.t) (it : Driver.parameters * list UltraHdr.api_call) :
  Driver.process_iteration env d = Run.Ok (it, d') -> iteration_detail env it.
Proof.
  intros Hit.
  destruct (process_iteration_unfold env d)
    as (p & d1 & im & d2 & status & dest & calls & calls' & d3
        & Ep & Hp & Eb & Es & Ed & Ei).
  rewrite Ei in Hit. injection Hit as <- _.
  destruct (build_images_detail env p d1 Hp) as (im' & d2' & Eb' & Him).
  rewrite Eb in Eb'. injection Eb' as <- _.
  destruct (encode_stage_arguments env p im _ _ _ Es) as [Hc He].
  pose proof (width_ok p Hp) as Hw. pose proof (height_ok p Hp) as Hh.
  unfold Driver.kMinWidth, Driver.kMaxWidth, Driver.kMinHeight,
    Driver.kMaxHeight in Hw, Hh.
  destruct (decode_calls_only _ _ _ _ _ _ _ _ Ed Hw Hh) as (Hd1 & Hd2 & Hd3).
  constructor; cbn [fst snd].
  - exact Hp.
  - exact (draw_parameters_enumerators d d1 p Ep).
  - exists im. split; [exact Him|]. split.
    + apply Forall_app. split; [exact Hc|].
      eapply Forall_impl; [|exact Hd2]. apply compress_args_ok_other.
    + rewrite encode_calls_app, Hd1, app_nil_r. exact He.
  - intros src dst boost of_ Hin. apply in_app_or in Hin.
    destruct Hin as [Hin|Hin]; [|exact (Hd3 _ _ _ _ Hin)].
    exfalso.
    apply (decode_call_of_encode_stage env (Driver.muxSwitch p)
             (Driver.quality p) (Driver.tf p) (Driver.yuv420Cg p)
             (Driver.p010Img im) (Driver.yuv420Img im) (Driver.grayImg im)
             (Driver.jpegImgR im) src dst boost of_).
    rewrite Es. exact Hin.
Qed.

Lemma process_detail (env : Driver.environment) (d : Fdp.t) :
  exists its,
    Driver.process env d = Run.Ok its /\ Forall (iteration_detail env) its.
Proof.
  destruct (process_forall env (iteration_detail env)) with (d := d)
    as (its & E & H & _); [|eauto].
  intros d0 it d' Hit. exact (process_iteration_detail env d0 d' it Hit).
Qed.

(** ** What the codec receives *)

Lemma p010_input_not_api4 (c : UltraHdr.encode_call)
    (img : UltraHdr.jpegr_uncompressed_struct) :
  p010_input c = Some img -> UltraHdr.encode_api c <> 4.
Proof. destruct c; cbn; intros H; (discriminate || lia). Qed.

(** X7: every raw HDR image [process] hands to [encodeJPEGR] carries the
    drawn dimensions and a layout that matches its buffers: the luma
    stride is 0 (tightly packed) or in [[width, width + 128]]; either the
    chroma pointer is null with chroma stride 0 and a single buffer of
    [stride * height * 3 / 2] elements, or there are a luma buffer of
    [stride * height] elements and a chroma buffer of
    [chroma_stride * height / 2] elements with the chroma stride in
    [[width, width + 128]]. *)
Theorem X7_p010_descriptor_layout (env : Driver.environment) (d : Fdp.t) :
  exists its,
    Driver.process env d = Run.Ok its
    /\ Forall (fun it =>
                 forall c img,
                   In c (encode_calls (snd it)) ->
                   p010_input c = Some img ->
                   p010_layout (Driver.width (fst it))
                     (Driver.height (fst it)) img) its.
Proof.
  destruct (process_detail env d) as (its & E & H).
  exists its. split; [exact E|].
  eapply Forall_impl; [|exact H].
  intros it [_ _ (im & Him & _ & He) _] c img Hin Hc.
  rewrite Forall_forall in He. destruct (He c Hin) as [Ha Hp _ _ _ _ _ _].
  rewrite (Hp img Hc).
  apply (im_p010 env (fst it) im Him).
  rewrite <- Ha. exact (p010_input_not_api4 c img Hc).
Qed.

(** X8: every raw HDR image [process] hands to [encodeJPEGR] is zero
    outside the first [2 * width] bytes of its luma plane and the first
    [2 * width] bytes of its chroma plane: whatever the fuzz input, all
    rows but the first of both planes are blank. *)
Theorem X8_p010_image_mostly_zero (env : Driver.environment) (d : Fdp.t) :
  exists its,
    Driver.process env d = Run.Ok its
    /\ Forall (fun it =>
                 forall c img,
                   In c (encode_calls (snd it)) ->
                   p010_input c = Some img ->
                   p010_mostly_zero (Driver.width (fst it))
                     (Driver.height (fst it)) img) its.
Proof.
  destruct (process_detail env d) as (its & E & H).
  exists its. split; [exact E|].
  eapply Forall_impl; [|exact H].
  intros it [_ _ (im & Him & _ & He) _] c img Hin Hc.
  rewrite Forall_forall in He. destruct (He c Hin) as [Ha Hp _ _ _ _ _ _].
  rewrite (Hp img Hc).
  apply (im_p010 env (fst it) im Him).
  rewrite <- Ha. exact (p010_input_not_api4 c img Hc).
Qed.

Lemma yuv420_input_api (c : UltraHdr.encode_call)
    (img : UltraHdr.jpegr_uncompressed_struct) :
  yuv420_input c = Some img -> 0 < UltraHdr.encode_api c.
Proof. destruct c; cbn; intros H; (discriminate || lia). Qed.

(** X9: the scalar arguments [process] passes are always valid: the
    transfer function of an [encodeJPEGR] call lies in
    [[kTfMin, kTfMax]] and its quality in [[0, 100]]; the colour gamut of
    a raw HDR image, of a raw SDR image and of the compressed SDR image
    lies in [[kCgMin, kCgMax]] (never unspecified), that of the compressed
    gain map is [ULTRAHDR_COLORGAMUT_UNSPECIFIED]; and the output format
    of a [decodeJPEGR] call lies in [[kOfMin, kOfMax]]. *)
Theorem X9_enumerators_in_range (env : Driver.environment) (d : Fdp.t) :
  exists its,
    Driver.process env d = Run.Ok its
    /\ Forall (fun it =>
                 (forall c,
                     In c (encode_calls (snd it)) ->
                     (forall t, tf_input c = Some t ->
                                Driver.kTfMin <= t <= Driver.kTfMax)
                     /\ (forall q, quality_input c = Some q ->
                                   Driver.kQfMin <= q <= Driver.kQfMax)
                     /\ (forall img, p010_input c = Some img ->
                           Driver.kCgMin <= UltraHdr.u_colorGamut img
                           <= Driver.kCgMax)
                     /\ (forall img, yuv420_input c = Some img ->
                           Driver.kCgMin <= UltraHdr.u_colorGamut img
                           <= Driver.kCgMax)
                     /\ (forall j, hd_error (compressed_inputs c) = Some j ->
                           Driver.kCgMin <= UltraHdr.c_colorGamut j
                           <= Driver.kCgMax)
                     /\ (forall j g, compressed_inputs c = [j; g] ->
                           UltraHdr.c_colorGamut g
                           = UltraHdr.ULTRAHDR_COLORGAMUT_UNSPECIFIED))
                 /\ (forall src dest boost of_,
                       In (UltraHdr.CallDecode src dest boost of_) (snd it) ->
                       Driver.kOfMin <= of_ <= Driver.kOfMax)) its.
Proof.
  destruct (process_detail env d) as (its & E & H).
  exists its. split; [exact E|].
  eapply Forall_impl; [|exact H].
  intros it [Hp [Hc1 Hc2 Ho] (im & Him & _ & He) Hd]. split.
  - intros c Hin. rewrite Forall_forall in He.
    destruct (He c Hin) as [Ha A1 A2 A3 A4 _ A6 A7].
    split; [intros t Ht; rewrite (A3 t Ht); apply Hp|].
    split; [intros q Hq; rewrite (A4 q Hq); apply Hp|].
    split.
    { intros img Hi. rewrite (A1 img Hi).
      destruct (im_p010 env (fst it) im Him) as (_ & _ & ->); [|exact Hc1].
      rewrite <- Ha. exact (p010_input_not_api4 c img Hi). }
    split.
    { intros img Hi. rewrite (A2 img Hi).
      rewrite (filled_gamut _ _ _ _ _ _
                 (im_yuv420 env (fst it) im Him
                    ltac:(rewrite <- Ha; exact (yuv420_input_api c img Hi)))).
      exact Hc2. }
    split; [intros j Hj; rewrite (A6 j Hj); exact Hc2 | exact A7].
  - intros src dest boost of_ Hin.
    destruct (Hd src dest boost of_ Hin) as (-> & _). exact Ho.
Qed.

(** X10: every [encodeJPEGR] call of [process] receives as destination a
    zeroed buffer of [max(8192, 6 * width * height)] bytes with that
    capacity in [maxLength] and [length] 0; every [decodeJPEGR] call
    receives a zeroed buffer of [8 * width * height] bytes.  Both sizes are
    computed in [int] without overflow: the first is at most 199065600,
    the second at most 265420800. *)
Theorem X10_buffer_capacities (env : Driver.environment) (d : Fdp.t) :
  exists its,
    Driver.process env d = Run.Ok its
    /\ Forall (fun it =>
                 let w := Driver.width (fst it) in
                 let h := Driver.height (fst it) in
                 (forall c,
                     In c (encode_calls (snd it)) ->
                     UltraHdr.encode_dest c = destination_of w h
                     /\ 8192 <= UltraHdr.c_maxLength (UltraHdr.encode_dest c)
                        <= 199065600)
                 /\ (forall src dest boost of_,
                       In (UltraHdr.CallDecode src dest boost of_) (snd it) ->
                       dest = UltraHdr.buffer (8 * w * h) Mem.zeroed
                       /\ 512 <= 8 * w * h <= 265420800)) its.
Proof.
  destruct (process_detail env d) as (its & E & H).
  exists its. split; [exact E|].
  eapply Forall_impl; [|exact H].
  intros it [Hp _ (im & Him & _ & He) Hd]. cbv zeta.
  pose proof (width_ok _ Hp) as Hw. pose proof (height_ok _ Hp) as Hh.
  unfold Driver.kMinWidth, Driver.kMaxWidth, Driver.kMinHeight,
    Driver.kMaxHeight in Hw, Hh.
  set (w := Driver.width (fst it)) in *.
  set (h := Driver.height (fst it)) in *.
  assert (Hwh : 64 <= w * h <= 33177600) by nia.
  split.
  - intros c Hin. rewrite Forall_forall in He.
    destruct (He c Hin) as [_ _ _ _ _ Hdest _ _].
    rewrite Hdest, (im_dest env (fst it) im Him). fold w h.
    split; [reflexivity|].
    cbn [UltraHdr.set_length destination_of UltraHdr.c_maxLength]. lia.
  - intros src dest boost of_ Hin.
    destruct (Hd src dest boost of_ Hin) as (_ & -> & _).
    split; [reflexivity | lia].
Qed.

(** X11: [process] calls [compressImage] only when [muxSwitch >= 2], with
    the drawn quality.  A three-channel call receives the drawn width and
    height (even, within [[8, 7680]] and [[8, 4320]]); a single-channel
    call is made only when [muxSwitch = 4] and receives the gain-map
    dimensions: a width that is a multiple of 16 in [[16, 1920]] and an
    even height in [[2, 1080]]. *)
Theorem X11_compressImage_arguments (env : Driver.environment) (d : Fdp.t) :
  exists its,
    Driver.process env d = Run.Ok its
    /\ Forall (fun it =>
                 forall image width height quality isSingleChannel,
                   In (UltraHdr.CallCompress image width height quality
                         isSingleChannel) (snd it) ->
                   2 <= Driver.muxSwitch (fst it) <= 4
                   /\ quality = Driver.quality (fst it)
                   /\ Driver.kQfMin <= quality <= Driver.kQfMax
                   /\ if isSingleChannel : bool then
                        Driver.muxSwitch (fst it) = 4
                        /\ width = Driver.map_width_of (Driver.width (fst it))
                        /\ height
                           = Driver.map_height_of (Driver.height (fst it))
                        /\ width mod 16 = 0 /\ 16 <= width <= 1920
                        /\ Z.even height = true /\ 2 <= height <= 1080
                      else
                        width = Driver.width (fst it)
                        /\ height = Driver.height (fst it)
                        /\ Z.even width = true /\ 8 <= width <= 7680
                        /\ Z.even height = true /\ 8 <= height <= 4320) its.
Proof.
  destruct (process_detail env d) as (its & E & H).
  exists its. split; [exact E|].
  eapply Forall_impl; [|exact H].
  intros it [Hp _ (im & Him & Hc & _) _] image width height quality s Hin.
  rewrite Forall_forall in Hc. specialize (Hc _ Hin).
  cbn [compress_args_ok] in Hc. destruct Hc as (-> & N0 & N1 & Hs).
  pose proof (mux_ok _ Hp) as Hm.
  pose proof (width_ok _ Hp) as Hw. pose proof (height_ok _ Hp) as Hh.
  unfold Driver.kMinWidth, Driver.kMaxWidth, Driver.kMinHeight,
    Driver.kMaxHeight in Hw, Hh.
  split; [lia|]. split; [reflexivity|]. split; [apply Hp|].
  destruct s.
  - destruct Hs as (M4 & _ & -> & ->).
    pose proof (im_gray env (fst it) im Him M4) as Hg.
    rewrite (filled_width _ _ _ _ _ _ Hg), (filled_height _ _ _ _ _ _ Hg).
    destruct (map_width_of_bounds _ Hw) as [B1 B2].
    destruct (map_height_of_bounds _ Hh) as [B3 B4].
    repeat split; (assumption || reflexivity || lia).
  - destruct Hs as (_ & -> & ->).
    pose proof (im_yuv420 env (fst it) im Him ltac:(lia)) as Hy.
    rewrite (filled_width _ _ _ _ _ _ Hy), (filled_height _ _ _ _ _ _ Hy).
    repeat split; try lia; apply Hp.
Qed.

(** X12: every image [process] hands to [compressImage] is a buffer of
    exactly [width * height * 3 / 2] bytes (three channels) or
    [width * height] bytes (single channel), entirely written by
    [fill420Buffer]: each byte is the byte [a mod 16] of a 16-byte seed
    after [a / 16] rounds of [std::shuffle]. *)
Theorem X12_compressImage_input_filled
    (env : Driver.environment) (d : Fdp.t) :
  exists its,
    Driver.process env d = Run.Ok its
    /\ Forall (fun it =>
                 forall image width height quality isSingleChannel,
                   In (UltraHdr.CallCompress image width height quality
                         isSingleChannel) (snd it) ->
                   exists seed m,
                     image = UltraHdr.buffer
                               (if isSingleChannel : bool then width * height
                                else width * height * 3 / 2) m
                     /\ length seed = 16%nat
                     /\ Forall (fun b => 0 <= b < 256) seed
                     /\ forall a,
                          0 <= a < (if isSingleChannel : bool
                                    then width * height
                                    else width * height * 3 / 2) ->
                          m a = pattern420 (Driver.shuffle env) seed a) its.
Proof.
  destruct (process_detail env d) as (its & E & H).
  exists its. split; [exact E|].
  eapply Forall_impl; [|exact H].
  intros it [Hp _ (im & Him & Hc & _) _] image width height quality s Hin.
  rewrite Forall_forall in Hc. specialize (Hc _ Hin).
  cbn [compress_args_ok] in Hc. destruct Hc as (_ & N0 & N1 & Hs).
  pose proof (mux_ok _ Hp) as Hm.
  destruct s.
  - destruct Hs as (M4 & -> & -> & ->).
    destruct (im_gray env (fst it) im Him M4) as [Gw Gh _ _ _ Gd].
    rewrite Gw, Gh. exact Gd.
  - destruct Hs as (-> & -> & ->).
    destruct (im_yuv420 env (fst it) im Him ltac:(lia)) as [Yw Yh _ _ _ Yd].
    rewrite Yw, Yh. exact Yd.
Qed.

(** ** The values the display boost takes *)

Lemma leb_two_pow_95 (m : positive) (e : Z) :
  8388608 <= Zpos m -> 72 <= e ->
  F32.leb (S754_finite false 8388608 72) (S754_finite false m e) = true.
Proof.
  intros Hm He. unfold F32.leb, SFleb, SFcompare.
  destruct (Z.compare_spec 72 e); [| reflexivity | lia].
  rewrite Pos.compare_cont_spec.
  assert (Hle : (8388608 <= m)%positive) by lia.
  unfold Pos.le in Hle.
  remember (8388608 ?= m)%positive as cmp eqn:Ec.
  destruct cmp; cbn [Pos.switch_Eq]; [reflexivity | reflexivity |].
  exfalso. apply Hle. reflexivity.
Qed.

(** The boost is 1.0 when the provider yields the integer 0, and a finite
    float of at least 2^95 for every other integer. *)
Lemma boost_of_cases (u : Z) :
  0 <= u < 4294967296 ->
  (u = 0 /\ boost_of u = F32.one)
  \/ (0 < u
      /\ exists m e,
           boost_of u = S754_finite false m e
           /\ 8388608 <= Zpos m < 16777216 /\ 72 <= e <= 104).
Proof.
  intros Hu.
  destruct (Z.eq_dec u 0) as [->|Hnz].
  { left. split; [reflexivity|]. vm_compute. reflexivity. }
  right. split; [lia|]. unfold boost_of.
  change (F32.sub F32.FLT_MAX F32.one) with (S754_finite false 16777215 104).
  change (F32.of_Z 4294967295) with (S754_finite false 8388608 9).
  change F32.one with (S754_finite false 8388608 (-23)).
  destruct (of_Z_shape u ltac:(lia)) as (m & e & -> & Hm & He & H9).
  destruct (Z.eq_dec e 9) as [E9|N9].
  { rewrite (H9 E9), E9. exists 16777215%positive, 104.
    split; [vm_compute; reflexivity | lia]. }
  rewrite div_by_2_32 by lia.
  destruct (mul_FLT_MAX m (e - 32) Hm ltac:(lia)) as (mx & ex & -> & Hmx & Hex).
  rewrite add_one_absorbed by lia.
  exists mx, ex. split; [reflexivity | lia].
Qed.

(** X13: the maximum display boost [process] hands to [decodeJPEGR] takes
    no value strictly between 1.0 and 2^95: it is exactly 1.0 (when the
    provider yields the integer 0, as it does once its data is used up) or
    at least 2^95. *)
Theorem X13_boost_is_one_or_huge (env : Driver.environment) (d : Fdp.t) :
  exists its,
    Driver.process env d = Run.Ok its
    /\ Forall (fun it =>
                 forall src dest boost of_,
                   In (UltraHdr.CallDecode src dest boost of_) (snd it) ->
                   boost = F32.one
                   \/ F32.leb (F32.of_Z (2 ^ 95)) boost = true) its.
Proof.
  destruct (process_detail env d) as (its & E & H).
  exists its. split; [exact E|].
  eapply Forall_impl; [|exact H].
  intros it [_ _ _ Hd] src dest boost of_ Hin.
  destruct (Hd src dest boost of_ Hin) as (_ & _ & u & Hu & ->).
  destruct (boost_of_cases u Hu) as [(_ & ->) | (_ & m & e & -> & Hm & He)].
  - left. reflexivity.
  - right. change (F32.of_Z (2 ^ 95)) with (S754_finite false 8388608 72).
    apply leb_two_pow_95; lia.
Qed.

(** ** How often the encoder helper is called *)

Lemma compress_count_app (l1 l2 : list UltraHdr.api_call) :
  compress_count (l1 ++ l2) = (compress_count l1 + compress_count l2)%nat.
Proof.
  induction l1 as [|c l1 IH]; [reflexivity|].
  destruct c; cbn [app compress_count]; rewrite IH; reflexivity.
Qed.

Lemma compress_count_none (calls : list UltraHdr.api_call) :
  Forall (fun c => ~ is_compress c) calls -> compress_count calls = 0%nat.
Proof.
  induction 1 as [|c l Hc _ IH]; [reflexivity|].
  destruct c; cbn [compress_count]; try exact IH.
  exfalso. apply Hc. exact I.
Qed.

Lemma encode_stage_compressions (env : Driver.environment)
    (muxSwitch quality tf yuv420Cg : Z)
    (p010Img yuv420Img grayImg : UltraHdr.jpegr_uncompressed_struct)
    (jpegImgR : UltraHdr.jpegr_compressed_struct) :
  0 <= muxSwitch <= 4 ->
  let image := UltraHdr.u_data yuv420Img in
  let width := UltraHdr.u_width yuv420Img in
  let height := UltraHdr.u_height yuv420Img in
  let calls :=
    snd (Driver.encode_stage env muxSwitch quality tf yuv420Cg p010Img
           yuv420Img grayImg jpegImgR) in
  (muxSwitch <= 1 -> compress_count calls = 0%nat)
  /\ (2 <= muxSwitch ->
      hd_error calls
      = Some (UltraHdr.CallCompress image width height quality false)
      /\ (muxSwitch = 2 \/ muxSwitch = 3 -> compress_count calls = 1%nat)
      /\ (muxSwitch = 4 ->
          Driver.compressImage env image width height quality false = None ->
          compress_count calls = 1%nat /\ encode_calls calls = [])
      /\ (muxSwitch = 4 ->
          Driver.compressImage env image width height quality false <> None ->
          compress_count calls = 2%nat)).
Proof.
  intros Hm. cbv zeta. unfold Driver.encode_stage, Driver.do_encode.
  repeat match goal with
         | |- context [?a =? ?b] => destruct (Z.eqb_spec a b)
         | |- context [Driver.compressImage ?e ?a ?b ?c ?d ?f] =>
             let E := fresh "E" in
             destruct (Driver.compressImage e a b c d f) eqn:E
         | |- context [Driver.encodeJPEGR ?e ?c] =>
             destruct (Driver.encodeJPEGR e c)
         end;
    cbn [snd compress_count encode_calls hd_error];
    (split; [intros; try reflexivity; lia|]);
    intros H2; try (exfalso; lia);
    (split; [reflexivity|]);
    (split; [intros; try reflexivity; lia|]);
    (split; intros; try (exfalso; lia); try congruence;
     try (split; reflexivity); try reflexivity).
Qed.

Lemma process_iteration_compressions (env : Driver.environment)
    (d d' : Fdp.t) (it : Driver.parameters * list UltraHdr.api_call) :
  Driver.process_iteration env d = Run.Ok (it, d') -> compressions_made env it.
Proof.
  intros Hit.
  destruct (process_iteration_unfold env d)
    as (p & d1 & im & d2 & status & dest & calls & calls' & d3
        & _ & Hp & _ & Es & Ed & Ei).
  rewrite Ei in Hit. injection Hit as <- _.
  unfold compressions_made. cbn [fst snd]. cbv zeta.
  pose proof (width_ok p Hp) as Hw. pose proof (height_ok p Hp) as Hh.
  unfold Driver.kMinWidth, Driver.kMaxWidth, Driver.kMinHeight,
    Driver.kMaxHeight in Hw, Hh.
  destruct (decode_calls_only _ _ _ _ _ _ _ _ Ed Hw Hh) as (He & Hn & _).
  rewrite compress_count_app, (compress_count_none calls' Hn), Nat.add_0_r.
  rewrite encode_calls_app, He, app_nil_r.
  pose proof (encode_stage_compressions env (Driver.muxSwitch p)
                (Driver.quality p) (Driver.tf p) (Driver.yuv420Cg p)
                (Driver.p010Img im) (Driver.yuv420Img im) (Driver.grayImg im)
                (Driver.jpegImgR im) (mux_ok p Hp)) as Hc.
  cbv zeta in Hc. rewrite Es in Hc. cbn [snd] in Hc.
  destruct Hc as [H01 H24]. split; [exact H01|].
  intros H2. destruct (H24 H2) as (Hh1 & H23 & H4n & H4s).
  eexists _, _, _, _. split; [apply hd_error_app; exact Hh1|].
  split; [exact H23|]. split; [exact H4n | exact H4s].
Qed.

(** X14: in an iteration of [process], [compressImage] is never called
    for [muxSwitch] 0 and 1; for 2, 3 and 4 the first call of the iteration
    is a three-channel compression; it is the only one for 2 and 3; for 4
    it is the only one, and [encodeJPEGR] is not called, when that first
    compression returns false, and there are exactly two when it returns
    true. *)
Theorem X14_compressImage_call_count (env : Driver.environment) (d : Fdp.t) :
  exists its,
    Driver.process env d = Run.Ok its
    /\ Forall (compressions_made env) its.
Proof.
  destruct (process_forall env (compressions_made env)) with (d := d)
    as (its & E & H & _); [|eauto].
  intros d0 it d' Hit. exact (process_iteration_compressions env d0 d' it Hit).
Qed.

(** ** Capacity of the compressed gain map (C1) *)

Lemma call_fill420Buffer_exact (env : Driver.environment)
    (size : Z) (d : Fdp.t) :
  size <= loop_limit ->
  Driver.call_fill420Buffer env size d
  = Run.Ok (fst (fst (Fill.fill420Buffer (Driver.shuffle env)
                        (Driver.turns size) size d)),
            snd (Fill.fill420_seed d)).
Proof.
  intros Hs. unfold Driver.call_fill420Buffer.
  destruct (fill420Buffer_spec (Driver.shuffle env) (Driver.turns size)
              size d Hs (turns_enough size)) as (ops & b' & d' & E & _ & _).
  rewrite E. cbn [fst]. unfold Fill.fill420Buffer in E.
  destruct (Fill.fill420_seed d) as [seed d1]. injection E as _ E2.
  cbn [snd]. rewrite E2. reflexivity.
Qed.

(** What a buffer filled by [fill420Buffer] holds. *)
Lemma filled_buffer_content (env : Driver.environment)
    (size : Z) (d : Fdp.t) (a : Z) :
  size <= loop_limit -> 0 <= a < size ->
  contents (filled_buffer env size d) a
  = pattern420 (Driver.shuffle env) (fst (Fill.fill420_seed d)) a.
Proof.
  intros Hs Ha. unfold filled_buffer, contents, Fill.fill420Buffer.
  destruct (Fill.fill420_seed d) as [seed d1]. cbn [fst].
  pose proof (turns_enough size) as Hf.
  rewrite (fill420_loop_content (Driver.shuffle env) (Driver.turns size)
             seed size 0 Mem.zeroed ltac:(lia) eq_refl Hs ltac:(lia) a
             ltac:(lia)).
  rewrite Z.sub_0_r. reflexivity.
Qed.

(** A rearrangement leaves a buffer of zeros as it is. *)
Lemma pattern420_zero (shuffle : forall A : Type, list A -> list A)
    (seed : list Z) (a : Z) :
  (forall l, Forall (fun b => b = 0) l ->
             Forall (fun b => b = 0) (shuffle Z l)) ->
  Forall (fun b => b = 0) seed ->
  pattern420 shuffle seed a = 0.
Proof.
  intros Hsh Hseed. unfold pattern420, shuffled.
  assert (H : Forall (fun b => b = 0)
                (Nat.iter (Z.to_nat (a / 16)) (shuffle Z) seed)).
  { induction (Z.to_nat (a / 16)) as [|k IH]; [exact Hseed|].
    cbn [Nat.iter]. apply Hsh. exact IH. }
  rewrite Forall_forall in H.
  destruct (nth_in_or_default (Z.to_nat (a mod 16))
              (Nat.iter (Z.to_nat (a / 16)) (shuffle Z) seed) 0) as [Hin|E].
  - exact (H _ Hin).
  - exact E.
Qed.

Lemma small_limit (size : Z) : size <= 98304 -> size <= loop_limit.
Proof. unfold loop_limit, CInt.INT_MAX. lia. Qed.

Lemma draw_noise_parameters :
  Driver.draw_parameters noise_input = Run.Ok (noise_parameters, noise_bytes).
Proof. vm_compute. reflexivity. Qed.

(** The gain-map image of [noise_input] takes the 16 bytes left in the
    provider. *)
Lemma init_noise_gray (env : Driver.environment) :
  Driver.init_gray env 16 4096 noise_bytes
  = Run.Ok ({| UltraHdr.u_data := filled_buffer env 16384 noise_bytes;
               UltraHdr.u_width := 16; UltraHdr.u_height := 1024;
               UltraHdr.u_colorGamut :=
                 UltraHdr.ULTRAHDR_COLORGAMUT_UNSPECIFIED;
               UltraHdr.u_chroma_data := UltraHdr.nullptr;
               UltraHdr.u_luma_stride := 0;
               UltraHdr.u_chroma_stride := 0 |}, []).
Proof.
  unfold Driver.init_gray, Run.bind.
  replace (Driver.map_width_of 16) with 16 by (vm_compute; reflexivity).
  replace (Driver.map_height_of 4096) with 1024 by (vm_compute; reflexivity).
  replace (CInt.to_size_t (Driver.imul 16 1024)) with 16384
    by (vm_compute; reflexivity).
  replace (CInt.to_int 16384) with 16384 by (vm_compute; reflexivity).
  rewrite (call_fill420Buffer_exact env 16384 noise_bytes
             (small_limit 16384 ltac:(lia))).
  replace (snd (Fill.fill420_seed noise_bytes)) with (@nil byte)
    by (vm_compute; reflexivity).
  unfold Run.ret, filled_buffer. reflexivity.
Qed.

(** The 4:2:0 image of [noise_input] finds the provider empty. *)
Lemma init_flat_420 (env : Driver.environment) :
  Driver.init_420 env 16 4096 UltraHdr.ULTRAHDR_COLORGAMUT_BT709 []
  = Run.Ok ({| UltraHdr.u_data := filled_buffer env 98304 [];
               UltraHdr.u_width := 16; UltraHdr.u_height := 4096;
               UltraHdr.u_colorGamut := UltraHdr.ULTRAHDR_COLORGAMUT_BT709;
               UltraHdr.u_chroma_data := UltraHdr.nullptr;
               UltraHdr.u_luma_stride := 0;
               UltraHdr.u_chroma_stride := 0 |}, []).
Proof.
  unfold Driver.init_420, Run.bind.
  replace (CInt.to_size_t (Z.quot (Driver.imul (Driver.imul 16 4096) 3) 2))
    with 98304 by (vm_compute; reflexivity).
  replace (CInt.to_int 98304) with 98304 by (vm_compute; reflexivity).
  rewrite (call_fill420Buffer_exact env 98304 []
             (small_limit 98304 ltac:(lia))).
  replace (snd (Fill.fill420_seed [])) with (@nil byte)
    by (vm_compute; reflexivity).
  unfold Run.ret, filled_buffer. reflexivity.
Qed.

Lemma build_noise_images (env : Driver.environment) :
  Driver.build_images env noise_parameters noise_bytes
  = Run.Ok
      ({| Driver.p010Img := UltraHdr.uncompressed_zero;
          Driver.yuv420Img :=
            {| UltraHdr.u_data := filled_buffer env 98304 [];
               UltraHdr.u_width := 16; UltraHdr.u_height := 4096;
               UltraHdr.u_colorGamut := UltraHdr.ULTRAHDR_COLORGAMUT_BT709;
               UltraHdr.u_chroma_data := UltraHdr.nullptr;
               UltraHdr.u_luma_stride := 0; UltraHdr.u_chroma_stride := 0 |};
          Driver.grayImg :=
            {| UltraHdr.u_data := filled_buffer env 16384 noise_bytes;
               UltraHdr.u_width := 16; UltraHdr.u_height := 1024;
               UltraHdr.u_colorGamut :=
                 UltraHdr.ULTRAHDR_COLORGAMUT_UNSPECIFIED;
               UltraHdr.u_chroma_data := UltraHdr.nullptr;
               UltraHdr.u_luma_stride := 0; UltraHdr.u_chroma_stride := 0 |};
          Driver.jpegImgR :=
            {| UltraHdr.c_data := UltraHdr.buffer 393216 Mem.zeroed;
               UltraHdr.c_length := 0; UltraHdr.c_maxLength := 393216;
               UltraHdr.c_colorGamut := 0 |} |}, []).
Proof.
  unfold Driver.build_images, noise_parameters.
  cbn [Driver.muxSwitch Driver.width Driver.height Driver.yuv420Cg
         Driver.p010Cg].
  change (negb (4 =? 4)) with false. change (0 <? 4) with true.
  cbv iota. unfold Run.bind.
  rewrite init_noise_gray. unfold Run.ret. cbv beta iota.
  rewrite init_flat_420.
  replace (Z.max (Driver.imul 8 1024)
             (Driver.imul (Driver.imul (Driver.imul 16 4096) 3) 2))
    with 393216 by (vm_compute; reflexivity).
  reflexivity.
Qed.

(** An iteration that uses up the input is the only one. *)
Lemma process_single (env : Driver.environment) (d : Fdp.t)
    (it : Driver.parameters * list UltraHdr.api_call) :
  d <> [] ->
  Driver.process_iteration env d = Run.Ok (it, []) ->
  Driver.process env d = Run.Ok [it].
Proof.
  intros Hne Hit. unfold Driver.process.
  destruct d as [|b d]; [contradiction|].
  cbn [length Driver.process_loop].
  replace (Fdp.remaining_bytes (b :: d) =? 0) with false.
  2:{ symmetry. apply Z.eqb_neq. unfold Fdp.remaining_bytes.
      cbn [length]. lia. }
  rewrite Hit. destruct (length d); reflexivity.
Qed.

(** C1 fails on the code.  The compressed SDR image is passed with
    [maxLength = length], but the compressed gain map is passed with the
    [length] of the SDR image as its [maxLength] (on every input, lemma
    [compressed_input_capacity]).  On [noise_input] the driver compresses
    a 16x4096 4:2:0 image of zeros and a 16x1024 gain-map image of
    shuffled noise at quality 100; for every encoder that returns a longer
    stream for the second than for the first, the api-4 call receives the
    gain map with [length] above [maxLength]. *)
Theorem C1_gain_map_length_exceeds_maxLength
    (env : Driver.environment) (sdr gm : list Z) :
  Driver.compressImage env (filled_buffer env 98304 []) 16 4096 100 false
  = Some sdr ->
  Driver.compressImage env (filled_buffer env 16384 noise_bytes) 16 1024 100
    true
  = Some gm ->
  (length sdr < length gm)%nat ->
  Z.of_nat (length gm) <= CInt.INT_MAX ->
  gain_map_over_capacity env sdr gm.
Proof.
  intros Hsdr Hgm Hlt Hmax. unfold CInt.INT_MAX in Hmax.
  unfold gain_map_over_capacity.
  assert (Hseed : fst (Fill.fill420_seed noise_bytes) = noise_seed)
    by (vm_compute; reflexivity).
  assert (Hzero : fst (Fill.fill420_seed []) = repeat 0 16)
    by (vm_compute; reflexivity).
  split.
  { intros a Ha. rewrite filled_buffer_content, Hseed;
      [reflexivity | apply small_limit; lia | exact Ha]. }
  split.
  { intros a Ha. rewrite filled_buffer_content, Hzero;
      [reflexivity | apply small_limit; lia | exact Ha]. }
  split.
  { intros Hsh a Ha. rewrite filled_buffer_content, Hzero;
      [| apply small_limit; lia | exact Ha].
    apply pattern420_zero; [exact Hsh|].
    apply Forall_forall. intros b Hb. apply repeat_spec in Hb. exact Hb. }
  assert (Hit : exists j g dest rest,
             Driver.process_iteration env noise_input
             = Run.Ok
                 ((noise_parameters,
                   UltraHdr.CallCompress (filled_buffer env 98304 []) 16 4096
                     100 false
                   :: UltraHdr.CallCompress
                        (filled_buffer env 16384 noise_bytes) 16 1024 100
                        true
                   :: UltraHdr.CallEncode
                        (UltraHdr.EncodeApi4 j g
                           (Driver.make_metadata env UltraHdr.ULTRAHDR_TF_HLG)
                           dest)
                   :: rest), [])
             /\ UltraHdr.c_length j = Z.of_nat (length sdr)
             /\ UltraHdr.c_maxLength j = Z.of_nat (length sdr)
             /\ UltraHdr.c_length g = Z.of_nat (length gm)
             /\ UltraHdr.c_maxLength g = Z.of_nat (length sdr)).
  { unfold Driver.process_iteration, Run.bind.
    rewrite draw_noise_parameters, build_noise_images.
    cbn [Driver.muxSwitch Driver.quality Driver.tf Driver.yuv420Cg
           Driver.width Driver.height Driver.of_ Driver.p010Img
           Driver.yuv420Img Driver.grayImg Driver.jpegImgR noise_parameters].
    unfold Driver.encode_stage, Driver.do_encode.
    cbn [UltraHdr.u_data UltraHdr.u_width UltraHdr.u_height].
    change (4 =? 0) with false. change (4 =? 1) with false.
    change (4 =? 2) with false. change (4 =? 3) with false.
    change (4 =? 4) with true. cbv iota.
    rewrite Hsdr, Hgm.
    match goal with
    | |- context [Driver.encodeJPEGR env ?c] =>
        destruct (Driver.encodeJPEGR env c) as [st dest']
    end.
    destruct (decode_stage_spec st 16 4096
                UltraHdr.ULTRAHDR_OUTPUT_HDR_LINEAR dest' [])
      as (calls' & d3 & Ed & _ & _ & L).
    destruct d3; [|cbn [length] in L; lia].
    rewrite Ed. unfold Run.ret.
    eexists _, _, _, calls'. split; [reflexivity|].
    cbn [UltraHdr.c_length UltraHdr.c_maxLength Driver.compressed_of].
    rewrite !to_int_small by (apply in_int_intro; lia).
    repeat split. }
  destruct Hit as (j & g & dest & rest & Hit & L1 & L2 & L3 & L4).
  exists j, g, dest, rest.
  split; [apply process_single; [discriminate | exact Hit]|].
  repeat (split; [assumption|]). lia.
Qed.

(** The encoder of [example_env] returns 100 bytes for a three-channel
    image and 200 bytes for a single-channel one. *)
Lemma C1_gain_map_length_exceeds_maxLength_witness :
  gain_map_over_capacity (example_env 100 200 50)
    (repeat 0 100) (repeat 0 200).
Proof.
  apply (C1_gain_map_length_exceeds_maxLength (example_env 100 200 50)
           (repeat 0 100) (repeat 0 200)).
  - reflexivity.
  - reflexivity.
  - vm_compute. lia.
  - vm_compute. discriminate.
Defined.
